(** * Rule tools: extraction, bundling, diffing and validation of rule documents

    A shallow embedding of the Python tools under [rules/tools]:
    [extract-rule-section.py] (class [RuleExtractor]), [rule-bundler.py]
    (class [RuleBundler]), [rule-diff.py] (class [RuleDiffer]) and
    [validate-rule.py] (class [RuleValidator]).

    Text is a list of 8-bit characters.  The Python string methods used by
    the tools ([strip], [lower], [upper], [split], [find], [in]) are
    modelled exactly on ASCII text, which is what rule documents, section
    names and the tools' keyword tables consist of; characters above 127
    are carried through unchanged (no case, not white space). *)

From Stdlib Require Import Ascii String ZArith QArith Lia DecimalString DecimalNat.
From stdpp Require Import gmap strings list fin_maps sorting.

Set Warnings "-register-all".

Close Scope Q_scope.
Local Open Scope nat_scope.
Local Open Scope list_scope.

(** ** Python strings *)

Module Text.

Definition str := list ascii.

(** A literal of the source. *)
Definition lit (s : string) : str := list_ascii_of_string s.

Definition nl : ascii := "010"%char.

(** The double quote. *)
Definition dquote : ascii := "034"%char.

(** [unlines] writes a document line by line, every line ended by a
    newline. *)
Definition unlines (ls : list string) : str :=
  concat (map (fun l => lit l ++ [nl]) ls).

Definition code (c : ascii) : nat := nat_of_ascii c.

(** [str.isspace] on one character. *)
Definition is_space (c : ascii) : bool :=
  let n := code c in
  ((9 <=? n) && (n <=? 13)) || ((28 <=? n) && (n <=? 32)).

Definition is_digit (c : ascii) : bool :=
  let n := code c in (48 <=? n) && (n <=? 57).

Definition is_upper (c : ascii) : bool :=
  let n := code c in (65 <=? n) && (n <=? 90).

Definition is_lower (c : ascii) : bool :=
  let n := code c in (97 <=? n) && (n <=? 122).

(** The class [\w] of the [re] module. *)
Definition is_word (c : ascii) : bool :=
  is_digit c || is_upper c || is_lower c || Ascii.eqb c "_".

Definition lower_char (c : ascii) : ascii :=
  if is_upper c then ascii_of_nat (code c + 32) else c.

Definition upper_char (c : ascii) : ascii :=
  if is_lower c then ascii_of_nat (code c - 32) else c.

Definition lower (s : str) : str := map lower_char s.
Definition upper (s : str) : str := map upper_char s.

(** [s.replace(a, b)] for single characters [a] and [b]. *)
Definition replace_char (a b : ascii) (s : str) : str :=
  map (fun c => if Ascii.eqb c a then b else c) s.

Fixpoint lstrip (s : str) : str :=
  match s with
  | c :: s' => if is_space c then lstrip s' else s
  | [] => []
  end.

Definition rstrip (s : str) : str := rev (lstrip (rev s)).

Definition strip (s : str) : str := rstrip (lstrip s).

(** [s.startswith(p)], also the test that a literal pattern matches at
    the current position. *)
Fixpoint starts_with (p s : str) : bool :=
  match p, s with
  | [], _ => true
  | a :: p', b :: s' => Ascii.eqb a b && starts_with p' s'
  | _ :: _, [] => false
  end.

(** [s.find(p)]: offset of the first occurrence. *)
Fixpoint find (p s : str) : option nat :=
  if starts_with p s then Some 0
  else match s with
       | [] => None
       | _ :: s' => S <$> find p s'
       end.

(** [p in s]. *)
Definition contains (p s : str) : bool :=
  match find p s with Some _ => true | None => false end.

(** [p] occurs somewhere in [s]. *)
Definition occurs (p s : str) : Prop := exists a b, s = a ++ p ++ b.

(** [sep.join(l)]. *)
Fixpoint join (sep : str) (l : list str) : str :=
  match l with
  | [] => []
  | [x] => x
  | x :: l' => x ++ sep ++ join sep l'
  end.

(** The maximal runs of the characters that satisfy [keep]: the words of
    [s.split()] for [keep c = negb (is_space c)], the matches of [\w+] for
    [keep = is_word].  [cur] holds the run being read, in reverse. *)
Definition close_run (cur : str) : list str :=
  match cur with [] => [] | _ => [rev cur] end.

Fixpoint runs (keep : ascii -> bool) (cur : str) (s : str) : list str :=
  match s with
  | [] => close_run cur
  | c :: s' =>
      if keep c then runs keep (c :: cur) s'
      else close_run cur ++ runs keep [] s'
  end.

(** [s.split()]. *)
Definition split (s : str) : list str :=
  runs (fun c => negb (is_space c)) [] s.

(** [s.replace(old, new)] for a non-empty [old]: the occurrences are
    replaced from left to right and do not overlap.  [skip] counts the
    characters of the current occurrence that are still to be passed. *)
Fixpoint replace_from (old new : str) (skip : nat) (s : str) : str :=
  match s with
  | [] => []
  | c :: s' =>
      match skip with
      | S k => replace_from old new k s'
      | 0 =>
          if starts_with old s
          then new ++ replace_from old new (length old - 1) s'
          else c :: replace_from old new 0 s'
      end
  end.

Definition replace (old new s : str) : str := replace_from old new 0 s.

(** [str(n)] for a natural number. *)
Definition decimal (n : nat) : str :=
  lit (NilEmpty.string_of_uint (Nat.to_uint n)).

(** The format [{n:03d}]: decimal, padded with zeros to three digits. *)
Definition decimal03 (n : nat) : str :=
  let d := decimal n in replicate (3 - length d) "0"%char ++ d.

(** [int(s)] for a string of decimal digits. *)
Definition int_of_digits (s : str) : nat :=
  fold_left (fun acc c => 10 * acc + (code c - 48)) s 0.

(** The longest prefix of digits ([\d+], [\d*]) and what follows it. *)
Fixpoint span_digits (s : str) : str * str :=
  match s with
  | c :: s' =>
      if is_digit c then let '(d, r) := span_digits s' in (c :: d, r)
      else ([], s)
  | [] => ([], [])
  end.

End Text.

Export Text.


(** ** Python values *)

Module Py.

(** A float: [nan], an infinity, or a finite number.  A finite float is
    kept as the rational number it stands for, together with the text
    that [repr] prints for it; the loader gives both. *)
Inductive float :=
| NaN
| Inf (negative : bool)
| Finite (q : Q) (repr : str).

(** The data that [json] and [yaml] load and dump: [None], booleans,
    integers, floats, strings, lists and dictionaries with string keys.
    A dictionary keeps its keys in insertion order.  The values that YAML
    builds besides these (dates and times for timestamps, byte strings,
    sets, keys that are not strings) are not part of the type. *)
Inductive value :=
| VNone
| VBool (b : bool)
| VInt (n : Z)
| VFloat (x : float)
| VStr (s : str)
| VList (l : list value)
| VDict (d : list (str * value)).

(** [d.get(k)], as an option. *)
Fixpoint dict_lookup {A} (k : str) (d : list (str * A)) : option A :=
  match d with
  | [] => None
  | (k', v) :: d' => if bool_decide (k = k') then Some v else dict_lookup k d'
  end.

(** [d[k] = v]: an existing key keeps its place. *)
Fixpoint dict_set {A} (k : str) (v : A) (d : list (str * A)) : list (str * A) :=
  match d with
  | [] => [(k, v)]
  | (k', v') :: d' =>
      if bool_decide (k = k') then (k, v) :: d' else (k', v') :: dict_set k v d'
  end.

(** [del d[k]]. *)
Definition dict_del {A} (k : str) (d : list (str * A)) : list (str * A) :=
  filter (fun kv => kv.1 <> k) d.

Definition dict_keys {A} (d : list (str * A)) : list str := map fst d.

(** [x == y] for two floats: [nan] equals nothing, not even itself; a
    finite float equals the floats of the same number, whatever their
    text ([0.0 == -0.0]). *)
Definition float_eqb (x y : float) : bool :=
  match x, y with
  | Inf a, Inf b => Bool.eqb a b
  | Finite p _, Finite q _ => Qeq_bool p q
  | _, _ => false
  end.

(** An integer among the floats, for [n == x]; Python compares the two
    numbers exactly. *)
Definition float_of_Z (n : Z) : float := Finite (inject_Z n) [].

Definition Z_of_bool (b : bool) : Z := if b then 1%Z else 0%Z.

(** [a is b] for two values that were loaded apart, where it matters: a
    loader answers every [nan] with one object, [yaml] with the
    [nan_value] of its constructor and [json] with the [NaN] of its
    decoder, so that two of them are one object.  (Other values can be one
    object as well, [None] for one; those equal themselves anyway.) *)
Definition is_nan (v : value) : bool :=
  match v with
  | VFloat NaN => true
  | _ => false
  end.

(** [a == b].  [True] and [False] equal the integers 1 and 0, and an
    integer equals the float of its number.  A list or a dictionary
    compares its members with [is] first and with [==] then, so that a
    [nan] inside equals itself, which a [nan] alone does not.  Two
    dictionaries are equal when they bind the same keys to equal values,
    in whatever order. *)
Fixpoint value_eqb (a b : value) : bool :=
  match a, b with
  | VNone, VNone => true
  | VBool x, VBool y => Bool.eqb x y
  | VBool x, VInt n | VInt n, VBool x => Z.eqb n (Z_of_bool x)
  | VInt x, VInt y => Z.eqb x y
  | VFloat x, VFloat y => float_eqb x y
  | VFloat x, VInt n | VInt n, VFloat x => float_eqb x (float_of_Z n)
  | VFloat x, VBool b | VBool b, VFloat x => float_eqb x (float_of_Z (Z_of_bool b))
  | VStr x, VStr y => bool_decide (x = y)
  | VList l1, VList l2 =>
      (fix go (l1 l2 : list value) : bool :=
         match l1, l2 with
         | [], [] => true
         | x :: l1', y :: l2' =>
             (is_nan x && is_nan y || value_eqb x y) && go l1' l2'
         | _, _ => false
         end) l1 l2
  | VDict d1, VDict d2 =>
      forallb (fun kv1 =>
                 existsb (fun kv2 => bool_decide (kv1.1 = kv2.1)
                                     && (is_nan kv1.2 && is_nan kv2.2
                                         || value_eqb kv1.2 kv2.2)) d2) d1
      && forallb (fun kv2 =>
                    existsb (fun kv1 => bool_decide (kv1.1 = kv2.1)
                                        && (is_nan kv1.2 && is_nan kv2.2
                                            || value_eqb kv1.2 kv2.2)) d1) d2
  | _, _ => false
  end.

(** [str(n)] for an integer. *)
Definition decimal_Z (n : Z) : str :=
  match n with
  | Zneg p => lit "-" ++ decimal (Pos.to_nat p)
  | _ => decimal (Z.to_nat n)
  end.

Definition hex_digit (n : nat) : ascii :=
  nth n (lit "0123456789abcdef") "0"%char.

(** [repr(s)] for a string: single quotes, unless the string has a single
    quote and no double quote. *)
Definition repr_char (quote c : ascii) : str :=
  if Ascii.eqb c "\" then lit "\\"
  else if Ascii.eqb c quote then ["\"%char; c]
  else if Ascii.eqb c "009" then lit "\t"
  else if Ascii.eqb c "010" then lit "\n"
  else if Ascii.eqb c "013" then lit "\r"
  else if (code c <? 32) || (code c =? 127)
       then lit "\x" ++ [hex_digit (code c / 16); hex_digit (code c mod 16)]
  else [c].

Definition repr_str (s : str) : str :=
  let quote : ascii :=
    if contains (lit "'") s && negb (contains [dquote] s)
    then dquote else "'"%char in
  [quote] ++ flat_map (repr_char quote) s ++ [quote].

(** [repr(x)] for a float. *)
Definition repr_float (x : float) : str :=
  match x with
  | NaN => lit "nan"
  | Inf false => lit "inf"
  | Inf true => lit "-inf"
  | Finite _ repr => repr
  end.

(** [repr(v)]. *)
Fixpoint py_repr (v : value) : str :=
  match v with
  | VNone => lit "None"
  | VBool true => lit "True"
  | VBool false => lit "False"
  | VInt n => decimal_Z n
  | VFloat x => repr_float x
  | VStr s => repr_str s
  | VList l => lit "[" ++ join (lit ", ") (map py_repr l) ++ lit "]"
  | VDict d =>
      lit "{"
      ++ join (lit ", ")
           (map (fun kv => repr_str kv.1 ++ lit ": " ++ py_repr kv.2) d)
      ++ lit "}"
  end.

(** [str(v)], which an f-string applies to the value it formats. *)
Definition py_str (v : value) : str :=
  match v with
  | VStr s => s
  | _ => py_repr v
  end.

(** [json.dumps] escapes every character outside the printable ASCII
    range, the double quote and the backslash. *)
Definition json_char (c : ascii) : str :=
  if Ascii.eqb c dquote then ["\"%char; c]
  else if Ascii.eqb c "\" then lit "\\"
  else if Ascii.eqb c "010" then lit "\n"
  else if Ascii.eqb c "013" then lit "\r"
  else if Ascii.eqb c "009" then lit "\t"
  else if Ascii.eqb c "008" then lit "\b"
  else if Ascii.eqb c "012" then lit "\f"
  else if (code c <? 32) || (126 <? code c)
       then lit "\u00" ++ [hex_digit (code c / 16); hex_digit (code c mod 16)]
  else [c].

Definition json_str (s : str) : str :=
  [dquote] ++ flat_map json_char s ++ [dquote].

(** [json.dumps(x)] for a float: the text of [repr] for a finite one. *)
Definition json_float (x : float) : str :=
  match x with
  | NaN => lit "NaN"
  | Inf false => lit "Infinity"
  | Inf true => lit "-Infinity"
  | Finite _ repr => repr
  end.

(** [json.dumps(v)] with the default separators. *)
Fixpoint json_dumps (v : value) : str :=
  match v with
  | VNone => lit "null"
  | VBool true => lit "true"
  | VBool false => lit "false"
  | VInt n => decimal_Z n
  | VFloat x => json_float x
  | VStr s => json_str s
  | VList l => lit "[" ++ join (lit ", ") (map json_dumps l) ++ lit "]"
  | VDict d =>
      lit "{"
      ++ join (lit ", ")
           (map (fun kv => json_str kv.1 ++ lit ": " ++ json_dumps kv.2) d)
      ++ lit "}"
  end.

End Py.

Export Py.
(** ** The section extractor ([extract-rule-section.py]) *)

Module Extractor.

(** The records that the extractor returns as dictionaries. *)
Record requirement := {
  r_id : str;
  r_requirement : str;
  r_rationale : option str;
  r_impact : option str;
}.

Record antipattern := {
  a_id : str;
  a_antipattern : str;
  a_why : option str;
  a_instead : option str;
}.

Record example := {
  e_id : str;
  e_title : str;
  e_language : str;
  e_code : str;
  e_explanation : str;
}.

(** What the tools take from the libraries they import.

    - [yaml_safe_load] is [yaml.safe_load]; [None] stands for
      [yaml.YAMLError].
    - [requirement_records], [antipattern_records] and [example_records]
      are the loops [for match in re.finditer(pattern, text, re.DOTALL)] of
      [extract_requirements], [extract_antipatterns] and
      [extract_examples]: the records built from the matches of the record
      pattern in the text, in order.  [example_records] takes the example
      type first.
    - [sequence_ratio a b] is [difflib.SequenceMatcher(None, a, b).ratio()].

    The tools import the extractor as module [extract_rule_section]; it is
    the class [RuleExtractor] of [extract-rule-section.py]. *)
Class Library := {
  yaml_safe_load : str -> option value;
  requirement_records : str -> list requirement;
  antipattern_records : str -> list antipattern;
  example_records : str -> str -> list example;
  sequence_ratio : str -> str -> Q;
}.

(** The files under the rules directory, by path. *)
Abbreviation files := (gmap str str).

(** The characters that are special in a pattern of the [re] module.  A
    section name is interpolated into the two patterns of [extract_section]
    as it is, so that [re] reads the name as a pattern.  The development
    reads the names in which [.] is the only special character: there [.]
    stands for any character, the newline too, since both searches are
    made with [re.DOTALL], and every other character stands for itself.
    The other special characters (quantifiers, classes, groups,
    alternation, anchors, escapes) are not given their meaning: the
    statements on names are made for names without them, [wildcard_name],
    or for names without any special character, [literal_name]. *)
Definition regex_special (c : ascii) : bool :=
  contains [c] (lit ".^$*+?{}[]\|()").

Definition literal_name (name : str) : Prop :=
  forallb (fun c => negb (regex_special c)) name = true.

Definition wildcard_name (name : str) : Prop :=
  forallb (fun c => Ascii.eqb c "." || negb (regex_special c)) name = true.

(** A text without [.], which as a pattern matches itself only. *)
Definition plain (p : str) : Prop :=
  forallb (fun c => negb (Ascii.eqb c ".")) p = true.

Definition marker_start (name : str) : str :=
  lit "<!-- EXTRACT:" ++ name ++ lit ":start -->".

Definition marker_end (name : str) : str :=
  lit "<!-- EXTRACT:" ++ name ++ lit ":end -->".

(** The pattern [p], of characters and of [.], matches at the current
    position. *)
Fixpoint matches (p s : str) : bool :=
  match p, s with
  | [], _ => true
  | a :: p', b :: s' => (Ascii.eqb a "." || Ascii.eqb a b) && matches p' s'
  | _ :: _, [] => false
  end.

(** The offset of the first match of such a pattern. *)
Fixpoint search (p s : str) : option nat :=
  if matches p s then Some 0
  else match s with
       | [] => None
       | _ :: s' => S <$> search p s'
       end.

(** [re.search(A(.*?)B, s, re.DOTALL)] for such patterns [A] and [B],
    group 1.  The search is leftmost, so the match starts at the first
    match of [A]; the lazy group then ends at the first match of [B]
    behind it.  When no [B] follows the first [A], none follows a later
    [A] either, and there is no match. *)
Definition search_between (a b s : str) : option str :=
  i ← search a s;
  let rest := drop (i + length a) s in
  j ← search b rest;
  Some (take j rest).

(** [^] under [re.MULTILINE]: the position is the start of the text or
    follows a newline.  [bol] says so for the current position.
    [find_line_start] is the offset of the first occurrence of a text at
    the start of a line, [search_line_start] that of the first match of a
    pattern there. *)
Fixpoint find_line_start (p : str) (bol : bool) (s : str) : option nat :=
  if bol && starts_with p s then Some 0
  else match s with
       | [] => None
       | c :: s' => S <$> find_line_start p (Ascii.eqb c nl) s'
       end.

Fixpoint search_line_start (p : str) (bol : bool) (s : str) : option nat :=
  if bol && matches p s then Some 0
  else match s with
       | [] => None
       | c :: s' => S <$> search_line_start p (Ascii.eqb c nl) s'
       end.

(** The lazy group [(.*?)] before the lookahead [(?=^##|\Z)]: the text up
    to the first line that starts with [##], or up to the end. *)
Fixpoint until_heading (bol : bool) (s : str) : str :=
  match s with
  | [] => []
  | c :: s' =>
      if bol && starts_with (lit "##") s then []
      else c :: until_heading (Ascii.eqb c nl) s'
  end.

(** [re.search(^## NAME\n(.*?)(?=^##|\Z), s, re.MULTILINE | re.DOTALL)],
    group 1.  The group begins behind the newline of the heading line, at
    the start of a line. *)
Definition search_heading (name_upper s : str) : option str :=
  let heading := lit "## " ++ name_upper ++ [nl] in
  i ← search_line_start heading true s;
  Some (until_heading true (drop (i + length heading) s)).

(** The heading line of a section. *)
Definition heading_line (section_name : str) : str :=
  lit "## " ++ replace_char "-" "_" (upper section_name) ++ [nl].

(** The place behind [pre] is the start of a line, for a text that is
    read from the start of a line when [bol] holds. *)
Definition line_start_from (bol : bool) (pre : str) : Prop :=
  (pre = [] /\ bol = true) \/ exists p, pre = p ++ [nl].

(** [RuleExtractor.extract_section], on the content of the rule file. *)
Definition extract_section (content section_name : str) : option str :=
  match search_between (marker_start section_name)
                       (marker_end section_name) content with
  | Some group1 => Some (strip group1)
  | None =>
      let section_name_upper :=
        replace_char "-" "_" (upper section_name) in
      match search_heading section_name_upper content with
      | Some group1 => Some (strip group1)
      | None => None
      end
  end.

(** The heading fallback in the words of the specification: the text
    behind the heading line is taken up to the next top-level heading, a
    line that starts with [## ], or up to the end of the document, and a
    [###] sub-heading inside the section does not end it.  This is what
    the specification says, to be set against [extract_section]. *)
Fixpoint until_top_level_heading (bol : bool) (s : str) : str :=
  match s with
  | [] => []
  | c :: s' =>
      if bol && starts_with (lit "## ") s then []
      else c :: until_top_level_heading (Ascii.eqb c nl) s'
  end.

Definition section_as_stated (content section_name : str) : option str :=
  let heading := heading_line section_name in
  i ← find_line_start heading true content;
  Some (strip (until_top_level_heading true (drop (i + length heading) content))).

(** [if not s] for an optional string: [None] and the empty string are
    false. *)
Definition truthy (o : option str) : bool :=
  match o with
  | Some (_ :: _) => true
  | _ => false
  end.

Section WithLibrary.
Context {lib : Library}.

(** [RuleExtractor._extract_metadata]; the outer [None] is an exception
    of the YAML parser. *)
Definition _extract_metadata (content : str) : option value :=
  if starts_with (lit "---") content then
    match find (lit "---") (drop 3 content) with
    | Some end_marker => yaml_safe_load (take end_marker (drop 3 content))
    | None => Some (VDict [])
    end
  else Some (VDict []).

(** An extractor object: [self.content] and [self.metadata]. *)
Record RuleExtractor := {
  content : str;
  metadata : value;
}.

(** [RuleExtractor(rule_file)]: [None] when the file cannot be read or its
    front matter is not valid YAML. *)
Definition new_extractor (fs : files) (rule_file : str) : option RuleExtractor :=
  text ← fs !! rule_file;
  meta ← _extract_metadata text;
  Some {| content := text; metadata := meta |}.

Definition extract_examples (self : RuleExtractor) (example_type : str) : list example :=
  example_records example_type (content self).

Definition extract_requirements (self : RuleExtractor) : list requirement :=
  let req_section := extract_section (content self) (lit "requirements") in
  let req_section :=
    if truthy req_section then req_section
    else extract_section (content self) (lit "MUST_FOLLOW") in
  match req_section with
  | Some (c :: s) => requirement_records (c :: s)
  | _ => []
  end.

Definition extract_antipatterns (self : RuleExtractor) : list antipattern :=
  let ant_section := extract_section (content self) (lit "antipatterns") in
  let ant_section :=
    if truthy ant_section then ant_section
    else extract_section (content self) (lit "MUST_NOT_DO") in
  match ant_section with
  | Some (c :: s) => antipattern_records (c :: s)
  | _ => []
  end.

(** The result of [extract_all].  Its [patterns] entry, which none of the
    other tools reads, is left out. *)
Record rule_data := {
  d_metadata : value;
  d_rule_summary : option str;
  d_requirements : list requirement;
  d_antipatterns : list antipattern;
  d_good_examples : list example;
  d_bad_examples : list example;
  d_metrics : option str;
  d_automated_checks : option str;
}.

Definition extract_all (self : RuleExtractor) : rule_data :=
  {| d_metadata := metadata self;
     d_rule_summary := extract_section (content self) (lit "RULE_SUMMARY");
     d_requirements := extract_requirements self;
     d_antipatterns := extract_antipatterns self;
     d_good_examples := extract_examples self (lit "good");
     d_bad_examples := extract_examples self (lit "bad");
     d_metrics := extract_section (content self) (lit "metrics");
     d_automated_checks := extract_section (content self) (lit "AUTOMATED_CHECKS") |}.

End WithLibrary.

(** The dictionaries of the records, as they are stored in a bundle. *)
Definition opt_value (o : option str) : value :=
  match o with Some s => VStr s | None => VNone end.

Definition requirement_value (r : requirement) : value :=
  VDict [(lit "id", VStr (r_id r));
         (lit "requirement", VStr (r_requirement r));
         (lit "rationale", opt_value (r_rationale r));
         (lit "impact", opt_value (r_impact r))].

Definition antipattern_value (a : antipattern) : value :=
  VDict [(lit "id", VStr (a_id a));
         (lit "antipattern", VStr (a_antipattern a));
         (lit "why", opt_value (a_why a));
         (lit "instead", opt_value (a_instead a))].

Definition example_value (e : example) : value :=
  VDict [(lit "id", VStr (e_id e));
         (lit "title", VStr (e_title e));
         (lit "language", VStr (e_language e));
         (lit "code", VStr (e_code e));
         (lit "explanation", VStr (e_explanation e))].

End Extractor.

Export Extractor.


(** ** The bundler ([rule-bundler.py]) *)

Module Bundler.

(** An entry of [rules-index.json]. *)
Record rule_info := {
  file_path : str;
  language : str;
  category : str;
  severity : str;
  tags : list str;
  prerequisites : list str;
  summary : str;
}.

(** [self.rules_index['rules']], in the order of the file. *)
Definition rules_index := list (str * rule_info).

(** The context dictionary of [_analyze_task]. *)
Record context := {
  action : str;
  languages : list str;
  categories : list str;
  keywords : list str;
}.

(** [any(word in task_lower for word in words)]. *)
Definition any_in (words : list string) (task_lower : str) : bool :=
  existsb (fun word => contains (lit word) task_lower) words.

Definition language_patterns : list (string * list string) :=
  [("typescript", ["typescript"; "ts"; "tsx"]);
   ("javascript", ["javascript"; "js"; "jsx"]);
   ("python", ["python"; "py"]);
   ("csharp", ["c#"; "csharp"; "dotnet"; ".net"]);
   ("go", ["go"; "golang"]);
   ("java", ["java"]);
   ("ruby", ["ruby"; "rb"])]%string.

Definition category_patterns : list (string * list string) :=
  [("test-naming", ["test"; "testing"; "spec"; "unit test"]);
   ("code-quality", ["quality"; "clean code"; "refactor"; "code review"]);
   ("security", ["security"; "secure"; "vulnerability"; "owasp"]);
   ("git-workflow", ["git"; "commit"; "branch"; "pull request"; "pr"])]%string.

(** The loop over a pattern table: the names whose patterns occur. *)
Definition detect (table : list (string * list string)) (task_lower : str) : list str :=
  map (fun entry => lit entry.1)
      (List.filter (fun entry => any_in entry.2 task_lower) table).

(** [re.findall(r'\b\w{4,}\b', s)]: the maximal runs of word characters
    that have four characters or more. *)
Definition findall_words4 (s : str) : list str :=
  List.filter (fun w => 4 <=? length w) (runs is_word [] s).

Definition stop_words : list str :=
  map lit ["that"; "this"; "with"; "from"; "have"]%string.

Definition _analyze_task (task : str) : context :=
  let task_lower := lower task in
  let action :=
    if any_in ["review"; "check"; "validate"; "audit"]%string task_lower
    then lit "review"
    else if any_in ["generate"; "create"; "write"; "implement"]%string task_lower
    then lit "generate"
    else if any_in ["fix"; "repair"; "correct"; "update"]%string task_lower
    then lit "fix"
    else if any_in ["learn"; "understand"; "explain"]%string task_lower
    then lit "learn"
    else lit "unknown" in
  {| action := action;
     languages := detect language_patterns task_lower;
     categories := detect category_patterns task_lower;
     keywords :=
       List.filter (fun k => negb (bool_decide (k ∈ stop_words)))
                   (findall_words4 task_lower) |}.

(** The score of one rule in [_select_rules_for_context]. *)
Definition rule_score (ctx : context) (rule : rule_info) : nat :=
  (if bool_decide (language rule ∈ languages ctx) then 10
   else if bool_decide (language rule = lit "universal") then 2 else 0)
  + (if bool_decide (category rule ∈ categories ctx) then 8 else 0)
  + 3 * length (List.filter
                  (fun keyword =>
                     contains keyword (lower (join (lit " ") (tags rule))))
                  (keywords ctx)).

(** [_select_rules_for_context].  The result is the list of a Python set;
    [elements] stands for its order, which Python leaves open. *)
Definition _select_rules_for_context (index : rules_index) (ctx : context) : list str :=
  let selected : gset str :=
    list_to_set
      (map fst (List.filter (fun entry => 8 <=? rule_score ctx entry.2) index)) in
  let selected_with_deps : gset str :=
    fold_left
      (fun acc rule_id =>
         match dict_lookup rule_id index with
         | Some rule => acc ∪ list_to_set (prerequisites rule)
         | None => acc
         end)
      (elements selected) selected in
  elements selected_with_deps.

Definition _determine_sections_for_task (task : str) : list str :=
  let task_lower := lower task in
  if contains (lit "review") task_lower || contains (lit "check") task_lower
  then map lit ["RULE_SUMMARY"; "MUST_NOT_DO"; "antipatterns"]%string
  else if contains (lit "generate") task_lower || contains (lit "create") task_lower
  then map lit ["RULE_SUMMARY"; "MUST_FOLLOW"; "requirements"; "good_examples"]%string
  else if contains (lit "fix") task_lower
  then map lit ["RULE_SUMMARY"; "antipatterns"; "good_examples"]%string
  else if contains (lit "learn") task_lower || contains (lit "explain") task_lower
  then map lit ["RULE_SUMMARY"; "CONTEXT_AND_RATIONALE"]%string
  else map lit ["RULE_SUMMARY"; "requirements"; "antipatterns"]%string.

(** [_estimate_tokens]: a quarter of the length of the JSON text. *)
Definition _estimate_tokens (bundle : value) : nat :=
  length (json_dumps bundle) / 4.

Section WithLibrary.
Context {lib : Library}.

(** One round of the loop [for section in sections] of [_build_bundle],
    on [rule_data['sections']]. *)
Definition add_section (extractor : RuleExtractor)
    (sections : list (str * value)) (section : str) : list (str * value) :=
  if bool_decide (section = lit "RULE_SUMMARY") then
    dict_set (lit "summary")
      (opt_value (extract_section (content extractor) (lit "RULE_SUMMARY")))
      sections
  else if bool_decide (section = lit "requirements")
          || bool_decide (section = lit "MUST_FOLLOW") then
    dict_set (lit "requirements")
      (VList (map requirement_value (extract_requirements extractor)))
      sections
  else if bool_decide (section = lit "antipatterns")
          || bool_decide (section = lit "MUST_NOT_DO") then
    dict_set (lit "antipatterns")
      (VList (map antipattern_value (extract_antipatterns extractor)))
      sections
  else if bool_decide (section = lit "good_examples") then
    let examples := extract_examples extractor (lit "good") in
    dict_set (lit "good_examples")
      (VList (map example_value (take 1 examples)))
      sections
  else if bool_decide (section = lit "CONTEXT_AND_RATIONALE") then
    dict_set (lit "context")
      (opt_value (extract_section (content extractor) (lit "CONTEXT_AND_RATIONALE")))
      sections
  else sections.

(** The dictionary [rule_data] of one rule. *)
Definition build_rule_data (rule_id : str) (rule_info : rule_info)
    (extractor : RuleExtractor) (sections : list str) : value :=
  VDict [(lit "metadata",
          VDict [(lit "rule_id", VStr rule_id);
                 (lit "category", VStr (category rule_info));
                 (lit "language", VStr (language rule_info));
                 (lit "severity", VStr (severity rule_info))]);
         (lit "sections", VDict (fold_left (add_section extractor) sections []))].

(** The loop [for rule_id in rule_ids] of [_build_bundle], on
    [bundle['rules']].  A rule that is not in the index, or whose file does
    not exist, is passed over; an exception of the extractor ends the
    call. *)
Fixpoint build_rules (index : rules_index) (fs : files) (sections : list str)
    (rule_ids : list str) (rules : list (str * value)) : option (list (str * value)) :=
  match rule_ids with
  | [] => Some rules
  | rule_id :: rest =>
      match dict_lookup rule_id index with
      | None => build_rules index fs sections rest rules
      | Some rule_info =>
          match fs !! file_path rule_info with
          | None => build_rules index fs sections rest rules
          | Some _ =>
              extractor ← new_extractor fs (file_path rule_info);
              build_rules index fs sections rest
                (dict_set rule_id
                   (build_rule_data rule_id rule_info extractor sections) rules)
          end
      end
  end.

Definition _build_bundle (index : rules_index) (fs : files)
    (rule_ids : list str) (sections : list str) : option value :=
  rules ← build_rules index fs sections rule_ids [];
  Some (VDict [(lit "rules", VDict rules)]).

Definition context_value (ctx : context) : value :=
  VDict [(lit "action", VStr (action ctx));
         (lit "languages", VList (map VStr (languages ctx)));
         (lit "categories", VList (map VStr (categories ctx)));
         (lit "keywords", VList (map VStr (keywords ctx)))].

Definition bundle_for_task (index : rules_index) (fs : files)
    (task_description : str) : option value :=
  let ctx := _analyze_task task_description in
  let selected_rules := _select_rules_for_context index ctx in
  let sections := _determine_sections_for_task task_description in
  bundle ← _build_bundle index fs selected_rules sections;
  match bundle with
  | VDict d =>
      Some (VDict (dict_set (lit "metadata")
                     (VDict [(lit "task", VStr task_description);
                             (lit "context", context_value ctx);
                             (lit "token_estimate",
                              VInt (Z.of_nat (_estimate_tokens bundle)));
                             (lit "rule_count",
                              VInt (Z.of_nat (length selected_rules)))])
                     d))
  | _ => None
  end.

(** [bundle_by_criteria]; an absent argument is [None]. *)
Definition bundle_by_criteria (index : rules_index) (fs : files)
    (language_arg : option str) (categories_arg : option (list str))
    (sections : option (list str)) : option value :=
  let selected_rules :=
    map fst
      (List.filter
         (fun entry =>
            match language_arg with
            | Some (c :: l) => bool_decide (language entry.2 = c :: l)
            | _ => true
            end
            && match categories_arg with
               | Some (c :: cs) => bool_decide (category entry.2 ∈ c :: cs)
               | _ => true
               end)
         index) in
  let sections :=
    match sections with
    | Some (s :: ss) => s :: ss
    | _ => map lit ["RULE_SUMMARY"; "requirements"; "antipatterns"]%string
    end in
  _build_bundle index fs selected_rules sections.

End WithLibrary.

End Bundler.

Export Bundler.

(** ** The optimizer of the bundler ([RuleBundler.optimize_bundle])

    [optimize_bundle] works on dictionary objects in place, so the bundle
    is laid out in a store: a dictionary is an object with an address, and a
    value names a dictionary by its address.  Two values with the same
    address are the same object.  Lists and strings are not changed in place
    by the optimizer; they stay values. *)

Module Optimizer.

Definition loc := nat.

Inductive pyval :=
| PNone
| PBool (b : bool)
| PInt (n : Z)
| PFloat (x : float)
| PStr (s : str)
| PList (l : list pyval)
| PRef (r : loc).

(** A dictionary object and the store of all of them, by address. *)
Definition object := list (str * pyval).
Definition store := list object.

(** A computation on the store that may raise. *)
Definition M (A : Type) : Type := store -> option (A * store).

Definition ret {A} (a : A) : M A := fun h => Some (a, h).
Definition raise {A} : M A := fun _ => None.
Definition bind {A B} (m : M A) (k : A -> M B) : M B :=
  fun h => match m h with
           | Some (a, h') => k a h'
           | None => None
           end.

Notation "'do' x <- m ; k" := (bind m (fun x => k))
  (at level 10, x name, m at level 100, k at level 200).

Definition lift {A} (o : option A) : M A :=
  fun h => match o with Some a => Some (a, h) | None => None end.

(** The dictionary that [p] names; anything else is a [TypeError]. *)
Definition deref (p : pyval) : M object :=
  fun h => match p with
           | PRef r => match h !! r with Some o => Some (o, h) | None => None end
           | _ => None
           end.

Definition assign (p : pyval) (o : object) : M unit :=
  fun h => match p with
           | PRef r => if decide (r < length h) then Some (tt, <[r := o]> h) else None
           | _ => None
           end.

(** A new dictionary object. *)
Definition alloc (o : object) : M pyval :=
  fun h => Some (PRef (length h), h ++ [o]).

(** [p[k]]; a missing key is a [KeyError]. *)
Definition subscript (p : pyval) (k : str) : M pyval :=
  do o <- deref p; lift (dict_lookup k o).

(** [k in p]. *)
Definition has_key (k : str) (p : pyval) : M bool :=
  do o <- deref p; ret (bool_decide (k ∈ dict_keys o)).

(** [del p[k]]. *)
Definition del_key (p : pyval) (k : str) : M unit :=
  do o <- deref p;
  if bool_decide (k ∈ dict_keys o) then assign p (dict_del k o) else raise.

(** [p[k] = v]. *)
Definition set_key (p : pyval) (k : str) (v : pyval) : M unit :=
  do o <- deref p; assign p (dict_set k v o).

(** [len(v)] and [v[:3]] for a list or a string. *)
Definition py_len (v : pyval) : M nat :=
  match v with
  | PList l => ret (length l)
  | PStr s => ret (length s)
  | _ => raise
  end.

Definition slice3 (v : pyval) : M pyval :=
  match v with
  | PList l => ret (PList (take 3 l))
  | PStr s => ret (PStr (take 3 s))
  | _ => raise
  end.

(** What [json.loads] builds from a JSON text with the value [v]: every
    dictionary is a new object. *)
Fixpoint load (v : value) (h : store) : pyval * store :=
  match v with
  | VNone => (PNone, h)
  | VBool b => (PBool b, h)
  | VInt n => (PInt n, h)
  | VFloat x => (PFloat x, h)
  | VStr s => (PStr s, h)
  | VList l =>
      let '(l', h') :=
        (fix go (l : list value) (h : store) : list pyval * store :=
           match l with
           | [] => ([], h)
           | x :: r =>
               let '(x', h1) := load x h in
               let '(r', h2) := go r h1 in
               (x' :: r', h2)
           end) l h in
      (PList l', h')
  | VDict d =>
      let '(d', h') :=
        (fix go (d : list (str * value)) (h : store) : object * store :=
           match d with
           | [] => ([], h)
           | kv :: r =>
               let '(x', h1) := load kv.2 h in
               let '(r', h2) := go r h1 in
               ((kv.1, x') :: r', h2)
           end) d h in
      (PRef (length h'), h' ++ [d'])
  end.

(** The value that [p] stands for in the store [h], as [json.dumps] walks
    it.  [fuel] bounds the depth of the walk through dictionaries; a walk
    that does not end within it is a circular structure. *)
Fixpoint read (fuel : nat) (h : store) {struct fuel} : pyval -> option value :=
  fix walk (p : pyval) : option value :=
    match p with
    | PNone => Some VNone
    | PBool b => Some (VBool b)
    | PInt n => Some (VInt n)
    | PFloat x => Some (VFloat x)
    | PStr s => Some (VStr s)
    | PList l =>
        VList <$>
          (fix go (l : list pyval) : option (list value) :=
             match l with
             | [] => Some []
             | x :: r =>
                 match walk x, go r with
                 | Some x', Some r' => Some (x' :: r')
                 | _, _ => None
                 end
             end) l
    | PRef r =>
        match fuel with
        | 0 => None
        | S fuel' =>
            match h !! r with
            | None => None
            | Some o =>
                VDict <$>
                  (fix go (o : object) : option (list (str * value)) :=
                     match o with
                     | [] => Some []
                     | kv :: r =>
                         match read fuel' h kv.2, go r with
                         | Some x', Some r' => Some ((kv.1, x') :: r')
                         | _, _ => None
                         end
                     end) o
            end
        end
    end.

(** The value of [p]: a walk without a cycle passes through each object
    once at most. *)
Definition snapshot (h : store) (p : pyval) : option value :=
  read (S (length h)) h p.

(** [self._estimate_tokens(bundle)] on the store. *)
Definition estimate_tokens (bundle : pyval) : M nat :=
  fun h => match snapshot h bundle with
           | Some v => Some (_estimate_tokens v, h)
           | None => None
           end.

(** [bundle.copy()]: a new dictionary with the entries of the old one; the
    values of the entries are shared. *)
Definition copy (bundle : pyval) : M pyval :=
  do o <- deref bundle; alloc o.

(** [optimized['rules'][rule_id]['sections']]. *)
Definition sections_of (optimized : pyval) (rule_id : str) : M pyval :=
  do rules <- subscript optimized (lit "rules");
  do rule <- subscript rules rule_id;
  subscript rule (lit "sections").

(** The loops 1 and 2: delete the section [key] rule by rule and return as
    soon as the estimate fits.  [Some r] is the value returned from inside
    the loop, [None] says that the loop ran to its end. *)
Fixpoint drop_sections (key : str) (max_tokens : nat) (optimized : pyval)
    (rule_ids : list str) : M (option pyval) :=
  match rule_ids with
  | [] => ret None
  | rule_id :: rest =>
      do sections <- sections_of optimized rule_id;
      do present <- has_key key sections;
      if present then
        do _ <- del_key sections key;
        do current_tokens <- estimate_tokens optimized;
        if current_tokens <=? max_tokens then ret (Some optimized)
        else drop_sections key max_tokens optimized rest
      else drop_sections key max_tokens optimized rest
  end.

(** The loop 3: every rule keeps its summary and three antipatterns or,
    without antipatterns, three requirements. *)
Fixpoint keep_critical (optimized : pyval) (rule_ids : list str) : M unit :=
  match rule_ids with
  | [] => ret tt
  | rule_id :: rest =>
      do sections <- sections_of optimized rule_id;
      do new_sections <- alloc [];
      do has_summary <- has_key (lit "summary") sections;
      do _ <- (if has_summary then
                 do v <- subscript sections (lit "summary");
                 set_key new_sections (lit "summary") v
               else ret tt);
      do has_ant <- has_key (lit "antipatterns") sections;
      do ant_len <- (if has_ant then
                       do v <- subscript sections (lit "antipatterns"); py_len v
                     else ret 0);
      do has_req <- has_key (lit "requirements") sections;
      do _ <- (if has_ant && (0 <? ant_len) then
                 do v <- subscript sections (lit "antipatterns");
                 do top <- slice3 v;
                 set_key new_sections (lit "antipatterns") top
               else if has_req then
                 do v <- subscript sections (lit "requirements");
                 do top <- slice3 v;
                 set_key new_sections (lit "requirements") top
               else ret tt);
      do rules <- subscript optimized (lit "rules");
      do rule <- subscript rules rule_id;
      do _ <- set_key rule (lit "sections") new_sections;
      keep_critical optimized rest
  end.

(** The keys of [optimized['rules']], over which the three loops run. *)
Definition rule_ids_of (optimized : pyval) : M (list str) :=
  do rules <- subscript optimized (lit "rules");
  do o <- deref rules;
  ret (dict_keys o).

(** [RuleBundler.optimize_bundle].  The shapes of the Bundle data model
    are followed: a dictionary with a dictionary of rules under [rules],
    every rule a dictionary with a dictionary under [sections].  On another
    shape the call raises. *)
Definition optimize_bundle (bundle : pyval) (max_tokens : nat) : M pyval :=
  do current_tokens <- estimate_tokens bundle;
  if current_tokens <=? max_tokens then ret bundle
  else
    do optimized <- copy bundle;
    do ids1 <- rule_ids_of optimized;
    do r1 <- drop_sections (lit "good_examples") max_tokens optimized ids1;
    match r1 with
    | Some r => ret r
    | None =>
        do ids2 <- rule_ids_of optimized;
        do r2 <- drop_sections (lit "context") max_tokens optimized ids2;
        match r2 with
        | Some r => ret r
        | None =>
            do ids3 <- rule_ids_of optimized;
            do _ <- keep_critical optimized ids3;
            ret optimized
        end
    end.

End Optimizer.

Export Optimizer.

(** ** The differ ([rule-diff.py]) *)

Module Differ.

#[global] Instance requirement_eq_dec : EqDecision requirement.
Proof. solve_decision. Defined.

#[global] Instance antipattern_eq_dec : EqDecision antipattern.
Proof. solve_decision. Defined.

(** A dictionary with the keys [added], [removed] and [modified]. *)
Record changes (A B : Type) := {
  added : A;
  removed : A;
  modified : B;
}.
Arguments added {A B}.
Arguments removed {A B}.
Arguments modified {A B}.

(** An entry of [modified] for a requirement or an antipattern; an
    antipattern carries no similarity. *)
Record modification (A S : Type) := {
  m_id : str;
  m_old : A;
  m_new : A;
  m_similarity : S;
}.
Arguments m_id {A S}.
Arguments m_old {A S}.
Arguments m_new {A S}.
Arguments m_similarity {A S}.

Abbreviation metadata_diff :=
  (changes (gmap str value) (gmap str (value * value))).
Abbreviation requirement_diff :=
  (changes (list requirement) (list (modification requirement Q))).
Abbreviation antipattern_diff :=
  (changes (list antipattern) (list (modification antipattern unit))).

(** The counts of [_diff_examples] for one kind of example. *)
Record example_counts := {
  ex_added : Z;
  ex_removed : nat;
  total_before : nat;
  total_after : nat;
}.

Record summary_record := {
  severity_changed : bool;
  category_changed : bool;
  language_changed : bool;
  breaking_changes : list str;
}.

Record diff_result := {
  metadata_changes : metadata_diff;
  requirement_changes : requirement_diff;
  antipattern_changes : antipattern_diff;
  example_changes : example_counts * example_counts;
  diff_summary : summary_record;
}.

(** One round of the loop of [_diff_metadata].  Every key comes from one
    of the two dictionaries. *)
Definition diff_metadata_key (meta1 meta2 : list (str * value))
    (changes : metadata_diff) (key : str) : metadata_diff :=
  match dict_lookup key meta1, dict_lookup key meta2 with
  | None, Some v2 =>
      {| added := <[key := v2]> (added changes);
         removed := removed changes; modified := modified changes |}
  | Some v1, None =>
      {| added := added changes;
         removed := <[key := v1]> (removed changes);
         modified := modified changes |}
  | Some v1, Some v2 =>
      if negb (value_eqb v1 v2) then
        {| added := added changes; removed := removed changes;
           modified := <[key := (v1, v2)]> (modified changes) |}
      else changes
  | None, None => changes
  end.

(** [_diff_metadata].  The loop runs over a Python set, in an order that
    Python leaves open; [elements] stands for it.  Metadata that is not a
    dictionary has no [keys] and raises. *)
Definition _diff_metadata (meta1 meta2 : value) : option metadata_diff :=
  match meta1, meta2 with
  | VDict m1, VDict m2 =>
      let all_keys : gset str :=
        list_to_set (dict_keys m1) ∪ list_to_set (dict_keys m2) in
      Some (fold_left (diff_metadata_key m1 m2) (elements all_keys)
              {| added := ∅; removed := ∅; modified := ∅ |})
  | _, _ => None
  end.

(** [{r['id']: r for r in records}]: of two records with one id the later
    one stays. *)
Definition by_id {A} (id_of : A -> str) (records : list A) : gmap str A :=
  fold_left (fun m r => <[id_of r := r]> m) records ∅.

(** One round of the loop of [_diff_requirements] and of
    [_diff_antipatterns]; [sim] computes the similarity entry of a
    modified record. *)
Definition diff_record_key {A S} `{EqDecision A} (sim : A -> A -> S)
    (by_id1 by_id2 : gmap str A)
    (changes : changes (list A) (list (modification A S))) (key : str)
    : Differ.changes (list A) (list (modification A S)) :=
  match by_id1 !! key, by_id2 !! key with
  | None, Some r2 =>
      {| added := added changes ++ [r2];
         removed := removed changes; modified := modified changes |}
  | Some r1, None =>
      {| added := added changes;
         removed := removed changes ++ [r1];
         modified := modified changes |}
  | Some r1, Some r2 =>
      if bool_decide (r1 <> r2) then
        {| added := added changes; removed := removed changes;
           modified := modified changes
                       ++ [{| m_id := key; m_old := r1; m_new := r2;
                              m_similarity := sim r1 r2 |}] |}
      else changes
  | None, None => changes
  end.

(** The loop runs over a Python set, in an order that Python leaves open
    and that can differ from one call to the next; [elements] stands for
    it.  The three lists that the loop builds are therefore meant as
    collections: what is stated of them does not rest on their order. *)
Definition diff_records {A S} `{EqDecision A} (id_of : A -> str)
    (sim : A -> A -> S) (records1 records2 : list A)
    : changes (list A) (list (modification A S)) :=
  let by_id1 := by_id id_of records1 in
  let by_id2 := by_id id_of records2 in
  fold_left (diff_record_key sim by_id1 by_id2)
    (elements (dom by_id1 ∪ dom by_id2))
    {| added := []; removed := []; modified := [] |}.

(** The counts for one kind of example. *)
Definition count_examples (before after : nat) : example_counts :=
  {| ex_added := Z.of_nat after - Z.of_nat before;
     ex_removed := if before <=? after then 0 else before - after;
     total_before := before;
     total_after := after |}.

(** [meta.get(key)]: [None] for a missing key; metadata that is not a
    dictionary has no [get] and raises. *)
Definition meta_get (meta : value) (key : str) : option value :=
  match meta with
  | VDict m => Some (default VNone (dict_lookup key m))
  | _ => None
  end.

Section WithLibrary.
Context {lib : Library}.

Definition _calculate_similarity (text1 text2 : str) : Q :=
  sequence_ratio text1 text2.

Definition _diff_requirements (reqs1 reqs2 : list requirement) : requirement_diff :=
  diff_records r_id
    (fun r1 r2 => _calculate_similarity (r_requirement r1) (r_requirement r2))
    reqs1 reqs2.

Definition _diff_antipatterns (ants1 ants2 : list antipattern) : antipattern_diff :=
  diff_records a_id (fun _ _ => tt) ants1 ants2.

Definition _diff_examples (data1 data2 : rule_data) : example_counts * example_counts :=
  (count_examples (length (d_good_examples data1)) (length (d_good_examples data2)),
   count_examples (length (d_bad_examples data1)) (length (d_bad_examples data2))).

Definition _generate_summary (data1 data2 : rule_data) : option summary_record :=
  let meta1 := d_metadata data1 in
  let meta2 := d_metadata data2 in
  severity1 ← meta_get meta1 (lit "severity");
  severity2 ← meta_get meta2 (lit "severity");
  category1 ← meta_get meta1 (lit "category");
  category2 ← meta_get meta2 (lit "category");
  language1 ← meta_get meta1 (lit "language");
  language2 ← meta_get meta2 (lit "language");
  let severity_differs := negb (value_eqb severity1 severity2) in
  let language_differs := negb (value_eqb language1 language2) in
  Some {| severity_changed := severity_differs;
          category_changed := negb (value_eqb category1 category2);
          language_changed := language_differs;
          breaking_changes :=
            (if severity_differs then
               [lit "Severity changed from " ++ py_str severity1
                ++ lit " to " ++ py_str severity2]
             else [])
            ++ (if language_differs then
                  [lit "Language changed from " ++ py_str language1
                   ++ lit " to " ++ py_str language2]
                else []) |}.

(** [RuleDiffer.diff_rules]; [None] is an exception. *)
Definition diff_rules (fs : files) (rule1_path rule2_path : str) : option diff_result :=
  extractor1 ← new_extractor fs rule1_path;
  extractor2 ← new_extractor fs rule2_path;
  let data1 := extract_all extractor1 in
  let data2 := extract_all extractor2 in
  metadata_changes ← _diff_metadata (d_metadata data1) (d_metadata data2);
  summary ← _generate_summary data1 data2;
  Some {| metadata_changes := metadata_changes;
          requirement_changes :=
            _diff_requirements (d_requirements data1) (d_requirements data2);
          antipattern_changes :=
            _diff_antipatterns (d_antipatterns data1) (d_antipatterns data2);
          example_changes := _diff_examples data1 data2;
          diff_summary := summary |}.

(** The set of the lower-case words of the requirement texts of a rule. *)
Definition requirement_words (ext : RuleExtractor) : gset str :=
  list_to_set
    (split (lower (join (lit " ") (map r_requirement (extract_requirements ext))))).

(** The body of the [try] of [_calculate_rule_similarity]; [None] is an
    exception raised in it. *)
Definition rule_similarity_body (fs : files) (rule1_path rule2_path : str) : option Q :=
  ext1 ← new_extractor fs rule1_path;
  ext2 ← new_extractor fs rule2_path;
  let set1 := requirement_words ext1 in
  let set2 := requirement_words ext2 in
  if bool_decide (set1 = ∅) && bool_decide (set2 = ∅) then Some 0%Q
  else
    let intersection := size (set1 ∩ set2) in
    let union := size (set1 ∪ set2) in
    Some (if 0 <? union
          then (Z.of_nat intersection # Pos.of_nat union)%Q
          else 0%Q).

(** [RuleDiffer._calculate_rule_similarity]: the bare [except] answers
    every exception with [0.0].  The quotient of the two counts is kept as
    a rational number. *)
Definition _calculate_rule_similarity (fs : files) (rule1_path rule2_path : str) : Q :=
  match rule_similarity_body fs rule1_path rule2_path with
  | Some similarity => similarity
  | None => 0%Q
  end.

(** An entry of the result of [compare_category]. *)
Record comparison := {
  rule1 : str;
  rule2 : str;
  similarity : Q;
  both_severity : bool;
}.

(** The two nested loops of [compare_category]: every rule with every
    later one. *)
Fixpoint compare_pairs (fs : files) (rules : list (str * rule_info)) : list comparison :=
  match rules with
  | [] => []
  | r1 :: rest =>
      map (fun r2 =>
             {| rule1 := r1.1;
                rule2 := r2.1;
                similarity :=
                  _calculate_rule_similarity fs (file_path r1.2) (file_path r2.2);
                both_severity := bool_decide (severity r1.2 = severity r2.2) |})
          rest
      ++ compare_pairs fs rest
  end.

(** [sorted(comparisons, key=..., reverse=True)]: by similarity, highest
    first, entries of one similarity in their old order. *)
Fixpoint insert_desc (c : comparison) (l : list comparison) : list comparison :=
  match l with
  | [] => [c]
  | c' :: l' =>
      if Qle_bool (similarity c') (similarity c)
      then c :: l
      else c' :: insert_desc c l'
  end.

Definition sort_desc (l : list comparison) : list comparison :=
  fold_right insert_desc [] l.

(** [RuleDiffer.compare_category], on the rules of the index. *)
Definition compare_category (index : rules_index) (fs : files)
    (category_arg : str) (language_arg : option str) : list comparison :=
  let rules :=
    List.filter
      (fun entry =>
         bool_decide (category entry.2 = category_arg)
         && match language_arg with
            | None => true
            | Some l => bool_decide (language entry.2 = l)
            end)
      index in
  sort_desc (compare_pairs fs rules).

End WithLibrary.

End Differ.

Export Differ.

(** ** The validator ([validate-rule.py]) *)

Module Validator.

(** The two lists of a [RuleValidator]. *)
Record RuleValidator := {
  errors : list str;
  warnings : list str;
}.

(** [self.warnings.append(msg)]. *)
Definition warn (msg : str) (self : RuleValidator) : RuleValidator :=
  {| errors := errors self; warnings := warnings self ++ [msg] |}.

(** A match of the pattern [before tag \d+ after] at the start of [s]:
    the group [tag \d+] and the length of the match.  The digits are
    taken greedily; a shorter run of digits cannot be followed by [after],
    since what follows it is a digit. *)
Definition match_numbered (before tag after s : str) : option (str * nat) :=
  if starts_with (before ++ tag) s then
    let '(digits, rest) := span_digits (drop (length (before ++ tag)) s) in
    match digits with
    | [] => None
    | _ =>
        if starts_with after rest
        then Some (tag ++ digits,
                   length (before ++ tag) + length digits + length after)
        else None
    end
  else None.

(** [re.findall] for such a pattern: the groups of the matches from left
    to right, which do not overlap.  [skip] counts the characters of the
    current match that are still to be passed. *)
Fixpoint findall_numbered (before tag after : str) (skip : nat) (s : str) : list str :=
  match s with
  | [] => []
  | _ :: s' =>
      match skip with
      | S k => findall_numbered before tag after k s'
      | 0 =>
          match match_numbered before tag after s with
          | Some (group, n) =>
              group :: findall_numbered before tag after (n - 1) s'
          | None => findall_numbered before tag after 0 s'
          end
      end
  end.

(** [re.findall(r'\*\*\[(REQ\d+)\]\*\*', content)] and the like. *)
Definition findall_ids (prefix : str) (content : str) : list str :=
  findall_numbered (lit "**[") prefix (lit "]**") 0 content.

(** [re.findall(r'### (GOOD_EXAMPLE_\d+)', content)] and the like. *)
Definition findall_examples (tag : str) (content : str) : list str :=
  findall_numbered (lit "### ") tag [] 0 content.

(** [re.match(f'{prefix}(\\d+)', id_str)] and [int] of its group. *)
Definition id_number (prefix id_str : str) : option nat :=
  if starts_with prefix id_str then
    match fst (span_digits (drop (length prefix) id_str)) with
    | [] => None
    | digits => Some (int_of_digits digits)
    end
  else None.

(** [numbers.sort()]. *)
Fixpoint insert_sorted (n : nat) (l : list nat) : list nat :=
  match l with
  | [] => [n]
  | m :: l' => if n <=? m then n :: l else m :: insert_sorted n l'
  end.

Definition sort (l : list nat) : list nat := fold_right insert_sorted [] l.

(** The loop [for i, num in enumerate(numbers, 1)]: the first place [i]
    whose number [num] is not [i]. *)
Fixpoint first_mismatch (i : nat) (numbers : list nat) : option (nat * nat) :=
  match numbers with
  | [] => None
  | num :: rest =>
      if bool_decide (num <> i) then Some (i, num)
      else first_mismatch (S i) rest
  end.

Definition sequence_warning (prefix : str) (i num : nat) : str :=
  prefix ++ lit " IDs are not sequential. Expected " ++ prefix ++ decimal03 i
  ++ lit ", found " ++ prefix ++ decimal03 num.

(** The numbers of the ids, sorted. *)
Definition id_numbers (prefix : str) (ids : list str) : list nat :=
  sort (omap (id_number prefix) ids).

Definition _check_sequential_ids (ids : list str) (prefix : str)
    (self : RuleValidator) : RuleValidator :=
  match ids with
  | [] => self
  | _ =>
      match first_mismatch 1 (id_numbers prefix ids) with
      | Some (i, num) => warn (sequence_warning prefix i num) self
      | None => self
      end
  end.

Definition _validate_id_formats (content : str) (self : RuleValidator) : RuleValidator :=
  let req_ids := findall_ids (lit "REQ") content in
  let self := _check_sequential_ids req_ids (lit "REQ") self in
  let ant_ids := findall_ids (lit "ANT") content in
  let self := _check_sequential_ids ant_ids (lit "ANT") self in
  let good_examples := findall_examples (lit "GOOD_EXAMPLE_") content in
  let bad_examples := findall_examples (lit "BAD_EXAMPLE_") content in
  let self :=
    if length good_examples <? 2
    then warn (lit "Should have at least 2 GOOD_EXAMPLE sections") self
    else self in
  if length bad_examples <? 1
  then warn (lit "Should have at least 1 BAD_EXAMPLE section") self
  else self.

(** A match of the pattern [before \d{n} after] at the start of [s]: the
    digits. *)
Definition match_digits (before : str) (n : nat) (after s : str) : option str :=
  if starts_with before s then
    let rest := drop (length before) s in
    let digits := take n rest in
    if bool_decide (length digits = n) && forallb is_digit digits
       && starts_with after (drop n rest)
    then Some digits
    else None
  else None.

(** [re.sub] for such a pattern: every match, from left to right and
    without overlap, is replaced by [repl] of its digits. *)
Fixpoint sub_digits (before : str) (n : nat) (after : str) (repl : str -> str)
    (skip : nat) (s : str) : str :=
  match s with
  | [] => []
  | c :: s' =>
      match skip with
      | S k => sub_digits before n after repl k s'
      | 0 =>
          match match_digits before n after s with
          | Some digits =>
              repl digits
              ++ sub_digits before n after repl
                   (length before + n + length after - 1) s'
          | None => c :: sub_digits before n after repl 0 s'
          end
      end
  end.

(** The two substitutions that pad the ids of one family to three
    digits. *)
Definition pad_ids (prefix : str) (content : str) : str :=
  let content :=
    sub_digits (lit "**[" ++ prefix) 1 (lit "]**")
      (fun d => lit "**[" ++ prefix ++ lit "00" ++ d ++ lit "]**") 0 content in
  sub_digits (lit "**[" ++ prefix) 2 (lit "]**")
    (fun d => lit "**[" ++ prefix ++ lit "0" ++ d ++ lit "]**") 0 content.

(** The substitution that renames the headings of the examples of one
    kind. *)
Definition rename_examples (heading tag : str) (content : str) : str :=
  sub_digits (lit "### " ++ heading ++ lit " ") 1 []
    (fun d => lit "### " ++ tag ++ lit "00" ++ d) 0 content.

(** [re.search(r'\n### (?!MUST_FOLLOW)', content)]: the start of the first
    match. *)
Fixpoint find_next_section (s : str) : option nat :=
  if starts_with (nl :: lit "### ") s
     && negb (starts_with (lit "MUST_FOLLOW") (drop 5 s))
  then Some 0
  else match s with
       | [] => None
       | _ :: s' => S <$> find_next_section s'
       end.

Definition requirements_start : str := lit "<!-- EXTRACT:requirements:start -->".
Definition requirements_end : str := lit "<!-- EXTRACT:requirements:end -->".

(** The part of [fix_common_issues] that adds the extraction markers. *)
Definition add_markers (content : str) : str :=
  if contains (lit "## MUST_FOLLOW") content
     && negb (contains requirements_start content)
  then
    let content :=
      replace (lit "### MUST_FOLLOW" ++ [nl])
              (lit "### MUST_FOLLOW" ++ [nl] ++ requirements_start ++ [nl])
              content in
    match find_next_section content with
    | Some start =>
        take start content ++ requirements_end ++ [nl] ++ drop start content
    | None => content
    end
  else content.

(** The text that [fix_common_issues] computes from the text of the
    file. *)
Definition fixed_content (content : str) : str :=
  let content := pad_ids (lit "REQ") content in
  let content := pad_ids (lit "ANT") content in
  let content := rename_examples (lit "Good Example") (lit "GOOD_EXAMPLE_") content in
  let content := rename_examples (lit "Bad Example") (lit "BAD_EXAMPLE_") content in
  add_markers content.

(** [RuleValidator.fix_common_issues]: the answer and the files after the
    call; [None] when the file cannot be read. *)
Definition fix_common_issues (fs : files) (rule_file : str) : option (bool * files) :=
  original ← fs !! rule_file;
  let content := fixed_content original in
  if bool_decide (content <> original)
  then Some (true, <[rule_file := content]> fs)
  else Some (false, fs).

End Validator.

Export Validator.

(** ** Notions used to state the properties *)





(** Every tagged id of the family in the document, [**[REQ...]**] or
    [**[ANT...]**], has three digits. *)
Definition ids_padded (prefix content : str) : Prop :=
  forall a digits b,
    content = a ++ (lit "**[" ++ prefix) ++ digits ++ lit "]**" ++ b ->
    digits <> [] ->
    forallb is_digit digits = true ->
    length digits = 3.

(** No heading of an example is in the old form, [### Good Example n] or
    [### Bad Example n]. *)
Definition examples_renamed (content : str) : Prop :=
  forall a d b,
    is_digit d = true ->
    content <> a ++ (lit "### Good Example ") ++ [d] ++ b
    /\ content <> a ++ (lit "### Bad Example ") ++ [d] ++ b.

(** The opening marker of the requirements is there wherever the fixer
    would add it, that is, in a document with [## MUST_FOLLOW]. *)
Definition markers_present (content : str) : Prop :=
  occurs (lit "## MUST_FOLLOW") content -> occurs requirements_start content.

(** A document that conforms already. *)
Definition conformant (content : str) : Prop :=
  ids_padded (lit "REQ") content
  /\ ids_padded (lit "ANT") content
  /\ examples_renamed content
  /\ markers_present content.

(** A test on every suffix of a text, to check such properties on a given
    document. *)
Fixpoint all_suffixes (test : str -> bool) (s : str) : bool :=
  test s && match s with
            | [] => true
            | _ :: s' => all_suffixes test s'
            end.

(** A tagged id of the family at the start of the suffix has three
    digits. *)
Definition padded_here (prefix s : str) : bool :=
  match match_numbered (lit "**[") prefix (lit "]**") s with
  | Some (group, _) => length group =? length prefix + 3
  | None => true
  end.

(** The suffix does not begin with a heading in the old form. *)
Definition renamed_here (s : str) : bool :=
  negb (bool_decide (is_Some (match_digits (lit "### Good Example ") 1 [] s)))
  && negb (bool_decide (is_Some (match_digits (lit "### Bad Example ") 1 [] s))).



(** The keys that the sections of a rule in a bundle may have. *)
Definition section_keys : list str :=
  map lit ["summary"; "requirements"; "antipatterns"; "good_examples"; "context"]%string.

(** The section names that [_build_bundle] knows. *)
Definition recognized (section : str) : bool :=
  bool_decide
    (section ∈ map lit ["RULE_SUMMARY"; "requirements"; "MUST_FOLLOW";
                        "antipatterns"; "MUST_NOT_DO"; "good_examples";
                        "CONTEXT_AND_RATIONALE"]%string).

(** The sections of a rule have keys of [section_keys] only, and their
    [good_examples], if there, are a list of one example at most. *)
Definition sections_bounded (sections : list (str * value)) : Prop :=
  (forall key, key ∈ dict_keys sections -> key ∈ section_keys)
  /\ (forall v, dict_lookup (lit "good_examples") sections = Some v ->
                exists examples, v = VList examples /\ length examples <= 1).

(** An entry of [bundle['rules']] with such sections. *)
Definition rule_entry_bounded (rule_data : value) : Prop :=
  exists meta sections,
    rule_data = VDict [(lit "metadata", meta); (lit "sections", VDict sections)]
    /\ sections_bounded sections.

(** The value under a path of keys in nested dictionaries. *)
Fixpoint value_at (path : list string) (v : value) : option value :=
  match path with
  | [] => Some v
  | key :: rest =>
      match v with
      | VDict d => dict_lookup (lit key) d ≫= value_at rest
      | _ => None
      end
  end.

(** ** A library for the examples

    The documents of the examples below are plain: their front matter is
    made of lines [key: word], which YAML reads as a mapping of strings,
    but for the word [.nan], which it reads as the float;
    their requirements and antipatterns take one numbered line each,
    [n. **[ID]** text], without rationale or impact lines; and they have
    no example block with a code fence.  On such documents the libraries
    answer as follows. *)

Module ExampleLibrary.

(** The pieces of [s] between the occurrences of [sep]. *)
Fixpoint split_on (sep : ascii) (cur : str) (s : str) : list str :=
  match s with
  | [] => [rev cur]
  | c :: s' =>
      if Ascii.eqb c sep then rev cur :: split_on sep [] s'
      else split_on sep (c :: cur) s'
  end.

(** A word of the front matter: [.nan], [.NaN] and [.NAN] are the float
    [nan]; the other words of the examples are strings. *)
Definition flat_scalar (word : str) : value :=
  if bool_decide (word ∈ map lit [".nan"; ".NaN"; ".NAN"]%string)
  then VFloat NaN
  else VStr word.

(** One line [key: word] of the front matter. *)
Definition flat_entry (line : str) : option (str * value) :=
  i ← find (lit ": ") line;
  Some (take i line, flat_scalar (strip (drop (i + 2) line))).

(** The mapping of a front matter of such lines; an empty front matter is
    [None]. *)
Definition flat_yaml (text : str) : option value :=
  match omap flat_entry (split_on nl [] text) with
  | [] => Some VNone
  | entries => Some (VDict entries)
  end.

Fixpoint span_word (s : str) : str * str :=
  match s with
  | c :: s' =>
      if is_word c then let '(w, r) := span_word s' in (c :: w, r)
      else ([], s)
  | [] => ([], [])
  end.

(** The id and the text of a line [n. **[ID]** text]. *)
Definition line_record (line : str) : option (str * str) :=
  i ← find (lit "**[") line;
  let '(word, rest) := span_word (drop (i + 3) line) in
  match word with
  | [] => None
  | _ =>
      if starts_with (lit "]** ") rest
      then Some (word, strip (drop 4 rest))
      else None
  end.

Definition line_requirement (line : str) : option requirement :=
  r ← line_record line;
  Some {| r_id := r.1; r_requirement := r.2;
          r_rationale := None; r_impact := None |}.

Definition line_antipattern (line : str) : option antipattern :=
  r ← line_record line;
  Some {| a_id := r.1; a_antipattern := r.2;
          a_why := None; a_instead := None |}.

(** The library on plain documents.  No example block is found in them.
    The similarity ratio of a text with itself is 1; the examples compare
    no other texts, and 0 stands for their ratio. *)
#[export] Instance example_library : Library := {|
  yaml_safe_load := flat_yaml;
  requirement_records := fun text => omap line_requirement (split_on nl [] text);
  antipattern_records := fun text => omap line_antipattern (split_on nl [] text);
  example_records := fun _ _ => [];
  sequence_ratio := fun a b => if bool_decide (a = b) then 1%Q else 0%Q;
|}.

End ExampleLibrary.

(** ** The documents of the examples *)

(** A rule file with front matter. *)
Definition rule_document (severity_word : string) : str :=
  unlines ["---";
           "language: typescript";
           "category: test-naming";
           ("severity: " ++ severity_word)%string;
           "---";
           "## RULE_SUMMARY";
           "Name tests after the behaviour they check.";
           "## MUST_FOLLOW";
           "1. **[REQ001]** Name the unit under test.";
           "2. **[REQ002]** Name the expected behaviour.";
           "## MUST_NOT_DO";
           "1. **[ANT001]** Number the tests."].


(** Two versions of a rule that differ in the severity. *)
Definition rule_files : files :=
  {[ lit "v1/test-naming.md" := rule_document "error";
     lit "v2/test-naming.md" := rule_document "warning" ]}.



(** A document with a marked section under a heading of the same name. *)
Definition marked_document : str :=
  unlines ["## REQUIREMENTS";
           "Overview of the section.";
           "<!-- EXTRACT:requirements:start -->";
           "  1. **[REQ001]** Name the unit under test.  ";
           "<!-- EXTRACT:requirements:end -->";
           "## MUST_NOT_DO"].

(** A document with the marked sections of two names, [setup-py] and
    [setup.py]. *)
Definition dotted_document : str :=
  unlines ["<!-- EXTRACT:setup-py:start -->";
           "Use a build backend.";
           "<!-- EXTRACT:setup-py:end -->";
           "<!-- EXTRACT:setup.py:start -->";
           "List the dependencies.";
           "<!-- EXTRACT:setup.py:end -->"].

(** A section with a sub-heading and no markers. *)
Definition subheading_document : str :=
  unlines ["# Test naming";
           "## REQUIREMENTS";
           "Keep names short.";
           "### Details";
           "More text.";
           "## MUST_NOT_DO";
           "Nothing."].

(** The task of the example. *)
Definition review_task : str := lit "review typescript code for testing issues".

(** A bundle of one rule with a summary and an example, as [json.loads]
    reads it from a bundle file. *)
Definition example_bundle : value :=
  VDict [(lit "rules",
          VDict [(lit "typescript-test-naming",
                  VDict [(lit "metadata",
                          VDict [(lit "rule_id", VStr (lit "typescript-test-naming"));
                                 (lit "category", VStr (lit "test-naming"));
                                 (lit "language", VStr (lit "typescript"));
                                 (lit "severity", VStr (lit "error"))]);
                         (lit "sections",
                          VDict [(lit "summary", VStr (lit "Name tests after behaviour"));
                                 (lit "good_examples",
                                  VList [VDict [(lit "id", VStr (lit "GOOD_EXAMPLE_001"));
                                                (lit "title", VStr (lit "Descriptive name"))]])])])])].

(** The same bundle without the examples. *)
Definition example_bundle_trimmed : value :=
  VDict [(lit "rules",
          VDict [(lit "typescript-test-naming",
                  VDict [(lit "metadata",
                          VDict [(lit "rule_id", VStr (lit "typescript-test-naming"));
                                 (lit "category", VStr (lit "test-naming"));
                                 (lit "language", VStr (lit "typescript"));
                                 (lit "severity", VStr (lit "error"))]);
                         (lit "sections",
                          VDict [(lit "summary", VStr (lit "Name tests after behaviour"))])])])].

(** The ids of the example: [REQ001], [REQ002] and [REQ004]. *)
Definition gap_document : str :=
  unlines ["## MUST_FOLLOW";
           "1. **[REQ001]** Name the unit under test.";
           "2. **[REQ002]** Name the expected behaviour.";
           "3. **[REQ004]** Keep one assertion per test.";
           "### GOOD_EXAMPLE_001: first";
           "### GOOD_EXAMPLE_002: second";
           "### BAD_EXAMPLE_001: third"].


Definition new_validator : RuleValidator := {| errors := []; warnings := [] |}.

(** A rule document in the conformant form. *)
Definition conformant_document : str :=
  unlines ["## RULE_SUMMARY";
           "Name tests after the behaviour they check.";
           "## MUST_FOLLOW";
           "<!-- EXTRACT:requirements:start -->";
           "1. **[REQ001]** Name the unit under test.";
           "2. **[REQ002]** Name the expected behaviour.";
           "<!-- EXTRACT:requirements:end -->";
           "## MUST_NOT_DO";
           "1. **[ANT001]** Number the tests.";
           "### GOOD_EXAMPLE_001: a descriptive name";
           "### GOOD_EXAMPLE_002: a second one";
           "### BAD_EXAMPLE_001: a numbered test"].

(** An index of the two files. *)
Definition example_index : rules_index :=
  [(lit "typescript-test-naming",
    {| file_path := lit "v1/test-naming.md";
       language := lit "typescript";
       category := lit "test-naming";
       severity := lit "error";
       tags := [lit "testing"; lit "naming"];
       prerequisites := [lit "universal-test-naming"];
       summary := lit "Name tests after the behaviour they check." |});
   (lit "universal-test-naming",
    {| file_path := lit "v2/test-naming.md";
       language := lit "universal";
       category := lit "test-naming";
       severity := lit "warning";
       tags := [lit "testing"];
       prerequisites := [];
       summary := lit "Name tests." |})].

(** The bundle of the two rules of the example index, with their
    summaries and requirements. *)
Definition testing_bundle : value :=
  default VNone
    (@_build_bundle ExampleLibrary.example_library example_index rule_files
       [lit "typescript-test-naming"; lit "no-such-rule"; lit "universal-test-naming"]
       [lit "RULE_SUMMARY"; lit "requirements"]).

(** The bundle of the task of the example. *)
Definition review_bundle : value :=
  default VNone
    (@bundle_for_task ExampleLibrary.example_library example_index rule_files
       review_task).

(** The bundle of the rules of the example index for TypeScript. *)
Definition typescript_bundle : value :=
  default VNone
    (@bundle_by_criteria ExampleLibrary.example_library example_index rule_files
       (Some (lit "typescript")) None None).

(** Two versions of the requirements of a rule: the second drops
    [REQ002], rewords [REQ001] and adds [REQ003]. *)
Definition old_requirements : list requirement :=
  [{| r_id := lit "REQ001"; r_requirement := lit "Name the unit under test.";
      r_rationale := None; r_impact := None |};
   {| r_id := lit "REQ002"; r_requirement := lit "Name the expected behaviour.";
      r_rationale := None; r_impact := None |}].

Definition new_requirements : list requirement :=
  [{| r_id := lit "REQ001"; r_requirement := lit "Name the unit.";
      r_rationale := None; r_impact := None |};
   {| r_id := lit "REQ003"; r_requirement := lit "Keep one assertion per test.";
      r_rationale := None; r_impact := None |}].

(** ** The record patterns of the extractor

    The loops [for match in re.finditer(pattern, text, re.DOTALL)] of
    [extract_requirements], [extract_antipatterns], [extract_examples] and
    [extract_patterns], which the class [Library] leaves open, are modelled
    here on the patterns of the source.  With [re.DOTALL] a lazy group
    [(.*?)] grows one character at a time until what follows it in the
    pattern matches; in these patterns what follows is decided by the text
    at the place, so each group ends at the first place that satisfies a
    test. *)

Module Records.

(** The longest prefix of the characters that satisfy [keep] ([\w+],
    [\d+]) and what follows it. *)
Fixpoint span (keep : ascii -> bool) (s : str) : str * str :=
  match s with
  | c :: s' =>
      if keep c then let '(w, r) := span keep s' in (c :: w, r)
      else ([], s)
  | [] => ([], [])
  end.

(** A lazy group: the text before the first place where [stop] holds, and
    the text from that place on.  Every test used below holds at the end
    of the text. *)
Fixpoint lazy_until (stop : str -> bool) (s : str) : str * str :=
  if stop s then ([], s)
  else match s with
       | [] => ([], [])
       | c :: s' => let '(g, r) := lazy_until stop s' in (c :: g, r)
       end.

(** [re.finditer]: the matches from left to right; the search goes on
    behind each match.  [m s] is the match that starts at the beginning of
    [s], with the text left behind it; a match is not empty.  [skip] counts
    the characters of the current match that are still to be passed. *)
Fixpoint finditer {A} (m : str -> option (A * str)) (skip : nat) (s : str) : list A :=
  match s with
  | [] => []
  | _ :: s' =>
      match skip with
      | S k => finditer m k s'
      | 0 =>
          match m s with
          | Some (a, rest) => a :: finditer m (length s - length rest - 1) s'
          | None => finditer m 0 s'
          end
      end
  end.

(** The lookahead [(?=\n\d+\.|\Z)]: the end of the text, or a newline
    with the number of the next item. *)
Definition next_item (s : str) : bool :=
  match s with
  | [] => true
  | c :: r =>
      Ascii.eqb c nl
      && let '(digits, r') := span is_digit r in
         match digits with
         | [] => false
         | _ => starts_with (lit ".") r'
         end
  end.

(** [\*\*\[(\w+)\]\*\* ] at the start of [s]: the id and the text behind
    the match.  The id is the whole run of word characters: a shorter one
    is followed by a word character, not by the bracket. *)
Definition record_header (s : str) : option (str * str) :=
  if starts_with (lit "**[") s then
    let '(word, r) := span is_word (drop 3 s) in
    match word with
    | [] => None
    | _ => if starts_with (lit "]** ") r then Some (word, drop 4 r) else None
    end
  else None.

(** The groups of a match of
    [\*\*\[(\w+)\]\*\* (.*?)(?:L1(.*?))?(?:L2(.*?))?(?=\n\d+\.|\Z)], where
    [L1] is [\n   - Rationale: ] or [\n   - Why: ] and [L2] is
    [\n   - Impact: ] or [\n   - Instead: ].  The text group grows to the
    first place where [L1] or [L2] begins or the lookahead holds.  Once
    [L1] is matched the match succeeds, since the lookahead holds at the
    end of the text, so the engine does not come back to try without it. *)
Definition match_record (l1 l2 : str) (s : str)
    : option ((str * str * option str * option str) * str) :=
  match record_header s with
  | None => None
  | Some (id, p) =>
      let '(g2, q) :=
        lazy_until (fun x => starts_with l1 x || starts_with l2 x || next_item x) p in
      if starts_with l1 q then
        let '(g3, x) :=
          lazy_until (fun x => starts_with l2 x || next_item x)
                     (drop (length l1) q) in
        if starts_with l2 x then
          let '(g4, z) := lazy_until next_item (drop (length l2) x) in
          Some ((id, g2, Some g3, Some g4), z)
        else Some ((id, g2, Some g3, None), x)
      else if starts_with l2 q then
        let '(g4, z) := lazy_until next_item (drop (length l2) q) in
        Some ((id, g2, None, Some g4), z)
      else Some ((id, g2, None, None), q)
  end.

(** [match.group(n).strip() if match.group(n) else None]: a group that
    did not take part and an empty group are both [None]. *)
Definition optional_field (group : option str) : option str :=
  match group with
  | Some (c :: g) => Some (strip (c :: g))
  | _ => None
  end.

Definition rationale_label : str := nl :: lit "   - Rationale: ".
Definition impact_label : str := nl :: lit "   - Impact: ".
Definition why_label : str := nl :: lit "   - Why: ".
Definition instead_label : str := nl :: lit "   - Instead: ".

(** The loop of [extract_requirements] over the text of the section. *)
Definition requirement_matches (text : str) : list requirement :=
  map (fun groups : str * str * option str * option str =>
         {| r_id := groups.1.1.1;
            r_requirement := strip groups.1.1.2;
            r_rationale := optional_field groups.1.2;
            r_impact := optional_field groups.2 |})
      (finditer (match_record rationale_label impact_label) 0 text).

(** The loop of [extract_antipatterns]. *)
Definition antipattern_matches (text : str) : list antipattern :=
  map (fun groups : str * str * option str * option str =>
         {| a_id := groups.1.1.1;
            a_antipattern := strip groups.1.1.2;
            a_why := optional_field groups.1.2;
            a_instead := optional_field groups.2 |})
      (finditer (match_record why_label instead_label) 0 text).

(** [\n```(\w+)\n] at the start of [s]: the language of the fence and the
    text behind the match. *)
Definition fence_header (s : str) : option (str * str) :=
  if starts_with (nl :: lit "```") s then
    let '(word, r) := span is_word (drop 4 s) in
    match word, r with
    | _ :: _, c :: r' => if Ascii.eqb c nl then Some (word, r') else None
    | _, _ => None
    end
  else None.

Definition is_fence (s : str) : bool :=
  match fence_header s with Some _ => true | None => false end.

(** The line that must follow the code of an example of the type. *)
Definition why_line (example_type : str) : str :=
  lit "```" ++ [nl] ++ lit "**Why this is " ++ example_type ++ lit "**: ".

(** A match of
    [### TYPE_EXAMPLE_(\d+): (.*?)\n```(\w+)\n(.*?)```\n\*\*Why this is type\*\*: (.*?)(?=###|\Z)]
    at the start of [s], for an example type without special characters:
    the example and the text behind the match.  The title ends at the
    first fence.  The code ends at the first [why_line] behind it; when
    there is none behind the first fence there is none behind a later
    fence, and nothing matches here. *)
Definition match_example (example_type : str) (s : str) : option (example * str) :=
  let tag := upper example_type ++ lit "_EXAMPLE_" in
  if starts_with (lit "### " ++ tag) s then
    let '(digits, r) := span is_digit (drop (length (lit "### " ++ tag)) s) in
    match digits with
    | [] => None
    | _ =>
        if starts_with (lit ": ") r then
          let '(title, at_fence) := lazy_until is_fence (drop 2 r) in
          match fence_header at_fence with
          | None => None
          | Some (language, code_on) =>
              match find (why_line example_type) code_on with
              | None => None
              | Some i =>
                  let '(explanation, rest) :=
                    lazy_until (fun x => match x with
                                         | [] => true
                                         | _ => starts_with (lit "###") x
                                         end)
                               (drop (i + length (why_line example_type)) code_on) in
                  Some ({| e_id := tag ++ digits;
                           e_title := title;
                           e_language := language;
                           e_code := strip (take i code_on);
                           e_explanation := strip explanation |},
                        rest)
              end
          end
        else None
    end
  else None.

(** The loop of [extract_examples] over the content of the file. *)
Definition example_matches (example_type content : str) : list example :=
  finditer (match_example example_type) 0 content.

(** An entry of [extract_patterns]; [avoid_because] is a key of the
    entries of [bad] only, and only when its group is not empty. *)
Record pattern_entry := {
  p_id : str;
  p_pattern : str;
  p_example : option str;
  p_matches : option str;
  p_avoid_because : option str;
}.

(** An optional group [(?:L(.*?))?] with nothing but optional groups
    behind it, up to the end of the pattern: when [L] begins here the
    group takes part, and its lazy text stays empty, since the rest of the
    pattern matches at once. *)
Definition optional_tail (label : str) (s : str) : option str * str :=
  if starts_with label s then (Some [], drop (length label) s) else (None, s).

(** A match of
    [- \*\*(PATTERN_(GOOD|BAD)_\d+)\*\*: `(.*?)`(?:\n  - Example: (.*?))?(?:\n  - Matches: (.*?))?(?:\n  - Avoid because: (.*?))?]
    at the start of [s], for one of the two kinds: the entry, with [true]
    for [GOOD], and the text behind the match. *)
Definition match_pattern_kind (good : bool) (s : str)
    : option ((bool * pattern_entry) * str) :=
  let tag := lit "PATTERN_" ++ (if good then lit "GOOD" else lit "BAD") ++ lit "_" in
  if starts_with (lit "- **" ++ tag) s then
    let '(digits, r) := span is_digit (drop (length (lit "- **" ++ tag)) s) in
    match digits with
    | [] => None
    | _ =>
        if starts_with (lit "**: `") r then
          match find (lit "`") (drop 5 r) with
          | None => None
          | Some i =>
              let '(g4, r4) := optional_tail (nl :: lit "  - Example: ")
                                 (drop (S i) (drop 5 r)) in
              let '(g5, r5) := optional_tail (nl :: lit "  - Matches: ") r4 in
              let '(g6, r6) := optional_tail (nl :: lit "  - Avoid because: ") r5 in
              Some ((good,
                     {| p_id := tag ++ digits;
                        p_pattern := take i (drop 5 r);
                        p_example := optional_field g4;
                        p_matches := optional_field g5;
                        p_avoid_because :=
                          if good then None else optional_field g6 |}),
                    r6)
          end
        else None
    end
  else None.

Definition match_pattern (s : str) : option ((bool * pattern_entry) * str) :=
  match match_pattern_kind true s with
  | Some m => Some m
  | None => match_pattern_kind false s
  end.

(** [RuleExtractor.extract_patterns]: the entries of [good] and of
    [bad]. *)
Definition extract_patterns (content : str) : list pattern_entry * list pattern_entry :=
  match extract_section content (lit "patterns") with
  | Some (c :: section) =>
      let found := finditer match_pattern 0 (c :: section) in
      (map snd (List.filter fst found),
       map snd (List.filter (fun e => negb e.1) found))
  | _ => ([], [])
  end.

(** The library with these loops, for a YAML parser and a similarity
    ratio. *)
Definition regex_library (yaml : str -> option value) (ratio : str -> str -> Q) : Library :=
  {| yaml_safe_load := yaml;
     requirement_records := requirement_matches;
     antipattern_records := antipattern_matches;
     example_records := example_matches;
     sequence_ratio := ratio |}.

End Records.

Export Records.

(** ** The extraction markers in the validator *)

Module Markers.

(** [self.errors.append(msg)]. *)
Definition error (msg : str) (self : RuleValidator) : RuleValidator :=
  {| errors := errors self ++ [msg]; warnings := warnings self |}.

(** A match of [<!-- EXTRACT:(\w+):(start|end) -->] at the start of [s]:
    the name, [true] for [start], and the text behind the match.  The name
    is the whole run of word characters, since a colon follows it. *)
Definition match_marker (s : str) : option ((str * bool) * str) :=
  if starts_with (lit "<!-- EXTRACT:") s then
    let '(name, r) := span is_word (drop 13 s) in
    match name with
    | [] => None
    | _ =>
        if starts_with (lit ":start -->") r then Some ((name, true), drop 10 r)
        else if starts_with (lit ":end -->") r then Some ((name, false), drop 8 r)
        else None
    end
  else None.

(** [re.findall(r'<!-- EXTRACT:(\w+):(start|end) -->', content)]. *)
Definition findall_markers (content : str) : list (str * bool) :=
  finditer match_marker 0 content.

Definition start_markers (content : str) : gset str :=
  list_to_set (map fst (List.filter snd (findall_markers content))).

Definition end_markers (content : str) : gset str :=
  list_to_set (map fst (List.filter (fun m => negb m.2) (findall_markers content))).

Definition standard_names : gset str :=
  list_to_set (map lit ["requirements"; "antipatterns"; "patterns"; "metrics"]%string).

(** A loop [for marker in markers: if marker not in others: report]; the
    loop runs over a Python set, [elements] stands for its order. *)
Definition report_missing (report : str -> RuleValidator -> RuleValidator)
    (markers others : gset str) (self : RuleValidator) : RuleValidator :=
  fold_left (fun self marker =>
               if bool_decide (marker ∈ others) then self else report marker self)
            (elements markers) self.

Definition _validate_extraction_markers (content : str) (self : RuleValidator)
    : RuleValidator :=
  let start_markers := start_markers content in
  let end_markers := end_markers content in
  let self :=
    report_missing (fun marker => error (lit "Missing end marker for EXTRACT:" ++ marker))
                   start_markers end_markers self in
  let self :=
    report_missing (fun marker => error (lit "Missing start marker for EXTRACT:" ++ marker))
                   end_markers start_markers self in
  report_missing (fun marker => warn (lit "Non-standard extraction marker: " ++ marker))
                 start_markers standard_names self.

End Markers.

Export Markers.

(** ** Further notions *)

(** The text neither begins nor ends with a white space character. *)
Definition no_outer_space (s : str) : Prop :=
  (forall c r, s = c :: r -> is_space c = false)
  /\ (forall r c, s = r ++ [c] -> is_space c = false).

(** The document holds the marker pair of the section: an opening marker
    with a closing marker somewhere behind it. *)
Definition has_marker_pair (doc name : str) : Prop :=
  exists x y z, doc = x ++ marker_start name ++ y ++ marker_end name ++ z.

(** The document holds the heading line of the section at the start of a
    line. *)
Definition has_heading_line (doc name : str) : Prop :=
  exists x y, doc = x ++ heading_line name ++ y /\ line_start_from true x.

(** A document whose requirements stand under a heading of level two,
    [## MUST_FOLLOW], without markers and without a heading
    [### MUST_FOLLOW], and which has a heading of level three further
    on. *)
Definition unmarked_level_two (content : str) : Prop :=
  occurs (lit "## MUST_FOLLOW") content
  /\ ~ occurs requirements_start content
  /\ ~ occurs (lit "### MUST_FOLLOW") content
  /\ occurs (nl :: lit "### ") content.

(** ** Notions for the bundles *)

(** The rule has an entry in the index whose score reaches the
    threshold of [_select_rules_for_context]. *)
Definition selected_by_score (index : rules_index) (ctx : context) (rule_id : str) : Prop :=
  exists rule, (rule_id, rule) ∈ index /\ 8 <= rule_score ctx rule.

(** The rule is in the index and its file exists. *)
Definition available (index : rules_index) (fs : files) (rule_id : str) : Prop :=
  exists info, dict_lookup rule_id index = Some info
               /\ is_Some (fs !! file_path info).

(** The metadata that [_build_bundle] writes for a rule. *)
Definition bundle_metadata (rule_id : str) (info : rule_info) : value :=
  VDict [(lit "rule_id", VStr rule_id);
         (lit "category", VStr (category info));
         (lit "language", VStr (language info));
         (lit "severity", VStr (severity info))].

(** The rule passes the filters of [bundle_by_criteria]: an absent or
    empty language and an absent or empty list of categories filter
    nothing. *)
Definition meets_criteria (language_arg : option str)
    (categories_arg : option (list str)) (info : rule_info) : Prop :=
  match language_arg with
  | Some (c :: l) => language info = c :: l
  | _ => True
  end
  /\ match categories_arg with
     | Some (c :: cs) => category info ∈ c :: cs
     | _ => True
     end.

(** ** Notions for the diffs *)

(** What a diff of metadata holds for a key: the value of a key that only
    the second rule has, the value of a key that only the first rule has,
    and the two values of a key that both have with values that are not
    equal. *)
Definition added_value (meta1 meta2 : list (str * value)) (key : str) : option value :=
  match dict_lookup key meta1 with
  | None => dict_lookup key meta2
  | Some _ => None
  end.

Definition removed_value (meta1 meta2 : list (str * value)) (key : str) : option value :=
  match dict_lookup key meta2 with
  | None => dict_lookup key meta1
  | Some _ => None
  end.

Definition modified_value (meta1 meta2 : list (str * value)) (key : str)
    : option (value * value) :=
  match dict_lookup key meta1, dict_lookup key meta2 with
  | Some v1, Some v2 => if value_eqb v1 v2 then None else Some (v1, v2)
  | _, _ => None
  end.

(** The rules of the index that [compare_category] compares: those of
    the category, and of the language when one is given. *)
Definition rules_of_category (index : rules_index) (category_arg : str)
    (language_arg : option str) : rules_index :=
  List.filter
    (fun entry =>
       bool_decide (category entry.2 = category_arg)
       && match language_arg with
          | None => true
          | Some l => bool_decide (language entry.2 = l)
          end)
    index.

(** A comparison stands before another one in the result. *)
Definition ranks_before (c c' : comparison) : Prop :=
  (similarity c' <= similarity c)%Q.

(** Two lists of changes of records mirror each other: what one adds
    the other removes, and they modify the same ids with the old and the
    new record exchanged.  The lists are compared as collections, in
    whatever order: each is built in the order in which Python walks a
    set, which need not be the same for the two diffs. *)
Definition records_mirrored {A S} (forth back : changes (list A) (list (modification A S)))
    : Prop :=
  added back ≡ₚ removed forth
  /\ removed back ≡ₚ added forth
  /\ map (fun m => (m_id m, m_old m, m_new m)) (modified back)
     ≡ₚ map (fun m => (m_id m, m_new m, m_old m)) (modified forth).

Definition counts_mirrored (forth back : example_counts) : Prop :=
  total_before back = total_after forth
  /\ total_after back = total_before forth
  /\ ex_added back = (- ex_added forth)%Z.

(** The diff of two rules and the diff in the other direction. *)
Definition mirrored (forth back : diff_result) : Prop :=
  added (metadata_changes back) = removed (metadata_changes forth)
  /\ removed (metadata_changes back) = added (metadata_changes forth)
  /\ modified (metadata_changes back) = prod_swap <$> modified (metadata_changes forth)
  /\ records_mirrored (requirement_changes forth) (requirement_changes back)
  /\ records_mirrored (antipattern_changes forth) (antipattern_changes back)
  /\ counts_mirrored (example_changes forth).1 (example_changes back).1
  /\ counts_mirrored (example_changes forth).2 (example_changes back).2
  /\ severity_changed (diff_summary back) = severity_changed (diff_summary forth)
  /\ category_changed (diff_summary back) = category_changed (diff_summary forth)
  /\ language_changed (diff_summary back) = language_changed (diff_summary forth)
  /\ length (breaking_changes (diff_summary back))
     = length (breaking_changes (diff_summary forth)).

(** ** Numbered lists of records *)

(** An entry of a numbered list, [n. **[ID]** text], and a list of such
    entries, one on a line, numbered from [n]. *)
Definition record_line (n : nat) (id text : str) : str :=
  decimal n ++ lit ". " ++ lit "**[" ++ id ++ lit "]** " ++ text.

Fixpoint record_lines (n : nat) (items : list (str * str)) : str :=
  match items with
  | [] => []
  | item :: rest =>
      record_line n item.1 item.2
      ++ match rest with
         | [] => []
         | _ :: _ => nl :: record_lines (S n) rest
         end
  end.

(** The text behind an entry: nothing, or the next entry on a new
    line. *)
Definition entry_tail (tail : str) : Prop :=
  tail = [] \/ exists n r, tail = nl :: decimal n ++ "."%char :: r.

(** An entry with an id of word characters and a text on one line. *)
Definition plain_item (item : str * str) : Prop :=
  item.1 <> [] /\ forallb is_word item.1 = true /\ nl ∉ item.2.

(** A list of three requirements. *)
Definition requirement_items : list (str * str) :=
  [(lit "REQ001", lit "Name the unit under test.");
   (lit "REQ002", lit "Name the expected behaviour. ");
   (lit "REQ003", lit "Keep **[one]** assertion per test.")].

(** An entry whose text is not empty, has no white space at its ends and
    no [<]. *)
Definition clean_item (item : str * str) : Prop :=
  plain_item item /\ item.2 <> [] /\ no_outer_space item.2 /\ "<"%char ∉ item.2.

(** A document with a numbered list between the markers of a section. *)
Definition marked_list (name pre : str) (n : nat) (items : list (str * str))
    (post : str) : str :=
  pre ++ marker_start name ++ [nl] ++ record_lines n items ++ [nl]
  ++ marker_end name ++ post.

(** A list of two entries in the clean form, and the rule file that holds
    it between the markers of the requirements. *)
Definition clean_items : list (str * str) :=
  [(lit "REQ001", lit "Name the unit under test.");
   (lit "REQ002", lit "Name the expected behaviour.")].

Definition marked_rule : RuleExtractor :=
  {| content := marked_list (lit "requirements")
                  (unlines ["## MUST_FOLLOW"]) 1 clean_items
                  (nl :: unlines ["## MUST_NOT_DO"]);
     metadata := VDict [] |}.

(** ** Example blocks *)

(** An example as it is written in a rule file: a heading with the number
    and the title, a fenced block of code, and the line that says why the
    example is good or bad. *)
Record example_block := {
  b_number : str;
  b_title : str;
  b_language : str;
  b_code : str;
  b_explanation : str;
}.

Definition block_text (example_type : str) (b : example_block) : str :=
  (lit "### " ++ upper example_type ++ lit "_EXAMPLE_") ++ b_number b
  ++ lit ": " ++ b_title b
  ++ (nl :: lit "```") ++ b_language b ++ [nl] ++ b_code b
  ++ why_line example_type ++ b_explanation b.

Definition blocks_text (example_type : str) (blocks : list example_block) : str :=
  concat (map (block_text example_type) blocks).

(** A block with a number of digits, a title on one line, a language of
    word characters, code without a backquote and an explanation without
    [#]. *)
Definition plain_block (b : example_block) : Prop :=
  b_number b <> [] /\ forallb is_digit (b_number b) = true
  /\ (nl ∉ b_title b)
  /\ b_language b <> [] /\ forallb is_word (b_language b) = true
  /\ ("`"%char ∉ b_code b)
  /\ ("#"%char ∉ b_explanation b).

(** The text behind a block: nothing, or a heading of level three. *)
Definition block_tail (tail : str) : Prop :=
  tail = [] \/ exists r, tail = lit "###" ++ r.

(** The example that a block stands for. *)
Definition block_example (example_type : str) (b : example_block) : example :=
  {| e_id := upper example_type ++ lit "_EXAMPLE_" ++ b_number b;
     e_title := b_title b;
     e_language := b_language b;
     e_code := strip (b_code b);
     e_explanation := strip (b_explanation b) |}.

(** Two good examples. *)
Definition good_blocks : list example_block :=
  [{| b_number := lit "001"; b_title := lit "Descriptive name";
      b_language := lit "typescript";
      b_code := unlines ["it('rejects an empty cart', () => {});"];
      b_explanation := unlines ["The name states the behaviour."; ""] |};
   {| b_number := lit "002"; b_title := lit "Named unit";
      b_language := lit "typescript";
      b_code := unlines ["describe('Cart', () => {});"];
      b_explanation := unlines ["The unit under test is named."] |}].

(** ** The check of the content structure *)

Module Structure.

(** [re.search] for a pattern [before tag \d+ after]: whether it matches
    somewhere. *)
Fixpoint search_numbered (before tag after : str) (s : str) : bool :=
  match match_numbered before tag after s with
  | Some _ => true
  | None =>
      match s with
      | [] => false
      | _ :: s' => search_numbered before tag after s'
      end
  end.

(** The check that a section uses ids of its family: for a document with
    the heading of the section and without that heading at level three,
    a warning unless some id of the family is tagged. *)
Definition check_id_format (heading prefix warning : str) (content : str)
    (self : RuleValidator) : RuleValidator :=
  if contains (lit "## " ++ heading) content
     && negb (contains (lit "### " ++ heading) content)
  then
    if negb (search_numbered (lit "**[") prefix (lit "]**") content)
    then warn warning self
    else self
  else self.

(** [RuleValidator._validate_content_structure]; [required_sections] is
    the list that the content schema gives under that name. *)
Definition _validate_content_structure (required_sections : list str)
    (content : str) (self : RuleValidator) : RuleValidator :=
  let self :=
    fold_left
      (fun self section =>
         if negb (contains (lit "## " ++ section) content)
         then error (lit "Missing required section: " ++ section) self
         else self)
      required_sections self in
  let self :=
    check_id_format (lit "MUST_FOLLOW") (lit "REQ")
      (lit "MUST_FOLLOW section should use REQ### format") content self in
  check_id_format (lit "MUST_NOT_DO") (lit "ANT")
    (lit "MUST_NOT_DO section should use ANT### format") content self.

End Structure.

Export Structure.

(** Some id of the family is tagged in the document: [**[REQn]**] or
    [**[ANTn]**] with one digit or more. *)
Definition tagged_id (prefix content : str) : Prop :=
  exists a digits b,
    content = a ++ (lit "**[" ++ prefix) ++ digits ++ lit "]**" ++ b
    /\ digits <> [] /\ forallb is_digit digits = true.

(** The warning of a section is due: the document has the heading of the
    section, does not have it at level three, and tags no id of the
    family. *)
Definition format_warning_due (heading prefix content : str) : Prop :=
  occurs (lit "## " ++ heading) content
  /\ ~ occurs (lit "### " ++ heading) content
  /\ ~ tagged_id prefix content.

(** ** The quick start ([examples/llm-quickstart.py]) *)

Module QuickStart.

Record violation := {
  violation_id : str;
  message : str;
  suggestion : option str;
}.

(** The answer of [check_test_naming]: the dictionary with [error], or
    the dictionary with [compliant] and [violations]. *)
Inductive response :=
| NotFound (error : str)
| Checked (compliant : bool) (violations : list violation).

(** The path of the rule that [check_test_naming] reads, under the rules
    directory. *)
Definition naming_rule (language : str) : str :=
  language ++ lit "/test-naming/jest-react-testing-library.md".

Section WithLibrary.
Context {lib : Library}.

(** [check_test_naming] of [example_6_api_pattern]; [None] is an
    exception of the extractor. *)
Definition check_test_naming (fs : files) (code language : str) : option response :=
  let rule_path := naming_rule language in
  match fs !! rule_path with
  | None => Some (NotFound (lit "Rule not found"))
  | Some _ =>
      extractor ← new_extractor fs rule_path;
      let antipatterns := extract_antipatterns extractor in
      let violations :=
        omap (fun pattern =>
                if bool_decide (a_id pattern = lit "ANT001")
                   && contains (lit "should") code
                then Some {| violation_id := a_id pattern;
                             message := a_antipattern pattern;
                             suggestion := a_instead pattern |}
                else None)
             antipatterns in
      Some (Checked (length violations =? 0) violations)
  end.

End WithLibrary.

End QuickStart.

Export QuickStart.

(** * Properties *)

(** ** Strings *)

Lemma starts_with_spec (p s : str) :
  starts_with p s = true <-> exists r, s = p ++ r.
Proof.
  revert s. induction p as [|a p IH]; intros s; simpl.
  - split; [intros _; by exists s | done].
  - destruct s as [|b s].
    + split; [done | intros [r Hr]; discriminate].
    + rewrite andb_true_iff, Ascii.eqb_eq, IH. split.
      * intros [-> [r ->]]. by exists r.
      * intros [r Hr]. injection Hr as -> ->. eauto.
Qed.

Lemma starts_with_app (p r : str) : starts_with p (p ++ r) = true.
Proof. apply starts_with_spec. by exists r. Qed.

Lemma starts_with_false (p s : str) :
  starts_with p s = false <-> ~ exists r, s = p ++ r.
Proof.
  rewrite <- starts_with_spec. destruct (starts_with p s); naive_solver.
Qed.

#[global] Arguments starts_with : simpl never.
#[global] Arguments lit : simpl never.

(** [find] answers with the first occurrence. *)
Lemma find_Some (p s : str) (i : nat) :
  find p s = Some i ->
  exists a b, s = a ++ p ++ b /\ length a = i
              /\ forall a' b', s = a' ++ p ++ b' -> i <= length a'.
Proof.
  revert i. induction s as [|c s IH]; intros i; simpl.
  - destruct (starts_with p []) eqn:E; [|done].
    intros [= <-]. apply starts_with_spec in E as [r Hr].
    exists [], r. split_and!; [done | done | intros; lia].
  - destruct (starts_with p (c :: s)) eqn:E.
    + intros [= <-]. apply starts_with_spec in E as [r Hr].
      exists [], r. split_and!; [done | done | intros; lia].
    + destruct (find p s) as [j|] eqn:F; [|done].
      intros [= <-]. destruct (IH j eq_refl) as (a & b & -> & <- & Hmin).
      exists (c :: a), b. split_and!; [done | done |].
      intros a' b' Heq. destruct a' as [|c' a']; simpl in *.
      * apply starts_with_false in E. destruct E. by exists b'.
      * injection Heq as -> Heq. apply Hmin in Heq. lia.
Qed.

Lemma find_None (p s : str) : find p s = None -> ~ occurs p s.
Proof.
  induction s as [|c s IH]; simpl.
  - destruct (starts_with p []) eqn:E; [done|]. intros _ (a & b & Heq).
    apply starts_with_false in E. destruct E.
    destruct a; [by exists b | done].
  - destruct (starts_with p (c :: s)) eqn:E; [done|].
    destruct (find p s) eqn:F; [done|]. intros _ (a & b & Heq).
    destruct a as [|c' a]; simpl in *.
    + apply starts_with_false in E. destruct E. by exists b.
    + injection Heq as -> Heq. apply IH; [done|]. by exists a, b.
Qed.

Lemma find_occurs (p s : str) : occurs p s -> exists i, find p s = Some i.
Proof.
  intros H. destruct (find p s) eqn:F; [eauto|]. by apply find_None in F.
Qed.

Lemma contains_occurs (p s : str) : contains p s = true <-> occurs p s.
Proof.
  unfold contains. split.
  - destruct (find p s) eqn:F; [|done]. intros _.
    apply find_Some in F as (a & b & -> & _). by exists a, b.
  - intros [i ->]%find_occurs. done.
Qed.


(** ** White space *)

Lemma lstrip_head (s : str) (c : ascii) (r : str) :
  lstrip s = c :: r -> is_space c = false.
Proof.
  induction s as [|d s IH]; simpl; [done|].
  destruct (is_space d) eqn:E; [exact IH|]. by intros [= <- <-].
Qed.

Lemma lstrip_fixed (s : str) :
  (forall c r, s = c :: r -> is_space c = false) -> lstrip s = s.
Proof.
  destruct s as [|c s]; [done|]. intros H. simpl. by rewrite (H c s eq_refl).
Qed.

(** [lstrip] takes white space from the front. *)
Lemma lstrip_split (s : str) :
  exists p, s = p ++ lstrip s /\ forallb is_space p = true.
Proof.
  induction s as [|c s (p & IH & Hp)]; simpl; [by exists []|].
  destruct (is_space c) eqn:E; [|by exists []].
  exists (c :: p). simpl. rewrite E, Hp. split; [by rewrite <- IH | done].
Qed.

Lemma lstrip_suffix (s : str) : exists p, s = p ++ lstrip s.
Proof. destruct (lstrip_split s) as (p & H & _). by exists p. Qed.

Lemma forallb_rev {A} (f : A -> bool) (l : list A) :
  forallb f (rev l) = forallb f l.
Proof.
  apply eq_true_iff_eq. rewrite !forallb_forall. split; intros H x Hx; apply H.
  - by apply in_rev in Hx.
  - by apply in_rev.
Qed.

(** [strip] takes white space from the two ends. *)
Lemma strip_split (s : str) :
  exists lead trail,
    s = lead ++ strip s ++ trail
    /\ forallb is_space lead = true
    /\ forallb is_space trail = true.
Proof.
  destruct (lstrip_split s) as (lead & Hs & Hlead).
  destruct (lstrip_split (rev (lstrip s))) as (p & Hr & Hp).
  exists lead, (rev p). split_and!; [|done | by rewrite forallb_rev].
  unfold strip, rstrip. rewrite Hs at 1. f_equal.
  apply (f_equal (@rev ascii)) in Hr.
  by rewrite rev_involutive, rev_app_distr in Hr.
Qed.

(** What [strip] answers has no white space at either end. *)
Lemma strip_no_outer_space (s : str) : no_outer_space (strip s).
Proof.
  unfold strip, rstrip. split.
  - intros c r Heq.
    destruct (lstrip_suffix (rev (lstrip s))) as [p Hp].
    apply (f_equal (@rev ascii)) in Hp.
    rewrite rev_involutive, rev_app_distr, Heq in Hp.
    apply (lstrip_head s c (r ++ rev p)). by rewrite Hp.
  - intros r c Heq. apply (f_equal (@rev ascii)) in Heq.
    rewrite rev_involutive, rev_app_distr in Heq. simpl in Heq.
    by eapply lstrip_head.
Qed.

Lemma strip_fixed (s : str) : no_outer_space s -> strip s = s.
Proof.
  intros [Hhead Hlast]. unfold strip, rstrip.
  rewrite (lstrip_fixed s Hhead), lstrip_fixed; [apply rev_involutive|].
  intros c r Heq. apply (Hlast (rev r) c).
  apply (f_equal (@rev ascii)) in Heq. by rewrite rev_involutive in Heq.
Qed.

Lemma strip_idempotent (s : str) : strip (strip s) = strip s.
Proof. apply strip_fixed, strip_no_outer_space. Qed.

(** ** Patterns *)

Lemma matches_plain (p s : str) : plain p -> matches p s = starts_with p s.
Proof.
  unfold plain. revert s. induction p as [|a p IH]; intros s; [done|].
  cbn [forallb]. intros [Ha Hp]%andb_true_iff.
  destruct s as [|b s]; [done|]. cbn [matches].
  change (starts_with (a :: p) (b :: s)) with (Ascii.eqb a b && starts_with p s).
  apply negb_true_iff in Ha. by rewrite Ha, IH.
Qed.

Lemma search_plain (p s : str) : plain p -> search p s = find p s.
Proof.
  intros Hp. induction s as [|c s IH]; simpl; rewrite matches_plain by done.
  - done.
  - by rewrite IH.
Qed.

Lemma search_line_start_plain (p : str) (bol : bool) (s : str) :
  plain p -> search_line_start p bol s = find_line_start p bol s.
Proof.
  intros Hp. revert bol. induction s as [|c s IH]; intros bol; simpl;
    rewrite matches_plain by done.
  - done.
  - by rewrite IH.
Qed.

Lemma plain_app (p q : str) : plain (p ++ q) <-> plain p /\ plain q.
Proof. unfold plain. by rewrite forallb_app, andb_true_iff. Qed.

Lemma literal_name_plain (name : str) : literal_name name -> plain name.
Proof.
  unfold literal_name, plain. rewrite !forallb_forall. intros H c Hc.
  specialize (H c Hc). destruct (Ascii.eqb c ".") eqn:E; [|done].
  apply Ascii.eqb_eq in E. by subst c.
Qed.

Lemma marker_start_plain (name : str) : literal_name name -> plain (marker_start name).
Proof.
  intros H%literal_name_plain. unfold marker_start.
  rewrite !plain_app. by split_and!.
Qed.

Lemma marker_end_plain (name : str) : literal_name name -> plain (marker_end name).
Proof.
  intros H%literal_name_plain. unfold marker_end.
  rewrite !plain_app. by split_and!.
Qed.

Lemma upper_char_dot (c : ascii) : Ascii.eqb (upper_char c) "." = Ascii.eqb c ".".
Proof. by destruct c as [[] [] [] [] [] [] [] []]. Qed.

(** The heading of a section is plain when its name is. *)
Lemma heading_plain (name : str) :
  literal_name name ->
  plain (lit "## " ++ replace_char "-" "_" (upper name) ++ [nl]).
Proof.
  intros H%literal_name_plain. rewrite !plain_app. split_and!; [done | | done].
  unfold plain, replace_char, upper in *. rewrite !forallb_forall in *.
  intros c (c1 & <- & (c0 & <- & Hc0)%in_map_iff)%in_map_iff.
  specialize (H c0 Hc0). rewrite <- upper_char_dot in H.
  by destruct (Ascii.eqb (upper_char c0) "-").
Qed.

(** ** Decimal numbers *)

Lemma string_of_uint_digits (d : Decimal.uint) :
  forallb is_digit (lit (NilEmpty.string_of_uint d)) = true.
Proof. unfold lit. induction d; simpl; done. Qed.

Lemma int_of_digits_acc (d : Decimal.uint) (acc : nat) :
  fold_left (fun acc c => 10 * acc + (code c - 48))
            (lit (NilEmpty.string_of_uint d)) acc
  = Nat.of_uint_acc d acc.
Proof.
  set (f := fun acc c => 10 * acc + (code c - 48)).
  unfold lit. revert acc.
  induction d as [|d IH|d IH|d IH|d IH|d IH|d IH|d IH|d IH|d IH|d IH]; intros acc;
    [done|..];
    cbn [NilEmpty.string_of_uint list_ascii_of_string fold_left Nat.of_uint_acc];
    rewrite IH, Nat.tail_mul_spec; f_equal; unfold f;
    match goal with
    | |- context [code ?c] =>
        let v := eval vm_compute in (code c) in change (code c) with v
    end; lia.
Qed.

Lemma decimal_digits (n : nat) : forallb is_digit (decimal n) = true.
Proof. apply string_of_uint_digits. Qed.

(** [int(str(n))] is [n]. *)
Lemma int_of_digits_decimal (n : nat) : int_of_digits (decimal n) = n.
Proof.
  unfold int_of_digits, decimal. rewrite int_of_digits_acc.
  apply (DecimalNat.Unsigned.of_to n).
Qed.

Lemma decimal_nonempty (n : nat) : decimal n <> [].
Proof.
  unfold decimal. destruct (Nat.to_uint n) eqn:E; try done.
  pose proof (DecimalNat.Unsigned.of_to n) as H. rewrite E in H.
  cbn in H. subst n. discriminate E.
Qed.

Lemma int_of_digits_zeros (k : nat) (s : str) :
  int_of_digits (replicate k "0"%char ++ s) = int_of_digits s.
Proof.
  unfold int_of_digits. rewrite fold_left_app. f_equal.
  induction k as [|k IH]; [done|]. exact IH.
Qed.

Lemma span_digits_all (digits : str) :
  forallb is_digit digits = true -> span_digits digits = (digits, []).
Proof.
  induction digits as [|d digits IH]; [done|].
  simpl. intros [Hd Hdig]%andb_true_iff. by rewrite Hd, (IH Hdig).
Qed.

Lemma decimal03_digits (n : nat) : forallb is_digit (decimal03 n) = true.
Proof.
  unfold decimal03. rewrite forallb_app, decimal_digits, andb_true_r.
  by induction (3 - length (decimal n)).
Qed.

Lemma decimal03_nonempty (n : nat) : decimal03 n <> [].
Proof.
  unfold decimal03. intros [_ H]%app_eq_nil. by apply decimal_nonempty in H.
Qed.


(** ** The section extractor *)

(** The marker search finds the first opening marker and the first
    closing marker behind it, whenever some pair is there. *)
Lemma search_between_pair (a b s : str) :
  plain a -> plain b ->
  (exists x y z, s = x ++ a ++ y ++ b ++ z) ->
  exists pre body post,
    s = pre ++ a ++ body ++ b ++ post
    /\ (forall x r, s = x ++ a ++ r -> length pre <= length x)
    /\ (forall y r, body ++ b ++ post = y ++ b ++ r -> length body <= length y)
    /\ search_between a b s = Some body.
Proof.
  intros Ha Hb' (x & y & z & Hs).
  destruct (find_occurs a s) as [i Hi]; [by exists x, (y ++ b ++ z)|].
  destruct (find_Some _ _ _ Hi) as (pre & rest & Hpre & Hlen & Hmin).
  assert (Hdrop : drop (i + length a) s = rest).
  { rewrite Hpre, <- Hlen, app_assoc, <- length_app. apply drop_app_length. }
  assert (Hb : occurs b rest).
  { assert (Hle : length pre <= length x).
    { rewrite Hlen. eapply Hmin. exact Hs. }
    rewrite <- Hdrop, Hs, <- Hlen.
    exists (drop (length pre + length a) (x ++ a) ++ y), z.
    replace (x ++ a ++ y ++ b ++ z) with ((x ++ a) ++ (y ++ b ++ z))
      by (by rewrite <- !app_assoc).
    rewrite drop_app_le by (rewrite length_app; lia).
    by rewrite <- !app_assoc. }
  destruct (find_occurs b rest Hb) as [j Hj].
  destruct (find_Some _ _ _ Hj) as (body & post & Hrest & Hlenb & Hminb).
  exists pre, body, post. split_and!.
  - by rewrite Hpre, Hrest.
  - intros x' r' Hx. rewrite Hlen. by eapply Hmin.
  - intros y' r' Hy. rewrite Hlenb. eapply Hminb. by rewrite Hrest.
  - unfold search_between. rewrite search_plain, Hi by done. simpl.
    rewrite Hdrop, search_plain, Hj by done. simpl.
    by rewrite Hrest, <- Hlenb, take_app_length.
Qed.

Lemma search_between_None (a b s : str) :
  plain a -> ~ occurs a s -> search_between a b s = None.
Proof.
  intros Ha Hno. unfold search_between. rewrite search_plain by done.
  destruct (find a s) as [i|] eqn:Hi; [|done].
  destruct Hno. apply find_Some in Hi as (x & y & -> & _). by exists x, y.
Qed.

Lemma line_start_from_cons (bol : bool) (c : ascii) (a : str) :
  line_start_from bol (c :: a) <-> line_start_from (Ascii.eqb c nl) a.
Proof.
  unfold line_start_from. split.
  - intros [[? _]|[p Hp]]; [done|].
    destruct a as [|d a].
    + left. split; [done|]. apply Ascii.eqb_eq.
      destruct p as [|? [|? ?]]; by simplify_eq/=.
    + right. destruct p as [|e p]; simplify_eq/=. by exists p.
  - intros [[-> Hc]|[p ->]]; right.
    + apply Ascii.eqb_eq in Hc as ->. by exists [].
    + by exists (c :: p).
Qed.

Lemma line_start_from_app (x h a : str) :
  line_start_from true (x ++ (h ++ [nl]) ++ a) <-> line_start_from true a.
Proof.
  unfold line_start_from. split.
  - intros [[H _]|[p Hp]].
    + by destruct x, h.
    + destruct a as [|c a _] using rev_ind; [by left | right].
      rewrite !app_assoc in Hp. apply app_inj_tail in Hp as [_ ->]. by exists a.
  - intros [[-> _]|[p ->]]; right.
    + exists (x ++ h). by rewrite app_nil_r, app_assoc.
    + exists (x ++ (h ++ [nl]) ++ p). by rewrite <- !app_assoc.
Qed.

Lemma find_line_start_Some (p : str) (bol : bool) (s : str) (i : nat) :
  find_line_start p bol s = Some i ->
  exists a b, s = a ++ p ++ b /\ length a = i /\ line_start_from bol a
              /\ forall a' b', s = a' ++ p ++ b' -> line_start_from bol a' ->
                               i <= length a'.
Proof.
  revert bol i. induction s as [|c s IH]; intros bol i; simpl.
  - destruct (bol && starts_with p []) eqn:E; [|done].
    apply andb_true_iff in E as [-> [r Hr]%starts_with_spec]. intros [= <-].
    exists [], r. split_and!; [done | done | by left | intros; lia].
  - destruct (bol && starts_with p (c :: s)) eqn:E.
    + apply andb_true_iff in E as [-> [r Hr]%starts_with_spec]. intros [= <-].
      exists [], r. split_and!; [done | done | by left | intros; lia].
    + destruct (find_line_start p (Ascii.eqb c nl) s) as [j|] eqn:F; [|done].
      intros [= <-]. destruct (IH _ _ F) as (a & b & -> & <- & Hls & Hmin).
      exists (c :: a), b. split_and!; [done | done | by apply line_start_from_cons |].
      intros a' b' Heq Hls'. destruct a' as [|c' a']; simpl in *.
      * destruct Hls' as [[_ ->]|[q Hq]]; [|by destruct q].
        simpl in E. apply starts_with_false in E. destruct E. by exists b'.
      * injection Heq as -> Heq. apply line_start_from_cons in Hls'.
        specialize (Hmin _ _ Heq Hls'). lia.
Qed.

Lemma find_line_start_found (p : str) (bol : bool) (s : str) :
  (exists a b, s = a ++ p ++ b /\ line_start_from bol a) ->
  exists i, find_line_start p bol s = Some i.
Proof.
  revert bol. induction s as [|c s IH]; intros bol (a & b & Heq & Hls); simpl.
  - destruct a; [|done]. destruct Hls as [[_ ->]|[q Hq]]; [|by destruct q].
    simpl in *. rewrite (proj2 (starts_with_spec p [])); eauto.
  - destruct (bol && starts_with p (c :: s)) eqn:E; [eauto|].
    destruct a as [|c' a]; simpl in *.
    + destruct Hls as [[_ ->]|[q Hq]]; [|by destruct q].
      simpl in E. apply starts_with_false in E. destruct E. by exists b.
    + injection Heq as -> Heq. apply line_start_from_cons in Hls.
      destruct (IH (Ascii.eqb c' nl)) as [j ->]; eauto.
Qed.

Lemma until_heading_cons (bol : bool) (c : ascii) (s : str) :
  until_heading bol (c :: s)
  = if bol && starts_with (lit "##") (c :: s) then []
    else c :: until_heading (Ascii.eqb c nl) s.
Proof. reflexivity. Qed.

(** The lazy group before the lookahead ends at the first line that
    starts with [##], or at the end of the text. *)
Lemma until_heading_spec (bol : bool) (s : str) :
  exists rest,
    s = until_heading bol s ++ rest
    /\ (rest = []
        \/ (line_start_from bol (until_heading bol s)
            /\ exists r, rest = lit "##" ++ r))
    /\ forall a b, s = a ++ lit "##" ++ b -> line_start_from bol a ->
                   length (until_heading bol s) <= length a.
Proof.
  revert bol. induction s as [|c s IH]; intros bol.
  - exists []. split_and!; [done | by left | simpl; intros; lia].
  - rewrite until_heading_cons.
    destruct (bol && starts_with (lit "##") (c :: s)) eqn:E.
    + apply andb_true_iff in E as [-> [r Hr]%starts_with_spec].
      exists (c :: s). split_and!; [done | | simpl; intros; lia].
      right. split; [by left | by exists r].
    + destruct (IH (Ascii.eqb c nl)) as (rest & Heq & Hrest & Hmin).
      exists rest. split_and!.
      * simpl. by rewrite <- Heq.
      * destruct Hrest as [->|[Hls Hr]]; [by left | right].
        split; [by apply line_start_from_cons | done].
      * intros a b Hab Hls. destruct a as [|c' a]; simpl in *.
        -- destruct Hls as [[_ ->]|[q Hq]]; [|by destruct q].
           rewrite andb_true_l in E.
           apply starts_with_false in E. destruct E. by exists b.
        -- injection Hab as -> Hab. apply line_start_from_cons in Hls.
           specialize (Hmin _ _ Hab Hls). lia.
Qed.

(** An occurrence that is the first one and has no later one is the only
    one. *)
Lemma find_only (p s : str) (i : nat) :
  find p s = Some i -> find p (drop (S i) s) = None ->
  forall x r, s = x ++ p ++ r -> length x = i.
Proof.
  intros Hi Hlater x r Hs.
  destruct (find_Some _ _ _ Hi) as (a & b & Ha & Hlen & Hmin).
  pose proof (Hmin _ _ Hs) as Hle.
  destruct (decide (length x = i)) as [|Hne]; [done|]. exfalso.
  apply find_None in Hlater. apply Hlater.
  exists (drop (S i) x), r. rewrite Hs.
  rewrite drop_app_le by lia. done.
Qed.

Lemma between_only (a b s : str) (i j : nat) :
  find a s = Some i -> find a (drop (S i) s) = None ->
  find b (drop (i + length a) s) = Some j ->
  find b (drop (S j) (drop (i + length a) s)) = None ->
  forall x y z, s = x ++ a ++ y ++ b ++ z -> y = take j (drop (i + length a) s).
Proof.
  intros Hi Hi' Hj Hj' x y z Hs.
  pose proof (find_only a s i Hi Hi' x _ Hs) as Hx.
  assert (Hrest : drop (i + length a) s = y ++ b ++ z).
  { rewrite Hs, <- Hx, app_assoc, <- length_app. apply drop_app_length. }
  rewrite Hrest in Hj, Hj' |- *.
  pose proof (find_only b _ j Hj Hj' y z eq_refl) as Hy.
  by rewrite <- Hy, take_app_length.
Qed.

(** C1, as the code has it.  For a name without special characters: when
    a document holds the marker pair of the section, that is an opening
    marker [<!-- EXTRACT:name:start -->] with a closing marker
    [<!-- EXTRACT:name:end -->] somewhere behind it, [extract_section]
    answers with the text between the first opening marker of the
    document and the first closing marker behind it, without the white
    space at its two ends.  Nothing is asked of the headings of the
    document, so a heading of the same name does not change the answer. *)
Theorem extract_section_marked (doc name : str) :
  literal_name name ->
  (exists x y z,
     doc = x ++ marker_start name ++ y ++ marker_end name ++ z) ->
  exists pre body post lead section trail,
    doc = pre ++ marker_start name ++ body ++ marker_end name ++ post
    /\ (forall x r, doc = x ++ marker_start name ++ r -> length pre <= length x)
    /\ (forall y r, body ++ marker_end name ++ post = y ++ marker_end name ++ r ->
                    length body <= length y)
    /\ body = lead ++ section ++ trail
    /\ forallb is_space lead = true
    /\ forallb is_space trail = true
    /\ no_outer_space section
    /\ extract_section doc name = Some section.
Proof.
  intros Hname Hpair.
  destruct (search_between_pair _ _ _ (marker_start_plain _ Hname)
              (marker_end_plain _ Hname) Hpair)
    as (pre & body & post & H1 & H2 & H3 & H4).
  destruct (strip_split body) as (lead & trail & Hbody & Hlead & Htrail).
  exists pre, body, post, lead, (strip body), trail.
  split_and!; try done; [apply strip_no_outer_space|].
  unfold extract_section. by rewrite H4.
Qed.

Example extract_section_marked_document :
  extract_section marked_document (lit "requirements")
  = Some (lit "1. **[REQ001]** Name the unit under test.").
Proof. reflexivity. Qed.

Lemma extract_section_marked_witness :
  exists pre body post lead section trail,
    marked_document
    = pre ++ marker_start (lit "requirements") ++ body
      ++ marker_end (lit "requirements") ++ post
    /\ (forall x r, marked_document = x ++ marker_start (lit "requirements") ++ r ->
                    length pre <= length x)
    /\ (forall y r, body ++ marker_end (lit "requirements") ++ post
                    = y ++ marker_end (lit "requirements") ++ r ->
                    length body <= length y)
    /\ body = lead ++ section ++ trail
    /\ forallb is_space lead = true
    /\ forallb is_space trail = true
    /\ no_outer_space section
    /\ extract_section marked_document (lit "requirements") = Some section.
Proof.
  apply extract_section_marked.
  - reflexivity.
  - exists (unlines ["## REQUIREMENTS"; "Overview of the section."]),
      (nl :: unlines ["  1. **[REQ001]** Name the unit under test.  "]),
      (nl :: unlines ["## MUST_NOT_DO"]).
    reflexivity.
Defined.

(** C1, as it is stated, fails for a name with a special character.  The
    name goes into the pattern as it is, and the [.] of [setup.py] stands
    for any character there: in this document, which holds the marker pair
    of [setup.py] once, [extract_section] answers with the text between
    the markers of [setup-py], which come first. *)
Lemma extract_section_dotted_name_counterexample :
  wildcard_name (lit "setup.py")
  /\ (exists x z,
        dotted_document
        = x ++ marker_start (lit "setup.py")
            ++ ([nl] ++ lit "List the dependencies." ++ [nl])
            ++ marker_end (lit "setup.py") ++ z)
  /\ (forall x y z,
        dotted_document
        = x ++ marker_start (lit "setup.py") ++ y
            ++ marker_end (lit "setup.py") ++ z ->
        y = [nl] ++ lit "List the dependencies." ++ [nl])
  /\ extract_section dotted_document (lit "setup.py")
     = Some (lit "Use a build backend.")
  /\ extract_section dotted_document (lit "setup.py")
     <> Some (lit "List the dependencies.").
Proof.
  split_and!.
  - reflexivity.
  - exists (unlines ["<!-- EXTRACT:setup-py:start -->"; "Use a build backend.";
                     "<!-- EXTRACT:setup-py:end -->"]), [nl].
    reflexivity.
  - intros x y z Hdoc.
    eapply between_only in Hdoc; [|vm_compute; reflexivity..].
    rewrite Hdoc. vm_compute. reflexivity.
  - reflexivity.
  - discriminate.
Qed.

(** C2, as the code has it.  For a name without special characters: when
    a document has no opening marker of the section and has the heading
    line [## NAME], where [NAME] is the name in upper case with [_] for
    [-], [extract_section] answers with the text behind the first such
    heading line, up to the first later line that starts with [##] or up
    to the end of the document, without the white space at its two ends.
    A line that starts with [##] is a heading of the second level or of a
    deeper one: a [###] line ends the text as well. *)
Theorem extract_section_heading (doc name : str) :
  literal_name name ->
  ~ occurs (marker_start name) doc ->
  (exists x y, doc = x ++ heading_line name ++ y /\ line_start_from true x) ->
  exists pre body rest lead section trail,
    doc = pre ++ heading_line name ++ body ++ rest
    /\ line_start_from true pre
    /\ (forall x y, doc = x ++ heading_line name ++ y -> line_start_from true x ->
                    length pre <= length x)
    /\ (rest = []
        \/ (line_start_from true (pre ++ heading_line name ++ body)
            /\ exists r, rest = lit "##" ++ r))
    /\ (forall a b, body ++ rest = a ++ lit "##" ++ b ->
                    line_start_from true (pre ++ heading_line name ++ a) ->
                    length body <= length a)
    /\ body = lead ++ section ++ trail
    /\ forallb is_space lead = true
    /\ forallb is_space trail = true
    /\ no_outer_space section
    /\ extract_section doc name = Some section.
Proof.
  intros Hname Hno Hhead. pose proof (heading_plain name Hname) as Hplain.
  unfold heading_line in *.
  set (heading := lit "## " ++ replace_char "-" "_" (upper name)) in *.
  destruct (find_line_start_found (heading ++ [nl]) true doc) as [i Hi].
  { destruct Hhead as (x & y & -> & Hx). exists x, y.
    by rewrite <- !app_assoc. }
  destruct (find_line_start_Some _ _ _ _ Hi) as (pre & post & Hdoc & Hlen & Hpre & Hmin).
  destruct (until_heading_spec true post) as (rest & Hpost & Hrest & Hfirst).
  destruct (strip_split (until_heading true post))
    as (lead & trail & Hbody & Hlead & Htrail).
  exists pre, (until_heading true post), rest,
    lead, (strip (until_heading true post)), trail.
  assert (Happ : forall a, pre ++ (lit "## " ++ replace_char "-" "_" (upper name) ++ [nl]) ++ a
                           = pre ++ (heading ++ [nl]) ++ a).
  { intros a. unfold heading. by rewrite <- !app_assoc. }
  split_and!; [| | | | | done | done | done | apply strip_no_outer_space |].
  - rewrite Happ, <- Hpost. exact Hdoc.
  - exact Hpre.
  - intros x y Hx Hls. rewrite Hlen. eapply Hmin; [|exact Hls].
    rewrite Hx. unfold heading. by rewrite <- !app_assoc.
  - destruct Hrest as [->|[Hls Hr]]; [by left | right]. split; [|done].
    rewrite Happ. by apply line_start_from_app.
  - intros a b Hab Hls. rewrite Happ in Hls. apply line_start_from_app in Hls.
    eapply Hfirst; [|exact Hls]. by rewrite Hpost at 1.
  - unfold extract_section.
    rewrite search_between_None by (by try apply marker_start_plain).
    unfold search_heading. rewrite search_line_start_plain by exact Hplain.
    fold heading.
    replace (lit "## " ++ replace_char "-" "_" (upper name) ++ [nl])
      with (heading ++ [nl]) by (unfold heading; by rewrite <- !app_assoc).
    rewrite Hi. cbv beta iota delta [mbind option_bind].
    replace (drop (i + length (heading ++ [nl])) doc) with post; [done|].
    rewrite Hdoc, <- Hlen, app_assoc, <- length_app. by rewrite drop_app_length.
Qed.

Lemma subheading_document_unmarked :
  ~ occurs (marker_start (lit "requirements")) subheading_document.
Proof. intros H%contains_occurs. discriminate H. Qed.

Lemma subheading_document_heading :
  exists x y,
    subheading_document = x ++ heading_line (lit "requirements") ++ y
    /\ line_start_from true x.
Proof.
  exists (unlines ["# Test naming"]),
    (unlines ["Keep names short."; "### Details"; "More text.";
              "## MUST_NOT_DO"; "Nothing."]).
  split; [reflexivity|]. right. by exists (lit "# Test naming").
Qed.

Lemma extract_section_heading_witness :
  exists pre body rest lead section trail,
    subheading_document = pre ++ heading_line (lit "requirements") ++ body ++ rest
    /\ line_start_from true pre
    /\ (forall x y, subheading_document = x ++ heading_line (lit "requirements") ++ y ->
                    line_start_from true x -> length pre <= length x)
    /\ (rest = []
        \/ (line_start_from true (pre ++ heading_line (lit "requirements") ++ body)
            /\ exists r, rest = lit "##" ++ r))
    /\ (forall a b, body ++ rest = a ++ lit "##" ++ b ->
                    line_start_from true (pre ++ heading_line (lit "requirements") ++ a) ->
                    length body <= length a)
    /\ body = lead ++ section ++ trail
    /\ forallb is_space lead = true
    /\ forallb is_space trail = true
    /\ no_outer_space section
    /\ extract_section subheading_document (lit "requirements") = Some section.
Proof.
  apply extract_section_heading.
  - reflexivity.
  - exact subheading_document_unmarked.
  - exact subheading_document_heading.
Defined.

(** C2, as it is stated, fails on this document: it has the heading line
    and no markers, the text up to the next top-level heading holds the
    sub-heading and what follows it, and [extract_section] answers with the
    first line of the section alone. *)
Lemma extract_section_subheading_counterexample :
  ~ occurs (marker_start (lit "requirements")) subheading_document
  /\ (exists x y,
        subheading_document = x ++ heading_line (lit "requirements") ++ y
        /\ line_start_from true x)
  /\ section_as_stated subheading_document (lit "requirements")
     = Some (lit "Keep names short." ++ [nl] ++ lit "### Details" ++ [nl]
             ++ lit "More text.")
  /\ extract_section subheading_document (lit "requirements")
     = Some (lit "Keep names short.")
  /\ extract_section subheading_document (lit "requirements")
     <> section_as_stated subheading_document (lit "requirements").
Proof.
  split_and!.
  - exact subheading_document_unmarked.
  - exact subheading_document_heading.
  - reflexivity.
  - reflexivity.
  - discriminate.
Qed.

(** ** The bundler *)


(** The context of the task in full. *)
Example review_typescript_context :
  _analyze_task review_task
  = {| action := lit "review";
       languages := [lit "typescript"];
       categories := [lit "test-naming"];
       keywords := map lit ["review"; "typescript"; "code"; "testing"; "issues"]%string |}.
Proof. reflexivity. Qed.

Section BundlerExamples.
Import ExampleLibrary.

(** The bundle of the task over the example index: the context is stored
    with the bundle, and the rules carry the summary and the antipatterns
    and no other section. *)
Example bundle_for_task_review :
  exists bundle,
    bundle_for_task example_index rule_files review_task = Some bundle
    /\ value_at ["metadata"; "context"; "action"] bundle
       = Some (VStr (lit "review"))
    /\ value_at ["metadata"; "context"; "languages"] bundle
       = Some (VList [VStr (lit "typescript")])
    /\ value_at ["metadata"; "context"; "categories"] bundle
       = Some (VList [VStr (lit "test-naming")])
    /\ value_at ["rules"; "typescript-test-naming"; "sections"] bundle
       = Some (VDict [(lit "summary",
                       VStr (lit "Name tests after the behaviour they check."));
                      (lit "antipatterns",
                       VList [VDict [(lit "id", VStr (lit "ANT001"));
                                     (lit "antipattern", VStr (lit "Number the tests."));
                                     (lit "why", VNone);
                                     (lit "instead", VNone)]])]).
Proof. eexists. split_and!; vm_compute; reflexivity. Qed.

End BundlerExamples.

(** ** The optimizer *)

(** Within the budget the optimizer answers with the bundle it was given
    and leaves the store as it is. *)
Lemma optimize_bundle_within_budget (bundle : pyval) (max_tokens : nat)
    (h : store) (v : value) :
  snapshot h bundle = Some v ->
  _estimate_tokens v <= max_tokens ->
  optimize_bundle bundle max_tokens h = Some (bundle, h).
Proof.
  intros Hv Hle. unfold optimize_bundle, bind, estimate_tokens. rewrite Hv.
  by rewrite (proj2 (Nat.leb_le _ _) Hle).
Qed.

(** C3 fails on the code.  The bundle above is estimated at 73 tokens.
    Optimized to 60 tokens, the call answers with a new dictionary, and the
    bundle of the caller has lost the examples of its rule: the copy made
    by [bundle.copy()] shares the dictionaries of the rules with the
    bundle of the caller, and the loops delete from them. *)
Theorem optimize_bundle_changes_argument :
  exists bundle h optimized h',
    load example_bundle [] = (bundle, h)
    /\ snapshot h bundle = Some example_bundle
    /\ _estimate_tokens example_bundle = 73
    /\ optimize_bundle bundle 60 h = Some (optimized, h')
    /\ optimized <> bundle
    /\ snapshot h' optimized = Some example_bundle_trimmed
    /\ snapshot h' bundle = Some example_bundle_trimmed
    /\ snapshot h' bundle <> snapshot h bundle.
Proof.
  eexists _, _, _, _. split_and!.
  - vm_compute. reflexivity.
  - vm_compute. reflexivity.
  - vm_compute. reflexivity.
  - vm_compute. reflexivity.
  - discriminate.
  - vm_compute. reflexivity.
  - vm_compute. reflexivity.
  - vm_compute. discriminate.
Qed.

(** ** The validator *)

Lemma insert_sorted_perm (n : nat) (l : list nat) : insert_sorted n l ≡ₚ n :: l.
Proof.
  induction l as [|m l IH]; simpl; [done|].
  destruct (n <=? m); [done|]. rewrite IH. apply Permutation_swap.
Qed.

Lemma sort_perm (l : list nat) : sort l ≡ₚ l.
Proof.
  induction l as [|n l IH]; simpl; [done|].
  by rewrite insert_sorted_perm, IH.
Qed.

Lemma insert_sorted_sorted (n : nat) (l : list nat) :
  StronglySorted le l -> StronglySorted le (insert_sorted n l).
Proof.
  induction 1 as [|m l Hs IH Hall]; simpl.
  - repeat constructor.
  - destruct (n <=? m) eqn:E.
    + apply Nat.leb_le in E. constructor; [by constructor|].
      constructor; [done|]. eapply Forall_impl; [exact Hall|]. intros; simpl in *; lia.
    + apply Nat.leb_gt in E. constructor; [done|].
      rewrite insert_sorted_perm. constructor; [lia | done].
Qed.

Lemma sort_sorted (l : list nat) : StronglySorted le (sort l).
Proof.
  induction l as [|n l IH]; simpl; [constructor | by apply insert_sorted_sorted].
Qed.


Lemma first_mismatch_None (start : nat) (numbers : list nat) :
  first_mismatch start numbers = None -> numbers = seq start (length numbers).
Proof.
  revert start. induction numbers as [|n numbers IH]; intros start; simpl; [done|].
  case_bool_decide as Hn; [done|]. intros H%IH.
  assert (n = start) as -> by lia. by rewrite <- H.
Qed.








(** An id written with [decimal03] is read back as its number. *)
Lemma id_number_decimal03 (prefix : str) (n : nat) :
  id_number prefix (prefix ++ decimal03 n) = Some n.
Proof.
  unfold id_number. rewrite starts_with_app, drop_app_length.
  rewrite (span_digits_all _ (decimal03_digits n)). simpl.
  pose proof (decimal03_nonempty n) as Hne.
  destruct (decimal03 n) as [|c r] eqn:E; [done|]. rewrite <- E.
  unfold decimal03. by rewrite int_of_digits_zeros, int_of_digits_decimal.
Qed.




Example gap_document_warnings :
  warnings (_validate_id_formats gap_document new_validator)
  = [lit "REQ IDs are not sequential. Expected REQ003, found REQ004"].
Proof. reflexivity. Qed.




(** ** The fixer of the validator *)

Lemma match_digits_Some (before : str) (n : nat) (after s digits : str) :
  match_digits before n after s = Some digits ->
  exists r, s = before ++ digits ++ after ++ r
            /\ length digits = n /\ forallb is_digit digits = true.
Proof.
  unfold match_digits.
  destruct (starts_with before s) eqn:Hb; [|done].
  apply starts_with_spec in Hb as [rest ->]. rewrite drop_app_length.
  destruct (bool_decide _ && _ && _) eqn:E; [|done]. intros [= <-].
  apply andb_true_iff in E as [[Hlen Hdig]%andb_true_iff Hafter].
  apply bool_decide_eq_true in Hlen. apply starts_with_spec in Hafter as [r Hr].
  exists r. split_and!; [|done..].
  by rewrite <- Hr, take_drop.
Qed.

(** A substitution without a match leaves the text as it is. *)
Lemma sub_digits_unchanged (before : str) (n : nat) (after : str)
    (repl : str -> str) (s : str) :
  (forall a r, s = a ++ r -> match_digits before n after r = None) ->
  sub_digits before n after repl 0 s = s.
Proof.
  induction s as [|c s IH]; intros Hno; simpl; [done|].
  rewrite (Hno [] (c :: s) eq_refl). f_equal. apply IH.
  intros a r ->. by apply (Hno (c :: a)).
Qed.

Lemma ids_padded_unmatched (prefix content : str) (n : nat) :
  ids_padded prefix content -> n = 1 \/ n = 2 ->
  forall a r, content = a ++ r ->
              match_digits (lit "**[" ++ prefix) n (lit "]**") r = None.
Proof.
  intros Hpad Hn a r ->.
  destruct (match_digits _ n _ r) as [digits|] eqn:E; [exfalso|done].
  apply match_digits_Some in E as (b & -> & Hlen & Hdig).
  assert (length digits = 3); [|lia].
  eapply Hpad; [reflexivity | | done].
  intros ->. simpl in Hlen. lia.
Qed.

Lemma pad_ids_conformant (prefix content : str) :
  ids_padded prefix content -> pad_ids prefix content = content.
Proof.
  intros Hpad. unfold pad_ids.
  rewrite (sub_digits_unchanged _ 1) by (apply ids_padded_unmatched; auto).
  by rewrite (sub_digits_unchanged _ 2) by (apply ids_padded_unmatched; auto).
Qed.

(** A text without an occurrence of [before] and a digit has no match of
    the one-digit pattern. *)
Lemma one_digit_unmatched (before content : str) :
  (forall a d b, is_digit d = true -> content <> a ++ before ++ [d] ++ b) ->
  forall a r, content = a ++ r -> match_digits before 1 [] r = None.
Proof.
  intros Hno a r ->.
  destruct (match_digits before 1 [] r) as [digits|] eqn:E; [exfalso|done].
  apply match_digits_Some in E as (b & -> & Hlen & Hdig).
  destruct digits as [|d [|? ?]]; try done.
  simpl in Hdig. rewrite andb_true_r in Hdig.
  by apply (Hno a d b Hdig).
Qed.

Lemma rename_examples_conformant (content : str) :
  examples_renamed content ->
  rename_examples (lit "Good Example") (lit "GOOD_EXAMPLE_") content = content
  /\ rename_examples (lit "Bad Example") (lit "BAD_EXAMPLE_") content = content.
Proof.
  intros Hren. unfold rename_examples.
  split; apply sub_digits_unchanged, one_digit_unmatched; intros a d b Hd.
  - exact (proj1 (Hren a d b Hd)).
  - exact (proj2 (Hren a d b Hd)).
Qed.

Lemma add_markers_conformant (content : str) :
  markers_present content -> add_markers content = content.
Proof.
  intros Hm. unfold add_markers.
  destruct (contains (lit "## MUST_FOLLOW") content) eqn:E; [|done].
  apply contains_occurs, Hm, contains_occurs in E. by rewrite E.
Qed.

Lemma fixed_content_conformant (content : str) :
  conformant content -> fixed_content content = content.
Proof.
  intros (Hreq & Hant & Hren & Hm). unfold fixed_content.
  rewrite (pad_ids_conformant _ _ Hreq), (pad_ids_conformant _ _ Hant).
  destruct (rename_examples_conformant _ Hren) as [-> ->].
  by apply add_markers_conformant.
Qed.

(** C8.  On a document that conforms already (every [REQ] and [ANT] id
    has three digits, no example heading is in the old form, and the
    opening marker of the requirements is there when the document has
    [## MUST_FOLLOW]) [fix_common_issues] answers [False] and writes
    nothing: the files are what they were. *)
Theorem fix_common_issues_conformant (fs : files) (rule_file content : str) :
  fs !! rule_file = Some content ->
  conformant content ->
  fix_common_issues fs rule_file = Some (false, fs).
Proof.
  intros Hfile Hconf. unfold fix_common_issues. rewrite Hfile. simpl.
  rewrite (fixed_content_conformant _ Hconf).
  by rewrite bool_decide_eq_false_2 by (by intros []).
Qed.

Lemma all_suffixes_spec (test : str -> bool) (s : str) :
  all_suffixes test s = true -> forall a r, s = a ++ r -> test r = true.
Proof.
  induction s as [|c s IH]; simpl; intros [Ht Hs]%andb_true_iff a r Heq.
  - by destruct a, r.
  - destruct a as [|c' a]; simpl in Heq; [by subst|].
    injection Heq as -> ->. by eapply IH.
Qed.

Lemma span_digits_app (digits r : str) :
  forallb is_digit digits = true ->
  starts_with (lit "]**") r = true ->
  span_digits (digits ++ r) = (digits, r).
Proof.
  intros Hdig [b ->]%starts_with_spec.
  induction digits as [|d digits IH]; [done|].
  simpl in Hdig. apply andb_true_iff in Hdig as [Hd Hdig].
  change (span_digits ((d :: digits) ++ lit "]**" ++ b))
    with (if is_digit d
          then let '(ds, r) := span_digits (digits ++ lit "]**" ++ b) in (d :: ds, r)
          else ([], d :: digits ++ lit "]**" ++ b)).
  by rewrite Hd, (IH Hdig).
Qed.

Lemma ids_padded_check (prefix content : str) :
  all_suffixes (padded_here prefix) content = true -> ids_padded prefix content.
Proof.
  intros Hall a digits b -> Hne Hdig.
  pose proof (all_suffixes_spec _ _ Hall a _ eq_refl) as Hhere.
  unfold padded_here, match_numbered in Hhere.
  rewrite starts_with_app, drop_app_length in Hhere.
  rewrite span_digits_app in Hhere by (done || apply starts_with_app).
  destruct digits as [|d digits]; [done|].
  rewrite starts_with_app in Hhere. apply Nat.eqb_eq in Hhere.
  rewrite length_app in Hhere. lia.
Qed.

Lemma examples_renamed_check (content : str) :
  all_suffixes renamed_here content = true -> examples_renamed content.
Proof.
  intros Hall a d b Hd.
  assert (Hmatch : forall before,
             match_digits before 1 [] (before ++ [d] ++ b) = Some [d]).
  { intros before. unfold match_digits.
    rewrite starts_with_app, drop_app_length. simpl. by rewrite Hd. }
  split; intros ->.
  - pose proof (all_suffixes_spec _ _ Hall a _ eq_refl) as Hhere.
    unfold renamed_here in Hhere. by rewrite Hmatch in Hhere.
  - pose proof (all_suffixes_spec _ _ Hall a _ eq_refl) as Hhere.
    unfold renamed_here in Hhere. rewrite Hmatch in Hhere.
    by rewrite andb_false_r in Hhere.
Qed.

Lemma conformant_document_conformant : conformant conformant_document.
Proof.
  split_and!.
  - apply ids_padded_check. vm_compute. reflexivity.
  - apply ids_padded_check. vm_compute. reflexivity.
  - apply examples_renamed_check. vm_compute. reflexivity.
  - intros _. apply contains_occurs. vm_compute. reflexivity.
Qed.

Lemma fix_common_issues_conformant_witness :
  fix_common_issues {[lit "testing/test-naming.md" := conformant_document]}
    (lit "testing/test-naming.md")
  = Some (false, {[lit "testing/test-naming.md" := conformant_document]}).
Proof.
  apply (fix_common_issues_conformant _ _ conformant_document).
  - apply lookup_singleton_eq.
  - exact conformant_document_conformant.
Defined.

(** ** The differ *)

(** Induction over values, with the values inside a list or a dictionary
    at hand. *)
Lemma value_nested_ind (P : value -> Prop) :
  P VNone ->
  (forall b, P (VBool b)) ->
  (forall n, P (VInt n)) ->
  (forall x, P (VFloat x)) ->
  (forall s, P (VStr s)) ->
  (forall l, Forall P l -> P (VList l)) ->
  (forall d, Forall (fun kv => P kv.2) d -> P (VDict d)) ->
  forall v, P v.
Proof.
  intros HN HB HI HF HS HL HD. fix IH 1. intros [ | b | n | x | s | l | d].
  - exact HN.
  - apply HB.
  - apply HI.
  - apply HF.
  - apply HS.
  - apply HL. induction l as [|x l IHl]; constructor; [apply IH | exact IHl].
  - apply HD. induction d as [|kv d IHd]; constructor; [apply IH | exact IHd].
Qed.










Section DifferFacts.
Context {lib : Library}.




End DifferFacts.

Section DifferExamples.
Import ExampleLibrary.










(** The summary of the diff of the two versions. *)
Example diff_rules_versions_summary :
  diff_summary <$> diff_rules rule_files (lit "v1/test-naming.md")
                     (lit "v2/test-naming.md")
  = Some {| severity_changed := true;
            category_changed := false;
            language_changed := false;
            breaking_changes := [lit "Severity changed from error to warning"] |}.
Proof. vm_compute. reflexivity. Qed.

End DifferExamples.

(** ** The bundles that are built *)

Lemma dict_keys_set {A} (k k' : str) (v : A) (d : list (str * A)) :
  k' ∈ dict_keys (dict_set k v d) -> k' = k \/ k' ∈ dict_keys d.
Proof.
  unfold dict_keys. induction d as [|[k0 v0] d IH]; simpl.
  - rewrite elem_of_cons, elem_of_nil. tauto.
  - case_bool_decide as Hk; simpl; rewrite !elem_of_cons.
    + tauto.
    + intros [-> | H]; [tauto|]. apply IH in H. tauto.
Qed.

Lemma dict_lookup_set {A} (k k' : str) (v : A) (d : list (str * A)) :
  dict_lookup k' (dict_set k v d)
  = if bool_decide (k' = k) then Some v else dict_lookup k' d.
Proof.
  induction d as [|[k0 v0] d IH]; simpl.
  - by repeat case_bool_decide.
  - destruct (decide (k = k0)) as [-> | Hk].
    + rewrite bool_decide_eq_true_2 by done. simpl.
      by repeat case_bool_decide.
    + rewrite bool_decide_eq_false_2 by done. simpl. rewrite IH.
      repeat case_bool_decide; simplify_eq; done.
Qed.

Lemma Forall_dict_set {A} (P : A -> Prop) (k : str) (v : A) (d : list (str * A)) :
  P v -> Forall (fun entry => P entry.2) d ->
  Forall (fun entry => P entry.2) (dict_set k v d).
Proof.
  intros Hv. induction 1 as [|[k0 v0] d H0 Hd IH]; simpl.
  - by repeat constructor.
  - case_bool_decide; constructor; done.
Qed.

Section BuildBundleFacts.
Context {lib : Library}.

Lemma add_section_unrecognized (extractor : RuleExtractor)
    (sections : list (str * value)) (section : str) :
  recognized section = false -> add_section extractor sections section = sections.
Proof.
  unfold recognized. intros Hno%bool_decide_eq_false.
  simpl in Hno. rewrite !elem_of_cons, elem_of_nil in Hno.
  unfold add_section. by rewrite !bool_decide_eq_false_2 by tauto.
Qed.

Lemma fold_add_section_recognized (extractor : RuleExtractor)
    (sections : list str) (acc : list (str * value)) :
  fold_left (add_section extractor) sections acc
  = fold_left (add_section extractor) (List.filter recognized sections) acc.
Proof.
  revert acc. induction sections as [|s sections IH]; intros acc; simpl; [done|].
  destruct (recognized s) eqn:E; simpl; [apply IH|].
  rewrite add_section_unrecognized by done. apply IH.
Qed.

Lemma build_rules_recognized (index : rules_index) (fs : files)
    (sections rule_ids : list str) (rules : list (str * value)) :
  build_rules index fs sections rule_ids rules
  = build_rules index fs (List.filter recognized sections) rule_ids rules.
Proof.
  revert rules. induction rule_ids as [|rule_id rest IH]; intros rules; simpl; [done|].
  destruct (dict_lookup rule_id index) as [info|]; [|apply IH].
  destruct (fs !! file_path info); [|apply IH].
  destruct (new_extractor fs (file_path info)) as [extractor|]; simpl; [|done].
  unfold build_rule_data. rewrite fold_add_section_recognized. apply IH.
Qed.

Lemma add_section_bounded (extractor : RuleExtractor)
    (sections : list (str * value)) (section : str) :
  sections_bounded sections ->
  sections_bounded (add_section extractor sections section).
Proof.
  intros [Hkeys Hgood].
  assert (Hset : forall key v,
             key ∈ section_keys ->
             (key = lit "good_examples" ->
              exists examples, v = VList examples /\ length examples <= 1) ->
             sections_bounded (dict_set key v sections)).
  { intros key v Hkey Hv. split.
    - intros k [-> | Hk]%dict_keys_set; auto.
    - intros w. rewrite dict_lookup_set. case_bool_decide as Hk.
      + intros [= <-]. by apply Hv.
      + apply Hgood. }
  unfold add_section. repeat case_match; try done; apply Hset;
    try (unfold section_keys; simpl; rewrite !elem_of_cons; tauto);
    try (intros Hk; discriminate Hk).
  intros _. eexists. split; [reflexivity|].
  rewrite length_map, length_take. lia.
Qed.

Lemma fold_add_section_bounded (extractor : RuleExtractor)
    (sections : list str) (acc : list (str * value)) :
  sections_bounded acc ->
  sections_bounded (fold_left (add_section extractor) sections acc).
Proof.
  revert acc. induction sections as [|s sections IH]; intros acc Hacc; simpl; [done|].
  by apply IH, add_section_bounded.
Qed.

Lemma build_rules_bounded (index : rules_index) (fs : files)
    (sections rule_ids : list str) (rules rules' : list (str * value)) :
  Forall (fun entry => rule_entry_bounded entry.2) rules ->
  build_rules index fs sections rule_ids rules = Some rules' ->
  Forall (fun entry => rule_entry_bounded entry.2) rules'.
Proof.
  revert rules. induction rule_ids as [|rule_id rest IH]; intros rules Hrules; simpl.
  - by intros [= <-].
  - destruct (dict_lookup rule_id index) as [info|]; [|by apply IH].
    destruct (fs !! file_path info); [|by apply IH].
    destruct (new_extractor fs (file_path info)) as [extractor|]; simpl; [|done].
    apply IH. apply Forall_dict_set; [|done].
    eexists _, _. split; [reflexivity|].
    apply fold_add_section_bounded. split; [|done].
    intros key Hkey. by apply elem_of_nil in Hkey.
Qed.

Lemma build_rules_returns (index : rules_index) (fs : files)
    (sections rule_ids : list str) (rules : list (str * value)) :
  (forall path text, fs !! path = Some text -> is_Some (_extract_metadata text)) ->
  is_Some (build_rules index fs sections rule_ids rules).
Proof.
  intros Hyaml. revert rules.
  induction rule_ids as [|rule_id rest IH]; intros rules; simpl; [done|].
  destruct (dict_lookup rule_id index) as [info|]; [|apply IH].
  destruct (fs !! file_path info) as [text|] eqn:Hfile; [|apply IH].
  unfold new_extractor. rewrite Hfile. simpl.
  destruct (Hyaml _ _ Hfile) as [meta ->]. simpl. apply IH.
Qed.

(** C9.  A section name that [_build_bundle] does not know changes
    nothing: the call with the names as given is the call with the known
    names among them, in its result and in whether it raises.  In the
    bundle that is built, the sections of every rule have keys among
    [summary], [requirements], [antipatterns], [good_examples] and
    [context] only, and [good_examples], where it is there, is a list of
    one example at most.  And the call does build a bundle when the front
    matter of the rule files can be parsed, whatever the names. *)
Theorem build_bundle_sections (index : rules_index) (fs : files)
    (rule_ids sections : list str) :
  _build_bundle index fs rule_ids sections
  = _build_bundle index fs rule_ids (List.filter recognized sections)
  /\ match _build_bundle index fs rule_ids sections with
     | Some bundle =>
         exists rules,
           bundle = VDict [(lit "rules", VDict rules)]
           /\ Forall (fun entry => rule_entry_bounded entry.2) rules
     | None => True
     end
  /\ ((forall path text, fs !! path = Some text ->
                         is_Some (_extract_metadata text)) ->
      is_Some (_build_bundle index fs rule_ids sections)).
Proof.
  unfold _build_bundle. split_and!.
  - by rewrite build_rules_recognized.
  - destruct (build_rules index fs sections rule_ids []) as [rules|] eqn:E;
      simpl; [|done].
    exists rules. split; [done|]. by eapply build_rules_bounded.
  - intros Hyaml.
    destruct (build_rules_returns index fs sections rule_ids [] Hyaml) as [rules ->].
    by eexists.
Qed.

End BuildBundleFacts.

Section BuildBundleExamples.
Import ExampleLibrary.

(** A bundle of one rule of the example index, asked for with a name that
    is not known and for a rule that is not indexed. *)
Example build_bundle_unknown_names :
  exists bundle,
    _build_bundle example_index rule_files
      [lit "typescript-test-naming"; lit "no-such-rule"]
      [lit "RULE_SUMMARY"; lit "NO_SUCH_SECTION"; lit "good_examples"]
    = Some bundle
    /\ value_at ["rules"; "typescript-test-naming"; "sections"] bundle
       = Some (VDict [(lit "summary",
                       VStr (lit "Name tests after the behaviour they check."));
                      (lit "good_examples", VList [])])
    /\ value_at ["rules"; "no-such-rule"] bundle = None.
Proof. eexists. split_and!; vm_compute; reflexivity. Qed.

End BuildBundleExamples.

(** ** The similarity of two rules *)

Lemma ratio_bounds (a b : nat) :
  a <= b -> 0 < b -> (0 <= Z.of_nat a # Pos.of_nat b <= 1)%Q.
Proof.
  intros Hab Hb. unfold Qle. simpl.
  assert (Hpos : Zpos (Pos.of_nat b) = Z.of_nat b).
  { rewrite <- positive_nat_Z, Nat2Pos.id by lia. done. }
  rewrite Hpos. lia.
Qed.

Lemma zero_bounds : (0 <= 0 <= 1)%Q.
Proof. split; by unfold Qle. Qed.

Lemma insert_desc_Forall (P : comparison -> Prop) (c : comparison)
    (l : list comparison) :
  P c -> Forall P l -> Forall P (insert_desc c l).
Proof.
  intros Hc. induction 1 as [|c' l Hc' Hl IH]; simpl.
  - by repeat constructor.
  - destruct (Qle_bool _ _); repeat constructor; done.
Qed.

Lemma sort_desc_Forall (P : comparison -> Prop) (l : list comparison) :
  Forall P l -> Forall P (sort_desc l).
Proof.
  induction 1 as [|c l Hc Hl IH]; simpl; [constructor|].
  by apply insert_desc_Forall.
Qed.

Section SimilarityFacts.
Context {lib : Library}.

Lemma rule_similarity_body_bounds (fs : files) (path1 path2 : str) (q : Q) :
  rule_similarity_body fs path1 path2 = Some q -> (0 <= q <= 1)%Q.
Proof.
  unfold rule_similarity_body.
  destruct (new_extractor fs path1) as [ext1|]; simpl; [|done].
  destruct (new_extractor fs path2) as [ext2|]; simpl; [|done].
  destruct (_ && _); [intros [= <-]; apply zero_bounds|].
  destruct (0 <? size _) eqn:E; intros [= <-]; [|apply zero_bounds].
  apply Nat.ltb_lt in E. apply ratio_bounds; [|done].
  apply subseteq_size. intros w. rewrite elem_of_intersection, elem_of_union. tauto.
Qed.

Lemma calculate_rule_similarity_bounds (fs : files) (path1 path2 : str) :
  (0 <= _calculate_rule_similarity fs path1 path2 <= 1)%Q.
Proof.
  unfold _calculate_rule_similarity.
  destruct (rule_similarity_body fs path1 path2) as [q|] eqn:E.
  - by eapply rule_similarity_body_bounds.
  - apply zero_bounds.
Qed.

Lemma compare_pairs_bounds (fs : files) (rules : list (str * rule_info)) :
  Forall (fun c => (0 <= similarity c <= 1)%Q) (compare_pairs fs rules).
Proof.
  induction rules as [|r1 rest IH]; simpl; [constructor|].
  apply Forall_app. split; [|done].
  apply Forall_map, Forall_forall. intros r2 _. simpl.
  apply calculate_rule_similarity_bounds.
Qed.

(** C10.  The similarity of two rules is a number from 0 to 1, for all
    files and paths.  It is 0 when the body of the [try] raises, as it does
    when one of the two files cannot be read or parsed, and it is 0 when
    neither rule has a word in its requirements.  So every similarity in
    the result of [compare_category] is a number from 0 to 1. *)
Theorem rule_similarity_bounded (index : rules_index) (fs : files)
    (path1 path2 category_arg : str) (language_arg : option str) :
  (0 <= _calculate_rule_similarity fs path1 path2 <= 1)%Q
  /\ (rule_similarity_body fs path1 path2 = None ->
      _calculate_rule_similarity fs path1 path2 = 0%Q)
  /\ (new_extractor fs path1 = None \/ new_extractor fs path2 = None ->
      _calculate_rule_similarity fs path1 path2 = 0%Q)
  /\ (forall ext1 ext2,
        new_extractor fs path1 = Some ext1 ->
        new_extractor fs path2 = Some ext2 ->
        requirement_words ext1 = ∅ ->
        requirement_words ext2 = ∅ ->
        _calculate_rule_similarity fs path1 path2 = 0%Q)
  /\ Forall (fun c => (0 <= similarity c <= 1)%Q)
            (compare_category index fs category_arg language_arg).
Proof.
  split; [|split; [|split; [|split]]].
  - apply calculate_rule_similarity_bounds.
  - unfold _calculate_rule_similarity. by intros ->.
  - unfold _calculate_rule_similarity, rule_similarity_body.
    intros [-> | ->]; [done|]. by destruct (new_extractor fs path1).
  - intros ext1 ext2 H1 H2 He1 He2.
    unfold _calculate_rule_similarity, rule_similarity_body.
    rewrite H1, H2. simpl. rewrite He1, He2.
    by rewrite !bool_decide_eq_true_2 by done.
  - unfold compare_category. apply sort_desc_Forall, compare_pairs_bounds.
Qed.

End SimilarityFacts.

(** * Further properties *)

(** ** The section extractor, further *)

Lemma search_between_Some (a b s g : str) :
  plain a -> plain b ->
  search_between a b s = Some g -> exists x z, s = x ++ a ++ g ++ b ++ z.
Proof.
  intros Ha Hb. unfold search_between. rewrite search_plain by done.
  destruct (find a s) as [i|] eqn:Hi; [|done]. cbn [mbind option_bind].
  rewrite search_plain by done.
  destruct (find b _) as [j|] eqn:Hj; [|done]. cbn [mbind option_bind].
  intros [= <-].
  apply find_Some in Hi as (x & rest & Hs & Hlen & _).
  assert (Hdrop : drop (i + length a) s = rest).
  { rewrite Hs, <- Hlen, app_assoc, <- length_app. apply drop_app_length. }
  rewrite Hdrop in Hj |- *.
  apply find_Some in Hj as (y & z & Hrest & Hlenb & _).
  exists x, z. by rewrite Hs, Hrest, <- Hlenb, take_app_length.
Qed.

(** X1.  [extract_section] answers [None] exactly for a document that has
    neither the marker pair nor the heading line of the section. *)
Theorem extract_section_None (doc name : str) :
  literal_name name ->
  extract_section doc name = None
  <-> ~ has_marker_pair doc name /\ ~ has_heading_line doc name.
Proof.
  intros Hname.
  pose proof (marker_start_plain name Hname) as Hstart.
  pose proof (marker_end_plain name Hname) as Hend.
  pose proof (heading_plain name Hname) as Hplain.
  unfold extract_section, has_marker_pair, has_heading_line. split.
  - destruct (search_between _ _ doc) as [g|] eqn:Hm; [done|].
    destruct (search_heading _ doc) as [g|] eqn:Hh; [done|]. intros _. split.
    + intros Hpair.
      apply search_between_pair in Hpair as (? & ? & ? & _ & _ & _ & H); [|done..].
      by rewrite H in Hm.
    + intros (x & y & Hdoc & Hx). unfold search_heading in Hh.
      rewrite search_line_start_plain in Hh by exact Hplain.
      destruct (find_line_start_found (heading_line name) true doc) as [i Hi];
        [by exists x, y|].
      unfold heading_line in Hi. by rewrite Hi in Hh.
  - intros [Hpair Hhead].
    destruct (search_between _ _ doc) as [g|] eqn:Hm.
    { destruct Hpair. apply search_between_Some in Hm as (x & z & ->); [|done..].
      by exists x, g, z. }
    destruct (search_heading _ doc) as [g|] eqn:Hh; [|done].
    destruct Hhead. unfold search_heading in Hh.
    rewrite search_line_start_plain in Hh by exact Hplain.
    destruct (find_line_start _ true doc) as [i|] eqn:Hi; [|done].
    apply find_line_start_Some in Hi as (x & y & Hdoc & _ & Hx & _).
    exists x, y. split; [|done]. unfold heading_line. by rewrite Hdoc.
Qed.

Lemma extract_section_None_witness :
  extract_section subheading_document (lit "metrics") = None
  <-> ~ has_marker_pair subheading_document (lit "metrics")
      /\ ~ has_heading_line subheading_document (lit "metrics").
Proof. apply extract_section_None. reflexivity. Defined.

(** X2.  Whatever [extract_section] answers has no white space at either end,
    and stripping it again changes nothing. *)
Theorem extract_section_stripped (doc name s : str) :
  extract_section doc name = Some s -> no_outer_space s /\ strip s = s.
Proof.
  intros H.
  assert (Hs : exists g, s = strip g).
  { unfold extract_section in H.
    destruct (search_between _ _ doc) as [g|]; [injection H as <-; eauto|].
    destruct (search_heading _ doc) as [g|]; [injection H as <-; eauto|done]. }
  destruct Hs as [g ->]. split; [apply strip_no_outer_space | apply strip_idempotent].
Qed.

Lemma extract_section_stripped_witness :
  no_outer_space (lit "Keep names short.")
  /\ strip (lit "Keep names short.") = lit "Keep names short.".
Proof.
  apply (extract_section_stripped subheading_document (lit "requirements")).
  reflexivity.
Defined.

(** ** The record patterns *)

Lemma span_spec (keep : ascii -> bool) (s w r : str) :
  span keep s = (w, r) -> s = w ++ r /\ forallb keep w = true.
Proof.
  revert w r. induction s as [|c s IH]; intros w r; simpl.
  - by intros [= <- <-].
  - destruct (keep c) eqn:E; [|by intros [= <- <-]].
    destruct (span keep s) as [w' r'] eqn:Hs. intros [= <- <-].
    destruct (IH _ _ eq_refl) as [-> Hw]. simpl. by rewrite E.
Qed.

Lemma lazy_until_app (stop : str -> bool) (s g r : str) :
  lazy_until stop s = (g, r) -> s = g ++ r.
Proof.
  revert g r. induction s as [|c s IH]; intros g r; simpl.
  - destruct (stop []); by intros [= <- <-].
  - destruct (stop (c :: s)); [by intros [= <- <-]|].
    destruct (lazy_until stop s) as [g' r'] eqn:Hs. intros [= <- <-].
    by rewrite (IH _ _ eq_refl).
Qed.

Lemma occurs_app_r (p a b : str) : occurs p b -> occurs p (a ++ b).
Proof. intros (x & y & ->). exists (a ++ x), y. by rewrite <- app_assoc. Qed.

Lemma occurs_cons (p : str) (c : ascii) (b : str) : occurs p b -> occurs p (c :: b).
Proof. apply (occurs_app_r p [c]). Qed.

(** Every element of [finditer] is a match at some place of the text. *)
Lemma finditer_elem {A} (m : str -> option (A * str)) (skip : nat) (s : str) (a : A) :
  a ∈ finditer m skip s ->
  exists pre suffix rest, s = pre ++ suffix /\ m suffix = Some (a, rest).
Proof.
  revert skip. induction s as [|c s IH]; intros skip; simpl.
  - by intros ?%elem_of_nil.
  - assert (Hlater : forall k, a ∈ finditer m k s ->
              exists pre suffix rest, c :: s = pre ++ suffix /\ m suffix = Some (a, rest)).
    { intros k (pre & suffix & rest & -> & Hm)%IH. by exists (c :: pre), suffix, rest. }
    destruct skip as [|k]; [|apply Hlater].
    destruct (m (c :: s)) as [[a' rest]|] eqn:Hm; [|apply Hlater].
    intros [-> | Hin]%elem_of_cons; [|by eapply Hlater].
    by exists [], (c :: s), rest.
Qed.

(** Without a match anywhere there is no element. *)
Lemma finditer_none {A} (m : str -> option (A * str)) (skip : nat) (s : str) :
  (forall pre suffix, s = pre ++ suffix -> m suffix = None) ->
  finditer m skip s = [].
Proof.
  intros Hno. destruct (finditer m skip s) as [|a l] eqn:E; [done|].
  assert (Hin : a ∈ finditer m skip s) by (rewrite E; left).
  apply finditer_elem in Hin as (pre & suffix & rest & Hs & Hm).
  by rewrite (Hno _ _ Hs) in Hm.
Qed.

Lemma record_header_spec (s id p : str) :
  record_header s = Some (id, p) ->
  s = lit "**[" ++ id ++ lit "]** " ++ p
  /\ id <> [] /\ forallb is_word id = true.
Proof.
  unfold record_header.
  destruct (starts_with (lit "**[") s) eqn:Hs; [|done].
  apply starts_with_spec in Hs as [t ->].
  change (drop 3 (lit "**[" ++ t)) with t.
  destruct (span is_word t) as [word r] eqn:Hspan.
  apply span_spec in Hspan as [-> Hword].
  destruct word as [|c word]; [done|].
  destruct (starts_with (lit "]** ") r) eqn:Hr; [|done].
  apply starts_with_spec in Hr as [p' ->]. intros [= <- <-].
  by split_and!.
Qed.

Lemma match_record_header (l1 l2 s : str) (groups : str * str * option str * option str)
    (rest : str) :
  match_record l1 l2 s = Some (groups, rest) ->
  exists p, record_header s = Some (groups.1.1.1, p).
Proof.
  unfold match_record. destruct (record_header s) as [[id p]|]; [|done].
  intros H. exists p. f_equal. f_equal.
  repeat (case_match; simplify_eq); done.
Qed.

(** The ids and the texts of the records that a record loop finds. *)
Lemma record_matches_wellformed (l1 l2 text : str)
    (groups : str * str * option str * option str) :
  groups ∈ finditer (match_record l1 l2) 0 text ->
  groups.1.1.1 <> []
  /\ forallb is_word groups.1.1.1 = true
  /\ occurs (lit "**[" ++ groups.1.1.1 ++ lit "]** ") text.
Proof.
  intros (pre & suffix & rest & -> & Hm)%finditer_elem.
  apply match_record_header in Hm as [p Hp].
  apply record_header_spec in Hp as (-> & Hne & Hword).
  split_and!; [done | done |]. exists pre, p. by rewrite <- !app_assoc.
Qed.

(** X5.  Every requirement and every antipattern that is extracted has an id
    of one or more word characters, tagged as [**[id]** ] in the text, and
    a text without white space at its ends. *)
Theorem extracted_records_wellformed (text : str) :
  (forall r, r ∈ requirement_matches text ->
             r_id r <> [] /\ forallb is_word (r_id r) = true
             /\ occurs (lit "**[" ++ r_id r ++ lit "]** ") text
             /\ no_outer_space (r_requirement r))
  /\ (forall a, a ∈ antipattern_matches text ->
                a_id a <> [] /\ forallb is_word (a_id a) = true
                /\ occurs (lit "**[" ++ a_id a ++ lit "]** ") text
                /\ no_outer_space (a_antipattern a)).
Proof.
  split.
  - intros r (groups & -> & Hin)%list_elem_of_fmap.
    apply record_matches_wellformed in Hin as (? & ? & ?).
    split_and!; try done. apply strip_no_outer_space.
  - intros a (groups & -> & Hin)%list_elem_of_fmap.
    apply record_matches_wellformed in Hin as (? & ? & ?).
    split_and!; try done. apply strip_no_outer_space.
Qed.

(** X6.  An entry without a tag [**[] is passed over: a text without the tag
    gives no requirement and no antipattern. *)
Theorem untagged_text_no_records (text : str) :
  ~ occurs (lit "**[") text ->
  requirement_matches text = [] /\ antipattern_matches text = [].
Proof.
  intros Hno.
  assert (Hnone : forall l1 l2, finditer (match_record l1 l2) 0 text = []).
  { intros l1 l2. apply finditer_none. intros pre suffix ->.
    destruct (match_record l1 l2 suffix) as [[groups rest]|] eqn:Hm; [|done].
    apply match_record_header in Hm as [p Hp].
    apply record_header_spec in Hp as (-> & _). destruct Hno.
    by exists pre, (groups.1.1.1 ++ lit "]** " ++ p). }
  unfold requirement_matches, antipattern_matches. by rewrite !Hnone.
Qed.

Lemma untagged_text_no_records_witness :
  requirement_matches (lit "Name tests after the behaviour they check.") = []
  /\ antipattern_matches (lit "Name tests after the behaviour they check.") = [].
Proof.
  apply untagged_text_no_records. intros H%contains_occurs. discriminate H.
Defined.

(** X8.  An example without the line [**Why this is ...**: ] behind its code
    is not captured: a content without that line has no example. *)
Theorem unexplained_examples_dropped (example_type content : str) :
  literal_name example_type ->
  ~ occurs (why_line example_type) content ->
  example_matches example_type content = [].
Proof.
  intros _ Hno. apply finditer_none. intros pre suffix ->.
  destruct (match_example example_type suffix) as [[e rest]|] eqn:Hm; [|done].
  exfalso. unfold match_example in Hm.
  destruct (starts_with _ suffix) eqn:Hs; [|done].
  apply starts_with_spec in Hs as [t ->]. rewrite drop_app_length in Hm.
  destruct (span is_digit t) as [digits r] eqn:Hspan.
  apply span_spec in Hspan as [-> _].
  destruct digits as [|d digits]; [done|].
  destruct (starts_with (lit ": ") r) eqn:Hr; [|done].
  apply starts_with_spec in Hr as [u ->].
  change (drop 2 (lit ": " ++ u)) with u in Hm.
  destruct (lazy_until is_fence u) as [title at_fence] eqn:Hl.
  apply lazy_until_app in Hl as ->.
  destruct (fence_header at_fence) as [[language code_on]|] eqn:Hf; [|done].
  destruct (find (why_line example_type) code_on) as [i|] eqn:Hi; [|done].
  apply find_Some in Hi as (x & y & -> & _).
  unfold fence_header in Hf.
  destruct (starts_with _ at_fence) eqn:Hfs; [|done].
  apply starts_with_spec in Hfs as [v ->].
  change (drop 4 ((nl :: lit "```") ++ v)) with v in Hf.
  destruct (span is_word v) as [word w] eqn:Hw.
  apply span_spec in Hw as [-> _].
  destruct word as [|c word]; [done|]. destruct w as [|c' w]; [done|].
  destruct (Ascii.eqb c' nl); [|done]. injection Hf as _ ->.
  apply Hno. do 7 apply occurs_app_r. apply occurs_cons. by exists x, y.
Qed.

Lemma unexplained_examples_dropped_witness :
  example_matches (lit "good") gap_document = [].
Proof.
  apply unexplained_examples_dropped; [reflexivity|].
  intros H%contains_occurs. discriminate H.
Defined.

Lemma optional_tail_field (label s : str) :
  optional_field (optional_tail label s).1 = None.
Proof. unfold optional_tail. by destruct (starts_with label s). Qed.

Lemma match_pattern_kind_spec (good : bool) (s : str) (e : bool * pattern_entry)
    (rest : str) :
  match_pattern_kind good s = Some (e, rest) ->
  e.1 = good
  /\ starts_with (lit "PATTERN_" ++ (if good then lit "GOOD" else lit "BAD") ++ lit "_")
                 (p_id e.2) = true
  /\ p_example e.2 = None /\ p_matches e.2 = None /\ p_avoid_because e.2 = None.
Proof.
  unfold match_pattern_kind.
  destruct (starts_with _ s); [|done].
  destruct (span is_digit _) as [digits r].
  destruct digits as [|d digits]; [done|].
  destruct (starts_with (lit "**: `") r); [|done].
  destruct (find _ _) as [i|]; [|done].
  pose proof (optional_tail_field (nl :: lit "  - Example: ") (drop (S i) (drop 5 r))) as H4.
  destruct (optional_tail (nl :: lit "  - Example: ") _) as [g4 r4].
  pose proof (optional_tail_field (nl :: lit "  - Matches: ") r4) as H5.
  destruct (optional_tail (nl :: lit "  - Matches: ") r4) as [g5 r5].
  pose proof (optional_tail_field (nl :: lit "  - Avoid because: ") r5) as H6.
  destruct (optional_tail (nl :: lit "  - Avoid because: ") r5) as [g6 r6].
  intros [= <- <-]. simpl in *. split_and!; try done.
  - apply starts_with_spec. by eexists.
  - by destruct good.
Qed.

(** X9.  [extract_patterns] never answers with the example, the matches or
    the reason of a pattern: the lazy groups behind the labels stand at the
    end of the pattern and stay empty, and an empty group is [None].  The
    entries of [good] have ids [PATTERN_GOOD_n], those of [bad]
    [PATTERN_BAD_n]. *)
Theorem extract_patterns_details_lost (content : str) :
  (forall e, e ∈ (extract_patterns content).1 ->
             starts_with (lit "PATTERN_GOOD_") (p_id e) = true
             /\ p_example e = None /\ p_matches e = None
             /\ p_avoid_because e = None)
  /\ (forall e, e ∈ (extract_patterns content).2 ->
                starts_with (lit "PATTERN_BAD_") (p_id e) = true
                /\ p_example e = None /\ p_matches e = None
                /\ p_avoid_because e = None).
Proof.
  assert (Hfound : forall text (e : bool * pattern_entry),
             e ∈ finditer match_pattern 0 text ->
             starts_with (lit "PATTERN_" ++ (if e.1 then lit "GOOD" else lit "BAD")
                          ++ lit "_") (p_id e.2) = true
             /\ p_example e.2 = None /\ p_matches e.2 = None
             /\ p_avoid_because e.2 = None).
  { intros text e (pre & suffix & rest & -> & Hm)%finditer_elem.
    unfold match_pattern in Hm.
    destruct (match_pattern_kind true suffix) as [[e' rest']|] eqn:Ht.
    - injection Hm as -> ->.
      apply match_pattern_kind_spec in Ht as (-> & ?). done.
    - apply match_pattern_kind_spec in Hm as (-> & ?). done. }
  unfold extract_patterns.
  destruct (extract_section content (lit "patterns")) as [[|c section]|];
    try (split; intros e He; by apply elem_of_nil in He).
  split; intros e (e' & -> & He)%list_elem_of_fmap;
    apply list_elem_of_In, filter_In in He as [He%list_elem_of_In Hkind];
    apply Hfound in He.
  - by destruct e'.1.
  - by destruct e'.1.
Qed.

(** ** The numbers of the ids *)

(** X22.  An id written in the format of the warnings, the prefix and the number
    in three digits or more, is read back as that number by the check. *)
Theorem sequence_id_round_trip (prefix : str) (n : nat) :
  id_number prefix (prefix ++ decimal03 n) = Some n
  /\ 3 <= length (decimal03 n)
  /\ forallb is_digit (decimal03 n) = true.
Proof.
  split_and!.
  - apply id_number_decimal03.
  - unfold decimal03. rewrite length_app, length_replicate. lia.
  - apply decimal03_digits.
Qed.

Lemma warn_changes (msg : str) (self : RuleValidator) : warn msg self <> self.
Proof.
  intros H. apply (f_equal (fun v => length (warnings v))) in H.
  simpl in H. rewrite length_app in H. simpl in H. lia.
Qed.

Lemma sorted_seq (start len : nat) : StronglySorted le (seq start len).
Proof.
  revert start. induction len as [|len IH]; intros start; simpl; constructor; [done|].
  apply Forall_forall. intros x Hx%elem_of_seq. lia.
Qed.

(** X21.  The check is silent exactly for ids whose numbers are 1, 2, ..., n
    in some order: the order of the ids in the document does not matter,
    a missing, a repeated or a zero number does. *)
Theorem sequential_ids_silent (ids : list str) (prefix : str) (self : RuleValidator) :
  _check_sequential_ids ids prefix self = self
  <-> omap (id_number prefix) ids
      ≡ₚ seq 1 (length (omap (id_number prefix) ids)).
Proof.
  set (numbers := omap (id_number prefix) ids).
  assert (Hsort : first_mismatch 1 (sort numbers) = None
                  <-> numbers ≡ₚ seq 1 (length numbers)).
  { split.
    - intros H%first_mismatch_None.
      rewrite <- (sort_perm numbers) at 1. rewrite H.
      by rewrite (Permutation_length (sort_perm numbers)).
    - intros Hperm.
      assert (Heq : sort numbers = seq 1 (length numbers)).
      { apply (StronglySorted_unique le); [apply sort_sorted | apply sorted_seq |].
        by rewrite sort_perm. }
      rewrite Heq. clear.
      generalize 1. induction (length numbers) as [|len IH]; intros start; simpl; [done|].
      rewrite bool_decide_eq_false_2 by lia. apply IH. }
  unfold _check_sequential_ids, id_numbers. fold numbers.
  destruct ids as [|id ids]; [done|].
  destruct (first_mismatch 1 (sort numbers)) as [[i num]|] eqn:E.
  - split; [by intros ?%warn_changes|]. intros H%Hsort. done.
  - split; [|done]. intros _. by apply Hsort.
Qed.

(** ** The extraction markers *)

(** When no match begins inside another one, [finditer] finds the match
    of every place. *)
Lemma finditer_complete {A} (m : str -> option (A * str)) :
  (forall t a rest, m t = Some (a, rest) ->
     exists x, t = x ++ rest /\ x <> []
               /\ forall k, 0 < k < length x -> m (drop k t) = None) ->
  forall s skip,
    (forall k, k < skip -> m (drop k s) = None) ->
    forall pre suffix a rest,
      s = pre ++ suffix -> m suffix = Some (a, rest) -> a ∈ finditer m skip s.
Proof.
  intros Hm. induction s as [|c s IH]; intros skip Hskip pre suffix a rest Hs Ha.
  - symmetry in Hs. apply app_eq_nil in Hs as [-> ->].
    destruct (Hm _ _ _ Ha) as (x & Hx & Hne & _).
    symmetry in Hx. apply app_eq_nil in Hx as [-> _]. done.
  - assert (Hlater : forall k, pre <> [] ->
              (forall j, j < k -> m (drop j s) = None) -> a ∈ finditer m k s).
    { intros k Hpre Hk. destruct pre as [|c' pre]; [done|].
      injection Hs as -> ->. by eapply IH. }
    simpl. destruct skip as [|k].
    + destruct (m (c :: s)) as [[a' rest']|] eqn:Hc.
      * destruct pre as [|c' pre].
        { simpl in Hs. subst suffix. rewrite Hc in Ha. injection Ha as -> ->. left. }
        right. apply Hlater; [done|]. intros j Hj.
        destruct (Hm _ _ _ Hc) as (x & Hx & Hne & Hin).
        change (drop j s) with (drop (S j) (c :: s)). apply Hin.
        apply (f_equal length) in Hx. rewrite length_app in Hx. simpl in *. lia.
      * apply Hlater; [|intros; lia].
        intros ->. simpl in Hs. subst suffix. by rewrite Hc in Ha.
    + apply Hlater.
      * intros ->. simpl in Hs. subst suffix.
        specialize (Hskip 0 ltac:(lia)). simpl in Hskip. by rewrite Hskip in Ha.
      * intros j Hj. change (drop j s) with (drop (S j) (c :: s)). apply Hskip. lia.
Qed.

Lemma match_marker_spec (s name rest : str) (start : bool) :
  match_marker s = Some ((name, start), rest) ->
  s = (if start then marker_start name else marker_end name) ++ rest
  /\ name <> [] /\ forallb is_word name = true.
Proof.
  unfold match_marker.
  destruct (starts_with _ s) eqn:Hs; [|done].
  apply starts_with_spec in Hs as [t ->].
  change (drop 13 (lit "<!-- EXTRACT:" ++ t)) with t.
  destruct (span is_word t) as [word r] eqn:Hspan.
  apply span_spec in Hspan as [-> Hword].
  destruct word as [|c word]; [done|].
  destruct (starts_with (lit ":start -->") r) eqn:Hr.
  - apply starts_with_spec in Hr as [r' ->]. intros [= <- <- <-].
    unfold marker_start. by rewrite <- !app_assoc.
  - destruct (starts_with (lit ":end -->") r) eqn:Hr'; [|done].
    apply starts_with_spec in Hr' as [r' ->]. intros [= <- <- <-].
    unfold marker_end. by rewrite <- !app_assoc.
Qed.

Lemma span_word_colon (name r : str) :
  forallb is_word name = true ->
  span is_word (name ++ ":"%char :: r) = (name, ":"%char :: r).
Proof.
  induction name as [|c name IH]; [done|].
  simpl. intros [Hc Hname]%andb_true_iff. by rewrite Hc, (IH Hname).
Qed.

Lemma match_marker_start (name rest : str) :
  name <> [] -> forallb is_word name = true ->
  match_marker (marker_start name ++ rest) = Some ((name, true), rest).
Proof.
  intros Hne Hword. unfold match_marker, marker_start.
  rewrite <- !app_assoc, starts_with_app.
  change (drop 13 (lit "<!-- EXTRACT:" ++ ?t)) with t.
  change (lit ":start -->" ++ rest) with (":"%char :: lit "start -->" ++ rest).
  rewrite (span_word_colon _ _ Hword). by destruct name.
Qed.

Lemma match_marker_end (name rest : str) :
  name <> [] -> forallb is_word name = true ->
  match_marker (marker_end name ++ rest) = Some ((name, false), rest).
Proof.
  intros Hne Hword. unfold match_marker, marker_end.
  rewrite <- !app_assoc, starts_with_app.
  change (drop 13 (lit "<!-- EXTRACT:" ++ ?t)) with t.
  change (lit ":end -->" ++ rest) with (":"%char :: lit "end -->" ++ rest).
  rewrite (span_word_colon _ _ Hword). by destruct name.
Qed.

Lemma match_marker_head (s : str) :
  is_Some (match_marker s) -> exists r, s = "<"%char :: r.
Proof.
  intros [[[name start] rest] H]. apply match_marker_spec in H as (-> & _).
  destruct start; by eexists.
Qed.

(** No marker begins inside a marker. *)
Lemma match_marker_apart (t : str) (a : str * bool) (rest : str) :
  match_marker t = Some (a, rest) ->
  exists x, t = x ++ rest /\ x <> []
            /\ forall k, 0 < k < length x -> match_marker (drop k t) = None.
Proof.
  destruct a as [name start]. intros (-> & Hne & Hword)%match_marker_spec.
  set (x := if start then marker_start name else marker_end name).
  assert (Hx : exists x', x = "<"%char :: x' /\ Forall (fun c => c <> "<"%char) x').
  { assert (Hname : Forall (fun c => c <> "<"%char) name).
    { apply Forall_forall. intros c Hc%list_elem_of_In ->.
      rewrite forallb_forall in Hword. by apply Hword in Hc. }
    destruct start;
      [exists (lit "!-- EXTRACT:" ++ name ++ lit ":start -->")
      |exists (lit "!-- EXTRACT:" ++ name ++ lit ":end -->")];
      (split; [reflexivity|]);
      (apply Forall_app; split; [by repeat constructor|]);
      (apply Forall_app; split; [done | by repeat constructor]). }
  destruct Hx as (x' & Hx & Hall). exists x. split_and!; [done | by rewrite Hx |].
  intros k Hk. destruct (match_marker (drop k (x ++ rest))) eqn:E; [|done]. exfalso.
  destruct (match_marker_head (drop k (x ++ rest))) as [r Hr]; [by rewrite E|].
  rewrite Hx in Hr, Hk. destruct k as [|k]; [lia|]. simpl in Hr, Hk.
  rewrite drop_app_le in Hr by lia.
  destruct (drop k x') as [|c d] eqn:Hd.
  { apply (f_equal length) in Hd. rewrite length_drop in Hd. simpl in Hd. lia. }
  injection Hr as -> _.
  assert (Hin : "<"%char ∈ x').
  { apply (subseteq_drop k). rewrite Hd. left. }
  rewrite Forall_forall in Hall. by apply Hall in Hin.
Qed.

(** The markers found are the markers of the document. *)
Lemma findall_markers_spec (content name : str) (start : bool) :
  name <> [] -> forallb is_word name = true ->
  (name, start) ∈ findall_markers content
  <-> occurs (if start then marker_start name else marker_end name) content.
Proof.
  intros Hne Hword. split.
  - intros (pre & suffix & rest & -> & (-> & _)%match_marker_spec)%finditer_elem.
    by exists pre, rest.
  - intros (pre & rest & ->).
    eapply (finditer_complete match_marker match_marker_apart _ 0); [intros; lia|done|].
    destruct start; [by apply match_marker_start | by apply match_marker_end].
Qed.

Lemma findall_markers_names (content name : str) (start : bool) :
  (name, start) ∈ findall_markers content ->
  name <> [] /\ forallb is_word name = true.
Proof.
  by intros (pre & suffix & rest & -> & (_ & ?)%match_marker_spec)%finditer_elem.
Qed.

Lemma start_markers_spec (content name : str) :
  name ∈ start_markers content
  <-> name <> [] /\ forallb is_word name = true
      /\ occurs (marker_start name) content.
Proof.
  unfold start_markers. rewrite elem_of_list_to_set, list_elem_of_fmap. split.
  - intros ([name' start] & -> & [Hin Hs]%list_elem_of_In%filter_In).
    simpl in *. subst start. apply list_elem_of_In in Hin.
    destruct (findall_markers_names _ _ _ Hin) as [Hne Hword].
    split_and!; [done..|]. by apply (findall_markers_spec _ _ true).
  - intros (Hne & Hword & Hocc). exists (name, true). split; [done|].
    apply list_elem_of_In, filter_In. split; [|done].
    apply list_elem_of_In. by apply (findall_markers_spec _ _ true).
Qed.

Lemma end_markers_spec (content name : str) :
  name ∈ end_markers content
  <-> name <> [] /\ forallb is_word name = true
      /\ occurs (marker_end name) content.
Proof.
  unfold end_markers. rewrite elem_of_list_to_set, list_elem_of_fmap. split.
  - intros ([name' start] & -> & [Hin Hs]%list_elem_of_In%filter_In).
    simpl in *. destruct start; [done|]. apply list_elem_of_In in Hin.
    destruct (findall_markers_names _ _ _ Hin) as [Hne Hword].
    split_and!; [done..|]. by apply (findall_markers_spec _ _ false).
  - intros (Hne & Hword & Hocc). exists (name, false). split; [done|].
    apply list_elem_of_In, filter_In. split; [|done].
    apply list_elem_of_In. by apply (findall_markers_spec _ _ false).
Qed.

(** What a loop of reports adds. *)
Lemma report_missing_errors (msg : str -> str) (markers others : gset str)
    (self : RuleValidator) :
  errors (report_missing (fun marker => error (msg marker)) markers others self)
  = errors self ++ map msg (filter (fun marker => marker ∉ others) (elements markers))
  /\ warnings (report_missing (fun marker => error (msg marker)) markers others self)
     = warnings self.
Proof.
  unfold report_missing. revert self.
  induction (elements markers) as [|marker l IH]; intros self; simpl.
  - by rewrite app_nil_r.
  - destruct (IH (if bool_decide (marker ∈ others) then self
                  else error (msg marker) self)) as [-> ->].
    case_bool_decide.
    + by rewrite filter_cons_False by (by intros []).
    + rewrite filter_cons_True by done. simpl. by rewrite <- app_assoc.
Qed.

Lemma report_missing_warnings (msg : str -> str) (markers others : gset str)
    (self : RuleValidator) :
  errors (report_missing (fun marker => warn (msg marker)) markers others self)
  = errors self
  /\ warnings (report_missing (fun marker => warn (msg marker)) markers others self)
     = warnings self
       ++ map msg (filter (fun marker => marker ∉ others) (elements markers)).
Proof.
  unfold report_missing. revert self.
  induction (elements markers) as [|marker l IH]; intros self; simpl.
  - by rewrite app_nil_r.
  - destruct (IH (if bool_decide (marker ∈ others) then self
                  else warn (msg marker) self)) as [-> ->].
    case_bool_decide.
    + by rewrite filter_cons_False by (by intros []).
    + rewrite filter_cons_True by done. simpl. by rewrite <- app_assoc.
Qed.

Lemma reports_none (msg : str -> str) (markers others : gset str) :
  map msg (filter (fun marker => marker ∉ others) (elements markers)) = []
  <-> markers ⊆ others.
Proof.
  split.
  - intros H%fmap_nil_inv marker Hin.
    destruct (decide (marker ∈ others)) as [|Hout]; [done|].
    assert (Hf : marker ∈ filter (fun marker => marker ∉ others) (elements markers)).
    { apply list_elem_of_filter. split; [done|]. by apply elem_of_elements. }
    rewrite H in Hf. by apply elem_of_nil in Hf.
  - intros Hsub. destruct (filter _ _) as [|marker l] eqn:E; [done|].
    assert (Hf : marker ∈ filter (fun marker => marker ∉ others) (elements markers))
      by (rewrite E; left).
    apply list_elem_of_filter in Hf as [Hout Hin%elem_of_elements].
    destruct Hout. by apply Hsub.
Qed.

(** X23.  The check of the markers looks at the names only.  It adds no error
    exactly when every name that has an opening marker somewhere in the
    document has a closing marker somewhere, and the other way round,
    whatever their order and number; it adds no warning exactly when every
    name with an opening marker is one of the four standard names. *)
Theorem extraction_markers_paired (content : str) (self : RuleValidator) :
  (errors (_validate_extraction_markers content self) = errors self
   <-> forall name, name <> [] -> forallb is_word name = true ->
         (occurs (marker_start name) content <-> occurs (marker_end name) content))
  /\ (warnings (_validate_extraction_markers content self) = warnings self
      <-> forall name, name <> [] -> forallb is_word name = true ->
            occurs (marker_start name) content ->
            name ∈ map lit ["requirements"; "antipatterns"; "patterns"; "metrics"]%string).
Proof.
  unfold _validate_extraction_markers.
  set (msg1 := fun marker => lit "Missing end marker for EXTRACT:" ++ marker).
  set (msg2 := fun marker => lit "Missing start marker for EXTRACT:" ++ marker).
  set (msg3 := fun marker => lit "Non-standard extraction marker: " ++ marker).
  set (s1 := report_missing (fun marker => error (msg1 marker)) _ _ self).
  set (s2 := report_missing (fun marker => error (msg2 marker)) _ _ s1).
  destruct (report_missing_errors msg1 (start_markers content) (end_markers content) self)
    as [He1 Hw1]. fold s1 in He1, Hw1.
  destruct (report_missing_errors msg2 (end_markers content) (start_markers content) s1)
    as [He2 Hw2]. fold s2 in He2, Hw2.
  destruct (report_missing_warnings msg3 (start_markers content) standard_names s2)
    as [He3 Hw3].
  split.
  - rewrite He3, He2, He1, <- app_assoc.
    rewrite <- (app_nil_r (errors self)) at 2.
    split.
    + intros [H1 H2]%app_inv_head%app_eq_nil.
      apply reports_none in H1. apply reports_none in H2.
      intros name Hne Hword. split; intros Hocc.
      * apply end_markers_spec, H1, start_markers_spec. done.
      * apply start_markers_spec, H2, end_markers_spec. done.
    + intros Hpair. f_equal. apply app_nil. split; apply reports_none.
      * intros name (Hne & Hword & Hocc)%start_markers_spec.
        apply end_markers_spec. split_and!; [done..|]. by apply Hpair.
      * intros name (Hne & Hword & Hocc)%end_markers_spec.
        apply start_markers_spec. split_and!; [done..|]. by apply Hpair.
  - rewrite Hw3, Hw2, Hw1.
    rewrite <- (app_nil_r (warnings self)) at 2.
    split.
    + intros H%app_inv_head%reports_none name Hne Hword Hocc.
      assert (Hin : name ∈ standard_names) by (apply H, start_markers_spec; done).
      unfold standard_names in Hin. by apply elem_of_list_to_set in Hin.
    + intros Hstd. f_equal. apply reports_none.
      intros name (Hne & Hword & Hocc)%start_markers_spec.
      unfold standard_names. apply elem_of_list_to_set. by apply Hstd.
Qed.

(** ** The markers that the fixer adds *)

Lemma replace_absent (old new s : str) :
  ~ occurs old s -> replace old new s = s.
Proof.
  unfold replace. induction s as [|c s IH]; intros Hno; simpl; [done|].
  destruct (starts_with old (c :: s)) eqn:E.
  - destruct Hno. apply starts_with_spec in E as [r ->]. by exists [], r.
  - f_equal. apply IH. intros H. apply Hno. by apply occurs_cons.
Qed.

(** An occurrence in two texts put together lies in the first, lies in
    the second, or goes over the joint. *)
Lemma occurs_app_cases (p a b : str) :
  occurs p (a ++ b) ->
  occurs p a \/ occurs p b
  \/ exists p1 p2 a' b', p = p1 ++ p2 /\ p1 <> [] /\ p2 <> []
                         /\ a = a' ++ p1 /\ b = p2 ++ b'.
Proof.
  intros (x & y & H). apply app_eq_inv in H as [(k & -> & H)|(k & -> & ->)].
  - apply app_eq_inv in H as [(k' & -> & ->)|(k' & -> & ->)].
    + destruct k as [|c k]; [right; left; by exists [], y|].
      destruct k' as [|c' k'].
      * left. exists x, []. by rewrite !app_nil_r.
      * right; right. by exists (c :: k), (c' :: k'), x, y.
    + left. by exists x, k'.
  - right; left. by exists k, y.
Qed.

Lemma find_next_section_eq (s : str) :
  find_next_section s
  = if starts_with (nl :: lit "### ") s
       && negb (starts_with (lit "MUST_FOLLOW") (drop 5 s))
    then Some 0
    else match s with
         | [] => None
         | _ :: s' => S <$> find_next_section s'
         end.
Proof. by destruct s. Qed.

Lemma find_next_section_Some (s : str) (i : nat) :
  find_next_section s = Some i ->
  exists b, drop i s = (nl :: lit "### ") ++ b /\ i <= length s.
Proof.
  revert i. induction s as [|c s IH]; intros i; rewrite find_next_section_eq.
  - done.
  - destruct (starts_with (nl :: lit "### ") (c :: s)) eqn:E;
      [destruct (negb _)|]; cbn [andb].
    + intros [= <-]. apply starts_with_spec in E as [b E]. exists b.
      split; [done | lia].
    + destruct (find_next_section s) as [j|]; [|done].
      intros [= <-]. destruct (IH j eq_refl) as (b & ? & ?). exists b.
      split; [done | simpl; lia].
    + destruct (find_next_section s) as [j|]; [|done].
      intros [= <-]. destruct (IH j eq_refl) as (b & ? & ?). exists b.
      split; [done | simpl; lia].
Qed.

Lemma find_next_section_found (s : str) :
  occurs (nl :: lit "### ") s -> ~ occurs (lit "### MUST_FOLLOW") s ->
  is_Some (find_next_section s).
Proof.
  intros (a & b & ->) Hno. induction a as [|c a IH].
  - rewrite find_next_section_eq, app_nil_l, starts_with_app.
    change (drop 5 ((nl :: lit "### ") ++ b)) with b.
    destruct (starts_with (lit "MUST_FOLLOW") b) eqn:E; [|by eexists].
    destruct Hno. apply starts_with_spec in E as [r ->]. by exists [nl], r.
  - destruct IH as [j Hj].
    { intros H. apply Hno. by apply occurs_cons. }
    rewrite find_next_section_eq. destruct (_ && _); [by eexists|].
    change (is_Some (S <$> find_next_section (a ++ (nl :: lit "### ") ++ b))).
    rewrite Hj. by eexists.
Qed.

Lemma occurs_app_l (p a b : str) : occurs p a -> occurs p (a ++ b).
Proof. intros (x & y & ->). exists x, (y ++ b). by rewrite <- !app_assoc. Qed.

(** Without a heading [### MUST_FOLLOW] the search for the next section
    finds the first heading of level three. *)
Lemma find_next_section_find (s : str) :
  ~ occurs (lit "### MUST_FOLLOW") s ->
  find_next_section s = find (nl :: lit "### ") s.
Proof.
  induction s as [|c s IH]; intros Hno; rewrite find_next_section_eq.
  - done.
  - cbn [find].
    destruct (starts_with (nl :: lit "### ") (c :: s)) eqn:E.
    + destruct (starts_with (lit "MUST_FOLLOW") (drop 5 (c :: s))) eqn:E'; [|done].
      destruct Hno. apply starts_with_spec in E as [r Hr]. rewrite Hr in E' |- *.
      change (drop 5 ((nl :: lit "### ") ++ r)) with r in E'.
      apply starts_with_spec in E' as [r' ->]. by exists [nl], r'.
    + cbn [andb]. rewrite IH; [done|].
      intros H. apply Hno. by apply occurs_cons.
Qed.

(** What the fixer makes of such a document: the closing marker is put
    before the first heading of level three, and nothing else changes. *)
Lemma add_markers_unmarked (content : str) :
  unmarked_level_two content ->
  exists before after,
    content = before ++ (nl :: lit "### ") ++ after
    /\ (forall x y, content = x ++ (nl :: lit "### ") ++ y ->
                    length before <= length x)
    /\ add_markers content
       = before ++ requirements_end ++ [nl] ++ (nl :: lit "### ") ++ after.
Proof.
  intros (Hsec & Hstart & Hthree & Hnext). unfold add_markers.
  apply contains_occurs in Hsec. rewrite Hsec.
  destruct (contains requirements_start content) eqn:E.
  { by apply contains_occurs in E. }
  cbn [negb andb]. rewrite replace_absent.
  2: { intros (x & y & ->). apply Hthree. exists x, (nl :: y).
       by rewrite <- !app_assoc. }
  rewrite find_next_section_find by done.
  destruct (find_occurs _ _ Hnext) as [i Hi]. rewrite Hi.
  destruct (find_Some _ _ _ Hi) as (before & after & Hcontent & Hlen & Hmin).
  exists before, after. split_and!; [done | by rewrite Hlen |].
  subst i. rewrite Hcontent at 1 2.
  by rewrite take_app_length, drop_app_length.
Qed.

Lemma no_start_after_end (a b : str) :
  ~ occurs requirements_start (a ++ (nl :: lit "### ") ++ b) ->
  ~ occurs requirements_start
      (a ++ requirements_end ++ [nl] ++ (nl :: lit "### ") ++ b).
Proof.
  intros Hno H.
  assert (Hlt : forall x y, tail requirements_start <> x ++ "<"%char :: y).
  { intros x y Hxy.
    assert (Hex : existsb (Ascii.eqb "<"%char) (tail requirements_start) = true).
    { apply existsb_exists. exists "<"%char. split; [|done].
      rewrite Hxy. apply in_or_app. right. by left. }
    discriminate Hex. }
  assert (Hnl : forall x y, requirements_start <> x ++ nl :: y).
  { intros x y Hxy.
    assert (Hex : existsb (Ascii.eqb nl) requirements_start = true).
    { apply existsb_exists. exists nl. split; [|done].
      rewrite Hxy. apply in_or_app. right. by left. }
    discriminate Hex. }
  apply occurs_app_cases in H as [H|[H|H]].
  - apply Hno. by apply occurs_app_l.
  - change (occurs requirements_start
              ((requirements_end ++ [nl]) ++ ((nl :: lit "### ") ++ b))) in H.
    apply occurs_app_cases in H as [H|[H|H]].
    + apply contains_occurs in H. discriminate H.
    + apply Hno. by apply occurs_app_r.
    + destruct H as (p1 & p2 & a' & b' & Hp & _ & Hp2 & _ & Hb).
      destruct p2 as [|c p2]; [done|]. injection Hb as <- _.
      by apply (Hnl p1 p2).
  - destruct H as (p1 & p2 & a' & b' & Hp & Hp1 & Hp2 & _ & Hb).
    destruct p2 as [|c p2]; [done|]. injection Hb as <- _.
    destruct p1 as [|c1 p1]; [done|].
    apply (Hlt p1 p2). by rewrite Hp.
Qed.

(** A name with a closing marker and no opening marker is reported. *)
Lemma missing_start_reported (content name : str) (self : RuleValidator) :
  name ∈ end_markers content -> name ∉ start_markers content ->
  lit "Missing start marker for EXTRACT:" ++ name
  ∈ errors (_validate_extraction_markers content self).
Proof.
  intros Hend Hstart. unfold _validate_extraction_markers.
  set (msg1 := fun marker => lit "Missing end marker for EXTRACT:" ++ marker).
  set (msg2 := fun marker => lit "Missing start marker for EXTRACT:" ++ marker).
  set (msg3 := fun marker => lit "Non-standard extraction marker: " ++ marker).
  set (s1 := report_missing (fun marker => error (msg1 marker)) _ _ self).
  set (s2 := report_missing (fun marker => error (msg2 marker)) _ _ s1).
  destruct (report_missing_errors msg2 (end_markers content) (start_markers content) s1)
    as [He2 _]. fold s2 in He2.
  destruct (report_missing_warnings msg3 (start_markers content) standard_names s2)
    as [He3 _].
  rewrite He3, He2. apply elem_of_app. right.
  apply (list_elem_of_fmap_2 msg2). apply list_elem_of_filter.
  split; [done | by apply elem_of_elements].
Qed.

(** X25.  On a document that keeps its requirements under [## MUST_FOLLOW]
    without markers, and that needs no other repair, [fix_common_issues]
    writes the closing marker of the requirements and a newline right
    before the first heading of level three, that is, before the newline
    in front of the first [### ]; it changes nothing else and writes no
    opening marker.  The check of the markers then reports the missing
    opening marker on the file it wrote. *)
Theorem fix_adds_closing_marker_only (fs : files) (rule_file content : str)
    (self : RuleValidator) :
  fs !! rule_file = Some content ->
  ids_padded (lit "REQ") content ->
  ids_padded (lit "ANT") content ->
  examples_renamed content ->
  unmarked_level_two content ->
  exists before after,
    content = before ++ (nl :: lit "### ") ++ after
    /\ (forall x y, content = x ++ (nl :: lit "### ") ++ y ->
                    length before <= length x)
    /\ fix_common_issues fs rule_file
       = Some (true,
               <[rule_file := before ++ requirements_end ++ [nl]
                              ++ (nl :: lit "### ") ++ after]> fs)
    /\ ~ occurs requirements_start
           (before ++ requirements_end ++ [nl] ++ (nl :: lit "### ") ++ after)
    /\ lit "Missing start marker for EXTRACT:requirements"
       ∈ errors (_validate_extraction_markers
                   (before ++ requirements_end ++ [nl]
                    ++ (nl :: lit "### ") ++ after) self).
Proof.
  intros Hfile Hreq Hant Hren Hun.
  destruct (add_markers_unmarked _ Hun) as (before & after & Hcontent & Hfirst & Hadd).
  assert (Hfixed : fixed_content content = add_markers content).
  { unfold fixed_content.
    rewrite (pad_ids_conformant _ _ Hreq), (pad_ids_conformant _ _ Hant).
    by destruct (rename_examples_conformant _ Hren) as [-> ->]. }
  exists before, after.
  assert (Hstart : ~ occurs requirements_start
                     (before ++ requirements_end ++ [nl]
                      ++ (nl :: lit "### ") ++ after)).
  { apply no_start_after_end. rewrite <- Hcontent. by destruct Hun as (_ & ? & _). }
  split_and!; [done | done | | done |].
  - unfold fix_common_issues. rewrite Hfile. cbn [mbind option_bind].
    rewrite Hfixed, Hadd, bool_decide_eq_true_2; [done|].
    intros Heq. rewrite Hcontent in Heq. apply (f_equal length) in Heq.
    rewrite !length_app in Heq. simpl in Heq. lia.
  - apply (missing_start_reported _ (lit "requirements")).
    + apply end_markers_spec. split_and!; [done | reflexivity |].
      by exists before, ([nl] ++ (nl :: lit "### ") ++ after).
    + by intros (_ & _ & ?)%start_markers_spec.
Qed.

Lemma gap_document_unmarked : unmarked_level_two gap_document.
Proof.
  split_and!.
  - apply contains_occurs. vm_compute. reflexivity.
  - intros H%contains_occurs. discriminate H.
  - intros H%contains_occurs. discriminate H.
  - apply contains_occurs. vm_compute. reflexivity.
Qed.

Lemma fix_adds_closing_marker_only_witness :
  exists before after,
    gap_document = before ++ (nl :: lit "### ") ++ after
    /\ (forall x y, gap_document = x ++ (nl :: lit "### ") ++ y ->
                    length before <= length x)
    /\ fix_common_issues {[lit "testing/test-naming.md" := gap_document]}
         (lit "testing/test-naming.md")
       = Some (true,
               <[lit "testing/test-naming.md"
                 := before ++ requirements_end ++ [nl]
                    ++ (nl :: lit "### ") ++ after]>
                 {[lit "testing/test-naming.md" := gap_document]})
    /\ ~ occurs requirements_start
           (before ++ requirements_end ++ [nl] ++ (nl :: lit "### ") ++ after)
    /\ lit "Missing start marker for EXTRACT:requirements"
       ∈ errors (_validate_extraction_markers
                   (before ++ requirements_end ++ [nl]
                    ++ (nl :: lit "### ") ++ after) new_validator).
Proof.
  apply (fix_adds_closing_marker_only _ _ gap_document).
  - apply lookup_singleton_eq.
  - apply ids_padded_check. vm_compute. reflexivity.
  - apply ids_padded_check. vm_compute. reflexivity.
  - apply examples_renamed_check. vm_compute. reflexivity.
  - exact gap_document_unmarked.
Defined.

(** The file that the fixer writes for the document of the example. *)
Example fixed_gap_document :
  fixed_content gap_document
  = unlines ["## MUST_FOLLOW";
             "1. **[REQ001]** Name the unit under test.";
             "2. **[REQ002]** Name the expected behaviour.";
             "3. **[REQ004]** Keep one assertion per test.<!-- EXTRACT:requirements:end -->";
             "";
             "### GOOD_EXAMPLE_001: first";
             "### GOOD_EXAMPLE_002: second";
             "### BAD_EXAMPLE_001: third"].
Proof. vm_compute. reflexivity. Qed.

(** ** The context of a task *)

Lemma runs_elem (keep : ascii -> bool) (cur s w : str) :
  forallb keep cur = true ->
  w ∈ runs keep cur s ->
  w <> [] /\ forallb keep w = true /\ occurs w (rev cur ++ s).
Proof.
  revert cur. induction s as [|c s IH]; intros cur Hcur.
  - simpl. destruct cur as [|c' cur]; [by intros ?%elem_of_nil|].
    intros ->%list_elem_of_singleton. split_and!.
    + intros H%(f_equal length). rewrite length_rev in H. done.
    + apply forallb_forall. intros x Hx%in_rev.
      rewrite forallb_forall in Hcur. by apply Hcur.
    + exists [], []. by rewrite !app_nil_r.
  - simpl. destruct (keep c) eqn:E.
    + intros H. apply IH in H as (? & ? & Hocc); [|by simpl; rewrite E].
      split_and!; [done..|]. simpl in Hocc. by rewrite <- app_assoc in Hocc.
    + intros [H|H]%elem_of_app.
      * destruct cur as [|c' cur]; [by apply elem_of_nil in H|].
        apply list_elem_of_singleton in H as ->. split_and!.
        -- intros H%(f_equal length). rewrite length_rev in H. done.
        -- apply forallb_forall. intros x Hx%in_rev.
           rewrite forallb_forall in Hcur. by apply Hcur.
        -- by exists [], (c :: s).
      * apply (IH []) in H as (? & ? & Hocc); [|done].
        split_and!; [done..|]. by apply occurs_app_r, occurs_cons.
Qed.

Lemma lower_char_not_upper (c : ascii) : is_upper (lower_char c) = false.
Proof. by destruct c as [[] [] [] [] [] [] [] []]. Qed.

(** X10.  The keywords of a task are words of its text in lower case: runs of
    four or more word characters, none of them an upper-case letter, that
    occur in the lowered text; none is one of the five stop words. *)
Theorem task_keywords (task : str) :
  Forall (fun k => 4 <= length k
                   /\ forallb is_word k = true
                   /\ forallb (fun c => negb (is_upper c)) k = true
                   /\ occurs k (lower task)
                   /\ k ∉ stop_words)
         (keywords (_analyze_task task)).
Proof.
  apply Forall_forall. intros k Hk. simpl in Hk.
  apply list_elem_of_In, filter_In in Hk as [Hk Hstop].
  apply filter_In in Hk as [Hk Hlen]. apply list_elem_of_In in Hk.
  apply (runs_elem is_word []) in Hk as (_ & Hword & Hocc); [|done].
  change (rev [] ++ lower task) with (lower task) in Hocc.
  split_and!; [by apply Nat.leb_le | done | | done |].
  - destruct Hocc as (a & b & Heq). apply forallb_forall. intros c Hc.
    assert (Hin : In c (lower task)).
    { rewrite Heq. apply in_or_app. right. apply in_or_app. by left. }
    apply in_map_iff in Hin as (c' & <- & _). by rewrite lower_char_not_upper.
  - apply negb_true_iff, bool_decide_eq_false in Hstop. done.
Qed.

(** ** The rules that are selected *)

Lemma fold_prerequisites (index : rules_index) (l : list str) (acc : gset str)
    (rule_id : str) :
  rule_id ∈ fold_left
              (fun acc rule_id =>
                 match dict_lookup rule_id index with
                 | Some rule => acc ∪ list_to_set (prerequisites rule)
                 | None => acc
                 end) l acc
  <-> rule_id ∈ acc
      \/ exists sel info, sel ∈ l /\ dict_lookup sel index = Some info
                          /\ rule_id ∈ prerequisites info.
Proof.
  revert acc. induction l as [|y l IH]; intros acc; simpl.
  - split; [by left|]. intros [?|(sel & info & ?%elem_of_nil & _)]; done.
  - rewrite IH. split.
    + intros [Hacc|(sel & info & Hsel & Hinfo & Hpre)].
      * destruct (dict_lookup y index) as [rule|] eqn:E; [|by left].
        apply elem_of_union in Hacc as [?|Hpre%elem_of_list_to_set]; [by left|].
        right. exists y, rule. split_and!; [left | done | done].
      * right. exists sel, info. split_and!; [by right | done | done].
    + intros [Hacc|(sel & info & [->|Hsel]%elem_of_cons & Hinfo & Hpre)].
      * left. destruct (dict_lookup y index); [|done].
        apply elem_of_union. by left.
      * left. rewrite Hinfo. apply elem_of_union. right.
        by apply elem_of_list_to_set.
      * right. by exists sel, info.
Qed.

(** X11.  A rule is selected for a context exactly when an entry of the index
    gives it a score of 8 or more, or when a rule selected in this way
    names it as a prerequisite; the prerequisites of a prerequisite are not
    followed, and a prerequisite need not be in the index.  No rule is
    selected twice. *)
Theorem select_rules_spec (index : rules_index) (ctx : context) :
  NoDup (_select_rules_for_context index ctx)
  /\ forall rule_id,
       rule_id ∈ _select_rules_for_context index ctx
       <-> selected_by_score index ctx rule_id
           \/ exists sel info,
                selected_by_score index ctx sel
                /\ dict_lookup sel index = Some info
                /\ rule_id ∈ prerequisites info.
Proof.
  unfold _select_rules_for_context. split; [apply NoDup_elements|].
  assert (Hsel : forall rule_id,
             rule_id ∈ (list_to_set
                          (map fst (List.filter
                                      (fun entry => 8 <=? rule_score ctx entry.2)
                                      index)) : gset str)
             <-> selected_by_score index ctx rule_id).
  { intros rule_id. rewrite elem_of_list_to_set, list_elem_of_fmap. split.
    - intros ([k rule] & -> & [Hin Hscore]%list_elem_of_In%filter_In).
      exists rule. split; [by apply list_elem_of_In | by apply Nat.leb_le].
    - intros (rule & Hin & Hscore). exists (rule_id, rule). split; [done|].
      apply list_elem_of_In, filter_In. split; [by apply list_elem_of_In|].
      by apply Nat.leb_le. }
  intros rule_id. rewrite elem_of_elements, fold_prerequisites, Hsel.
  split; (intros [?|(sel & info & Hs & ? & ?)]; [by left|right]);
    exists sel, info; split_and!; try done.
  - by apply Hsel, elem_of_elements.
  - by apply elem_of_elements, Hsel.
Qed.

(** ** The rules of a bundle *)

Lemma dict_keys_set_elem {A} (k k' : str) (v : A) (d : list (str * A)) :
  k' ∈ dict_keys (dict_set k v d) <-> k' = k \/ k' ∈ dict_keys d.
Proof.
  split; [apply dict_keys_set|].
  unfold dict_keys. induction d as [|[k0 v0] d IH]; simpl.
  - rewrite elem_of_cons, elem_of_nil. tauto.
  - case_bool_decide as Hk; simpl; rewrite !elem_of_cons.
    + subst k0. tauto.
    + intros [-> | [-> | H]]; tauto.
Qed.

Lemma dict_set_NoDup {A} (k : str) (v : A) (d : list (str * A)) :
  NoDup (dict_keys d) -> NoDup (dict_keys (dict_set k v d)).
Proof.
  unfold dict_keys. induction d as [|[k0 v0] d IH]; simpl.
  - intros _. apply NoDup_singleton.
  - rewrite NoDup_cons. intros [Hout Hd]. case_bool_decide as Hk; simpl.
    + subst k0. by apply NoDup_cons.
    + apply NoDup_cons. split; [|by apply IH].
      intros [?|?]%(dict_keys_set k k0 v d); done.
Qed.

Lemma dict_lookup_keys {A} (k : str) (d : list (str * A)) :
  is_Some (dict_lookup k d) <-> k ∈ dict_keys d.
Proof.
  unfold dict_keys. induction d as [|[k0 v0] d IH]; simpl.
  - rewrite elem_of_nil. split; [by intros [? ?]|done].
  - rewrite elem_of_cons. case_bool_decide; [|tauto].
    split; [by left | by eexists].
Qed.

Section BundleRules.
Context {lib : Library}.

Lemma build_rule_data_metadata (rule_id : str) (info : rule_info)
    (extractor : RuleExtractor) (sections : list str) :
  value_at ["metadata"%string] (build_rule_data rule_id info extractor sections)
  = Some (bundle_metadata rule_id info).
Proof. done. Qed.

(** The loop over the rule ids: the rules that it adds. *)
Lemma build_rules_spec (index : rules_index) (fs : files)
    (sections rule_ids : list str) (rules rules' : list (str * value)) :
  build_rules index fs sections rule_ids rules = Some rules' ->
  (NoDup (dict_keys rules) -> NoDup (dict_keys rules'))
  /\ (forall k, k ∈ dict_keys rules'
                <-> k ∈ dict_keys rules \/ (k ∈ rule_ids /\ available index fs k))
  /\ (forall k data,
        dict_lookup k rules' = Some data ->
        dict_lookup k rules = Some data
        \/ exists info extractor,
             dict_lookup k index = Some info
             /\ new_extractor fs (file_path info) = Some extractor
             /\ data = build_rule_data k info extractor sections).
Proof.
  revert rules. induction rule_ids as [|rule_id rest IH]; intros rules; simpl.
  - intros [= <-]. split_and!; [done | | by left].
    intros k. split; [by left|]. by intros [?|[?%elem_of_nil _]].
  - assert (Hskip : ~ available index fs rule_id ->
              build_rules index fs sections rest rules = Some rules' ->
              (NoDup (dict_keys rules) -> NoDup (dict_keys rules'))
              /\ (forall k, k ∈ dict_keys rules'
                            <-> k ∈ dict_keys rules
                                \/ (k ∈ rule_id :: rest /\ available index fs k))
              /\ (forall k data,
                    dict_lookup k rules' = Some data ->
                    dict_lookup k rules = Some data
                    \/ exists info extractor,
                         dict_lookup k index = Some info
                         /\ new_extractor fs (file_path info) = Some extractor
                         /\ data = build_rule_data k info extractor sections)).
    { intros Hno (Hnodup & Hkeys & Hdata)%IH. split_and!; [done | | done].
      intros k. rewrite Hkeys, elem_of_cons. split; [tauto|].
      intros [?|[[->|?] ?]]; tauto. }
    destruct (dict_lookup rule_id index) as [info|] eqn:Hinfo.
    2: { apply Hskip. intros (? & ? & _). congruence. }
    destruct (fs !! file_path info) as [text|] eqn:Hfile.
    2: { apply Hskip. intros (info' & Hinfo' & [? ?]). congruence. }
    destruct (new_extractor fs (file_path info)) as [extractor|] eqn:Hext;
      cbn [mbind option_bind]; [|done].
    intros (Hnodup & Hkeys & Hdata)%IH. split_and!.
    + intros H. by apply Hnodup, dict_set_NoDup.
    + intros k. rewrite Hkeys, dict_keys_set_elem, elem_of_cons. split.
      * intros [[->|?]|[? ?]]; [|tauto..].
        right. split; [by left|]. exists info. by rewrite Hfile.
      * intros [?|[[->|?] ?]]; tauto.
    + intros k data Hk. apply Hdata in Hk as [Hk|Hk]; [|by right].
      rewrite dict_lookup_set in Hk. case_bool_decide as Heq; [|by left].
      injection Hk as <-. subst k. right. by exists info, extractor.
Qed.

(** X12.  The rules of a bundle are the rules asked for that are in the index
    and whose file exists, each of them once; the metadata of a rule
    carries its id and the category, the language and the severity that
    the index gives for it. *)
Theorem build_bundle_rules (index : rules_index) (fs : files)
    (rule_ids sections : list str) (bundle : value) :
  _build_bundle index fs rule_ids sections = Some bundle ->
  exists rules,
    bundle = VDict [(lit "rules", VDict rules)]
    /\ NoDup (dict_keys rules)
    /\ (forall rule_id,
          rule_id ∈ dict_keys rules
          <-> rule_id ∈ rule_ids /\ available index fs rule_id)
    /\ (forall rule_id data,
          dict_lookup rule_id rules = Some data ->
          exists info,
            dict_lookup rule_id index = Some info
            /\ value_at ["metadata"%string] data
               = Some (bundle_metadata rule_id info)).
Proof.
  unfold _build_bundle.
  destruct (build_rules index fs sections rule_ids []) as [rules|] eqn:E;
    cbn [mbind option_bind]; [|done].
  intros [= <-]. exists rules.
  apply build_rules_spec in E as (Hnodup & Hkeys & Hdata).
  split_and!; [done | apply Hnodup, NoDup_nil_2 | |].
  - intros rule_id. rewrite Hkeys. split; [|tauto].
    by intros [?%elem_of_nil|?].
  - intros rule_id data [?|(info & extractor & ? & _ & ->)]%Hdata; [done|].
    by exists info.
Qed.

End BundleRules.

Lemma build_bundle_rules_witness :
  exists rules,
    testing_bundle = VDict [(lit "rules", VDict rules)]
    /\ NoDup (dict_keys rules)
    /\ (forall rule_id,
          rule_id ∈ dict_keys rules
          <-> rule_id ∈ [lit "typescript-test-naming"; lit "no-such-rule";
                         lit "universal-test-naming"]
              /\ available example_index rule_files rule_id)
    /\ (forall rule_id data,
          dict_lookup rule_id rules = Some data ->
          exists info,
            dict_lookup rule_id example_index = Some info
            /\ value_at ["metadata"%string] data
               = Some (bundle_metadata rule_id info)).
Proof.
  apply (@build_bundle_rules ExampleLibrary.example_library example_index rule_files
           _ [lit "RULE_SUMMARY"; lit "requirements"]).
  vm_compute. reflexivity.
Defined.

(** ** The bundle of a task *)

Lemma json_dumps_grows (k1 k2 : str) (v1 v2 : value) :
  length (json_dumps (VDict [(k1, v1); (k2, v2)]))
  = length (json_dumps (VDict [(k1, v1)])) + 6 + length (flat_map json_char k2)
    + length (json_dumps v2).
Proof.
  change (json_dumps (VDict [(k1, v1); (k2, v2)]))
    with (lit "{" ++ ((json_str k1 ++ lit ": " ++ json_dumps v1) ++ lit ", "
                      ++ (json_str k2 ++ lit ": " ++ json_dumps v2)) ++ lit "}").
  change (json_dumps (VDict [(k1, v1)]))
    with (lit "{" ++ (json_str k1 ++ lit ": " ++ json_dumps v1) ++ lit "}").
  unfold json_str. rewrite !length_app. simpl. lia.
Qed.

Lemma determine_sections_summary (task : str) :
  exists rest, _determine_sections_for_task task = lit "RULE_SUMMARY" :: rest.
Proof. unfold _determine_sections_for_task. repeat case_match; by eexists. Qed.

Section BundleForTask.
Context {lib : Library}.

Lemma add_section_keeps (extractor : RuleExtractor) (sections : list (str * value))
    (section key : str) :
  key ∈ dict_keys sections -> key ∈ dict_keys (add_section extractor sections section).
Proof.
  intros Hkey. unfold add_section.
  repeat case_match; try done; apply dict_keys_set_elem; by right.
Qed.

Lemma fold_add_section_keeps (extractor : RuleExtractor) (names : list str)
    (sections : list (str * value)) (key : str) :
  key ∈ dict_keys sections ->
  key ∈ dict_keys (fold_left (add_section extractor) names sections).
Proof.
  revert sections. induction names as [|s names IH]; intros sections Hkey; simpl.
  - done.
  - by apply IH, add_section_keeps.
Qed.


(** X13.  The bundle of a task: every rule in it has a summary among its
    sections; [rule_count] is the number of the rule ids that were
    selected for the context of the task, each counted once; the rules of
    the bundle are the selected ones that have an entry in the index and a
    file, so that [rule_count] is the number of rules in the bundle or
    more; and [token_estimate] is the estimate of the bundle before the
    metadata was added, which is less than the estimate of the bundle that
    is returned. *)
Theorem bundle_for_task_metadata (index : rules_index) (fs : files)
    (task_description : str) (bundle : value) :
  bundle_for_task index fs task_description = Some bundle ->
  exists rules meta,
    bundle = VDict [(lit "rules", VDict rules); (lit "metadata", VDict meta)]
    /\ (forall rule_id data,
          dict_lookup rule_id rules = Some data ->
          exists sections,
            value_at ["sections"%string] data = Some (VDict sections)
            /\ lit "summary" ∈ dict_keys sections)
    /\ dict_lookup (lit "rule_count") meta
       = Some (VInt (Z.of_nat
                       (length (_select_rules_for_context index
                                  (_analyze_task task_description)))))
    /\ NoDup (_select_rules_for_context index (_analyze_task task_description))
    /\ (forall rule_id,
          rule_id ∈ dict_keys rules
          <-> rule_id ∈ _select_rules_for_context index
                          (_analyze_task task_description)
              /\ available index fs rule_id)
    /\ length rules
       <= length (_select_rules_for_context index (_analyze_task task_description))
    /\ (exists t, dict_lookup (lit "token_estimate") meta = Some (VInt (Z.of_nat t))
                  /\ t = _estimate_tokens (VDict [(lit "rules", VDict rules)])
                  /\ t < _estimate_tokens bundle).
Proof.
  unfold bundle_for_task.
  set (ctx := _analyze_task task_description).
  set (selected := _select_rules_for_context index ctx).
  destruct (_build_bundle index fs selected _) as [base|] eqn:Hbase;
    cbn [mbind option_bind]; [|done].
  unfold _build_bundle in Hbase.
  destruct (build_rules index fs _ selected []) as [rules|] eqn:Hrules;
    cbn [mbind option_bind] in Hbase; [|done].
  injection Hbase as <-. intros [= <-].
  apply build_rules_spec in Hrules as (Hnodup & Hkeys & Hdata).
  eexists rules, _. split_and!.
  - reflexivity.
  - intros rule_id data [?|(info & extractor & _ & _ & ->)]%Hdata; [done|].
    eexists. split; [reflexivity|].
    destruct (determine_sections_summary task_description) as [rest ->].
    cbn [fold_left]. apply fold_add_section_keeps.
    unfold add_section. rewrite bool_decide_eq_true_2 by done. by left.
  - reflexivity.
  - apply NoDup_elements.
  - intros rule_id. rewrite Hkeys. split; [|tauto].
    by intros [?%elem_of_nil|?].
  - rewrite <- (length_map fst rules). apply submseteq_length, NoDup_submseteq.
    + apply Hnodup, NoDup_nil_2.
    + intros k [?%elem_of_nil|[? _]]%Hkeys; done.
  - eexists. split_and!; [reflexivity | reflexivity |].
    unfold _estimate_tokens.
    change (dict_set (lit "metadata") ?m [(lit "rules", VDict rules)])
      with [(lit "rules", VDict rules); (lit "metadata", m)].
    rewrite json_dumps_grows.
    set (a := length (json_dumps (VDict [(lit "rules", VDict rules)]))).
    set (b := length (json_dumps _)).
    change (length (flat_map json_char (lit "metadata"))) with 8.
    pose proof (Nat.div_mod_eq a 4). pose proof (Nat.mod_upper_bound a 4).
    pose proof (Nat.div_mod_eq (a + 6 + 8 + b) 4).
    pose proof (Nat.mod_upper_bound (a + 6 + 8 + b) 4). lia.
Qed.

End BundleForTask.

Lemma bundle_for_task_metadata_witness :
  exists rules meta,
    review_bundle = VDict [(lit "rules", VDict rules); (lit "metadata", VDict meta)]
    /\ (forall rule_id data,
          dict_lookup rule_id rules = Some data ->
          exists sections,
            value_at ["sections"%string] data = Some (VDict sections)
            /\ lit "summary" ∈ dict_keys sections)
    /\ dict_lookup (lit "rule_count") meta
       = Some (VInt (Z.of_nat
                       (length (_select_rules_for_context example_index
                                  (_analyze_task review_task)))))
    /\ NoDup (_select_rules_for_context example_index (_analyze_task review_task))
    /\ (forall rule_id,
          rule_id ∈ dict_keys rules
          <-> rule_id ∈ _select_rules_for_context example_index
                          (_analyze_task review_task)
              /\ available example_index rule_files rule_id)
    /\ length rules
       <= length (_select_rules_for_context example_index (_analyze_task review_task))
    /\ (exists t, dict_lookup (lit "token_estimate") meta = Some (VInt (Z.of_nat t))
                  /\ t = _estimate_tokens (VDict [(lit "rules", VDict rules)])
                  /\ t < _estimate_tokens review_bundle).
Proof.
  apply (@bundle_for_task_metadata ExampleLibrary.example_library example_index
           rule_files review_task).
  vm_compute. reflexivity.
Defined.

(** ** The bundle of a language and of categories *)

Lemma dict_lookup_elem {A} (k : str) (v : A) (d : list (str * A)) :
  NoDup (dict_keys d) -> (k, v) ∈ d <-> dict_lookup k d = Some v.
Proof.
  unfold dict_keys. induction d as [|[k0 v0] d IH]; simpl.
  - intros _. by rewrite elem_of_nil.
  - rewrite NoDup_cons, elem_of_cons. intros [Hout Hd]. case_bool_decide as Hk.
    + subst k0. split; [|intros [= ->]; by left].
      intros [[= ->]|Hin]; [done|]. destruct Hout.
      apply list_elem_of_fmap. by exists (k, v).
    + rewrite <- (IH Hd). split; [|tauto]. intros [[= -> ->]|?]; done.
Qed.

Section BundleByCriteria.
Context {lib : Library}.

(** X14.  The bundle of [bundle_by_criteria] holds exactly the rules of the
    index whose file exists and which pass the filters, for an index with
    one entry for an id. *)
Theorem bundle_by_criteria_rules (index : rules_index) (fs : files)
    (language_arg : option str) (categories_arg sections : option (list str))
    (bundle : value) :
  NoDup (dict_keys index) ->
  bundle_by_criteria index fs language_arg categories_arg sections = Some bundle ->
  exists rules,
    bundle = VDict [(lit "rules", VDict rules)]
    /\ forall rule_id,
         rule_id ∈ dict_keys rules
         <-> exists info,
               dict_lookup rule_id index = Some info
               /\ is_Some (fs !! file_path info)
               /\ meets_criteria language_arg categories_arg info.
Proof.
  intros Hindex. unfold bundle_by_criteria, _build_bundle.
  set (passes := fun entry : str * rule_info => _ && _).
  destruct (build_rules index fs _ _ []) as [rules|] eqn:E;
    cbn [mbind option_bind]; [|done].
  intros [= <-]. exists rules. split; [done|].
  apply build_rules_spec in E as (_ & Hkeys & _).
  assert (Hpasses : forall entry,
             passes entry = true
             <-> meets_criteria language_arg categories_arg entry.2).
  { intros entry. unfold passes, meets_criteria. rewrite andb_true_iff.
    destruct language_arg as [[|c l]|], categories_arg as [[|c' cs]|];
      rewrite ?bool_decide_eq_true; tauto. }
  intros rule_id. rewrite Hkeys, list_elem_of_fmap. split.
  - intros [?%elem_of_nil|[(entry & -> & Hin) (info & Hinfo & Hfile)]]; [done|].
    apply list_elem_of_In, filter_In in Hin as [Hin Hp].
    apply list_elem_of_In in Hin. destruct entry as [k info']. simpl in *.
    apply (dict_lookup_elem _ _ _ Hindex) in Hin.
    assert (info' = info) as -> by congruence.
    exists info. split_and!; [done | done | by apply (Hpasses (k, info))].
  - intros (info & Hinfo & Hfile & Hmeets). right. split; [|by exists info].
    exists (rule_id, info). split; [done|].
    apply list_elem_of_In, filter_In. split.
    + by apply list_elem_of_In, dict_lookup_elem.
    + by apply Hpasses.
Qed.

End BundleByCriteria.

Lemma bundle_by_criteria_rules_witness :
  exists rules,
    typescript_bundle = VDict [(lit "rules", VDict rules)]
    /\ forall rule_id,
         rule_id ∈ dict_keys rules
         <-> exists info,
               dict_lookup rule_id example_index = Some info
               /\ is_Some (rule_files !! file_path info)
               /\ meets_criteria (Some (lit "typescript")) None info.
Proof.
  apply (@bundle_by_criteria_rules ExampleLibrary.example_library example_index
           rule_files (Some (lit "typescript")) None None).
  - apply (bool_decide_unpack _). vm_compute. reflexivity.
  - vm_compute. reflexivity.
Defined.

(** ** The diff of the metadata *)

Lemma forallb_ext_in {A} (f g : A -> bool) (l : list A) :
  (forall x, In x l -> f x = g x) -> forallb f l = forallb g l.
Proof.
  induction l as [|x l IH]; intros H; simpl; [done|].
  rewrite (H x) by (by left). f_equal. apply IH. intros y Hy. apply H. by right.
Qed.

Lemma existsb_ext_in {A} (f g : A -> bool) (l : list A) :
  (forall x, In x l -> f x = g x) -> existsb f l = existsb g l.
Proof.
  induction l as [|x l IH]; intros H; simpl; [done|].
  rewrite (H x) by (by left). f_equal. apply IH. intros y Hy. apply H. by right.
Qed.

Lemma float_eqb_sym (x y : float) : float_eqb x y = float_eqb y x.
Proof.
  destruct x as [ | a | p r], y as [ | b | q r']; simpl; try done.
  - by destruct a, b.
  - apply eq_true_iff_eq. rewrite !Qeq_bool_iff. split; intros H; by symmetry.
Qed.

(** [a == b] is [b == a]. *)
Lemma value_eqb_sym (a b : value) : value_eqb a b = value_eqb b a.
Proof.
  revert b.
  induction a as [ | x | n | x | s | l IH | d IH] using value_nested_ind;
    intros [ | y | m | y | t | l' | d']; try reflexivity.
  - by destruct x, y.
  - apply Z.eqb_sym.
  - apply float_eqb_sym.
  - simpl. apply bool_decide_ext. split; congruence.
  - simpl. revert l'. induction IH as [|x l Hx _ IHl]; intros [|y l']; try done.
    by rewrite Hx, IHl, (andb_comm (is_nan x)).
  - simpl. rewrite Forall_forall in IH. rewrite andb_comm. f_equal.
    + apply forallb_ext_in. intros kv2 _. apply existsb_ext_in. intros kv1 Hin.
      rewrite (IH kv1) by (by apply list_elem_of_In).
      rewrite (andb_comm (is_nan kv1.2)). f_equal.
      apply bool_decide_ext. split; congruence.
    + apply forallb_ext_in. intros kv1 Hin. apply existsb_ext_in. intros kv2 _.
      rewrite (IH kv1) by (by apply list_elem_of_In).
      rewrite (andb_comm (is_nan kv1.2)). f_equal.
      apply bool_decide_ext. split; congruence.
Qed.

(** The loop of [_diff_metadata] over keys that have been seen. *)
Lemma fold_diff_metadata (meta1 meta2 : list (str * value)) (keys seen : list str)
    (changes : metadata_diff) :
  (forall key,
     added changes !! key
     = (if bool_decide (key ∈ seen) then added_value meta1 meta2 key else None)
     /\ removed changes !! key
        = (if bool_decide (key ∈ seen) then removed_value meta1 meta2 key else None)
     /\ modified changes !! key
        = (if bool_decide (key ∈ seen) then modified_value meta1 meta2 key else None)) ->
  forall key,
    let result := fold_left (diff_metadata_key meta1 meta2) keys changes in
    added result !! key
    = (if bool_decide (key ∈ seen ++ keys) then added_value meta1 meta2 key else None)
    /\ removed result !! key
       = (if bool_decide (key ∈ seen ++ keys) then removed_value meta1 meta2 key
          else None)
    /\ modified result !! key
       = (if bool_decide (key ∈ seen ++ keys) then modified_value meta1 meta2 key
          else None).
Proof.
  revert seen changes. induction keys as [|k keys IH]; intros seen changes Hinv key.
  - simpl. rewrite app_nil_r. apply Hinv.
  - simpl. replace (seen ++ k :: keys) with ((seen ++ [k]) ++ keys)
      by (by rewrite <- app_assoc).
    apply IH. clear key. intros key. destruct (Hinv key) as (Ha & Hr & Hm).
    unfold diff_metadata_key, added_value, removed_value, modified_value in *.
    destruct (decide (key = k)) as [->|Hne].
    + rewrite (bool_decide_eq_true_2 (k ∈ seen ++ [k]))
        by (apply elem_of_app; right; left).
      destruct (dict_lookup k meta1) as [v1|], (dict_lookup k meta2) as [v2|];
        try destruct (value_eqb v1 v2); simpl;
        rewrite ?lookup_insert_eq, ?Ha, ?Hr, ?Hm; repeat case_bool_decide; done.
    + assert (Hseen : bool_decide (key ∈ seen ++ [k]) = bool_decide (key ∈ seen)).
      { apply bool_decide_ext. rewrite elem_of_app, list_elem_of_singleton. tauto. }
      rewrite Hseen.
      destruct (dict_lookup k meta1) as [v1|], (dict_lookup k meta2) as [v2|];
        try destruct (value_eqb v1 v2); simpl;
        rewrite ?lookup_insert_ne by done; done.
Qed.

Lemma dict_lookup_None {A} (k : str) (d : list (str * A)) :
  k ∉ dict_keys d -> dict_lookup k d = None.
Proof.
  intros Hk. destruct (dict_lookup k d) eqn:E; [|done].
  destruct Hk. apply dict_lookup_keys. by rewrite E.
Qed.

Lemma diff_metadata_lookup (meta1 meta2 : list (str * value)) :
  exists changes,
    _diff_metadata (VDict meta1) (VDict meta2) = Some changes
    /\ forall key,
         added changes !! key = added_value meta1 meta2 key
         /\ removed changes !! key = removed_value meta1 meta2 key
         /\ modified changes !! key = modified_value meta1 meta2 key.
Proof.
  set (keys := elements (list_to_set (dict_keys meta1)
                         ∪ list_to_set (dict_keys meta2) : gset str)).
  exists (fold_left (diff_metadata_key meta1 meta2) keys
            {| added := ∅; removed := ∅; modified := ∅ |}).
  split; [done|]. intros key.
  destruct (fold_diff_metadata meta1 meta2 keys []
              {| added := ∅; removed := ∅; modified := ∅ |}
              (fun key => conj (lookup_empty key)
                            (conj (lookup_empty key) (lookup_empty key))) key)
    as (Ha & Hr & Hm).
  cbn zeta in Ha, Hr, Hm. rewrite app_nil_l in Ha, Hr, Hm.
  destruct (decide (key ∈ keys)) as [Hin|Hin].
  - rewrite bool_decide_eq_true_2 in Ha, Hr, Hm by done. done.
  - rewrite bool_decide_eq_false_2 in Ha, Hr, Hm by done. rewrite Ha, Hr, Hm.
    unfold keys in Hin.
    rewrite elem_of_elements, elem_of_union, !elem_of_list_to_set in Hin.
    unfold added_value, removed_value, modified_value.
    rewrite !dict_lookup_None by tauto. done.
Qed.


(** ** The diff of the records *)

Lemma by_id_elem {A} (id_of : A -> str) (records : list A) (k : str) (r : A) :
  by_id id_of records !! k = Some r -> r ∈ records /\ id_of r = k.
Proof.
  unfold by_id.
  assert (H : forall (m : gmap str A),
             fold_left (fun m r => <[id_of r := r]> m) records m !! k = Some r ->
             (r ∈ records /\ id_of r = k) \/ m !! k = Some r).
  { induction records as [|x records IH]; intros m; simpl; [by right|].
    intros [[Hin Hid]|Hm]%IH.
    - left. split; [by right | done].
    - rewrite lookup_insert in Hm. case_decide as Hk; [|by right].
      injection Hm as <-. left. split; [by left | done]. }
  intros [?|Hm]%H; [done|]. by rewrite lookup_empty in Hm.
Qed.

Lemma by_id_is_Some {A} (id_of : A -> str) (records : list A) (k : str) :
  is_Some (by_id id_of records !! k) <-> k ∈ map id_of records.
Proof.
  unfold by_id.
  assert (H : forall (m : gmap str A),
             is_Some (fold_left (fun m r => <[id_of r := r]> m) records m !! k)
             <-> k ∈ map id_of records \/ is_Some (m !! k)).
  { induction records as [|x records IH]; intros m; simpl.
    - rewrite elem_of_nil. tauto.
    - rewrite IH, lookup_insert_is_Some, elem_of_cons. split.
      + intros [?|[<-|[? ?]]]; [left; by right | left; by left | by right].
      + intros [[->|?]|?]; [right; by left | by left |].
        destruct (decide (id_of x = k)); [right; by left | right; by right]. }
  rewrite H, lookup_empty. split; [intros [?|[? ?]]; done | by left].
Qed.

(** With one record for an id, the index by id holds the records. *)
Lemma by_id_lookup {A} (id_of : A -> str) (records : list A) (k : str) (r : A) :
  NoDup (map id_of records) ->
  by_id id_of records !! k = Some r <-> r ∈ records /\ id_of r = k.
Proof.
  intros Hnodup. split; [apply by_id_elem|]. intros [Hin <-].
  destruct (proj2 (by_id_is_Some id_of records (id_of r))) as [r' Hr'].
  { apply list_elem_of_fmap. by exists r. }
  rewrite Hr'. f_equal. apply by_id_elem in Hr' as [Hin' Hid].
  apply list_elem_of_lookup_1 in Hin as [i Hi].
  apply list_elem_of_lookup_1 in Hin' as [j Hj].
  assert (i = j); [|congruence].
  apply (NoDup_lookup _ i j (id_of r) Hnodup); rewrite list_lookup_fmap.
  - by rewrite Hi.
  - rewrite Hj. simpl. by rewrite Hid.
Qed.

(** The loop over the ids, as three lists. *)
Lemma fold_diff_records {A S} `{EqDecision A} (sim : A -> A -> S)
    (by_id1 by_id2 : gmap str A) (keys : list str)
    (changes : changes (list A) (list (modification A S))) :
  let result := fold_left (diff_record_key sim by_id1 by_id2) keys changes in
  added result
  = added changes
    ++ omap (fun k => match by_id1 !! k with
                      | None => by_id2 !! k
                      | Some _ => None
                      end) keys
  /\ removed result
     = removed changes
       ++ omap (fun k => match by_id2 !! k with
                         | None => by_id1 !! k
                         | Some _ => None
                         end) keys
  /\ modified result
     = modified changes
       ++ omap (fun k => match by_id1 !! k, by_id2 !! k with
                         | Some r1, Some r2 =>
                             if bool_decide (r1 <> r2)
                             then Some {| m_id := k; m_old := r1; m_new := r2;
                                          m_similarity := sim r1 r2 |}
                             else None
                         | _, _ => None
                         end) keys.
Proof.
  revert changes. induction keys as [|k keys IH]; intros changes.
  - simpl. by rewrite !app_nil_r.
  - cbn zeta in *. cbn [fold_left omap list_omap].
    destruct (IH (diff_record_key sim by_id1 by_id2 changes k)) as (-> & -> & ->).
    unfold diff_record_key. cbn beta.
    destruct (by_id1 !! k) as [r1|], (by_id2 !! k) as [r2|];
      try case_bool_decide; simpl; by rewrite <- ?app_assoc.
Qed.

Lemma omap_NoDup {A B} (f : A -> option B) (l : list A) :
  NoDup l ->
  (forall x y z, f x = Some z -> f y = Some z -> x = y) ->
  NoDup (omap f l).
Proof.
  intros Hl Hinj. induction Hl as [|x l Hx Hl IH]; simpl; [constructor|].
  destruct (f x) as [z|] eqn:E; [|done]. constructor; [|done].
  intros (y & Hy & Hfy)%list_elem_of_omap.
  by rewrite (Hinj _ _ _ E Hfy) in Hx.
Qed.

(** X16.  The diff of two lists of records with one record for an id: a record
    is added when it is in the second list and its id is not in the first,
    removed when it is in the first list and its id is not in the second,
    and modified when the two lists have records of its id that are not
    equal; the entry of a modified record carries the two records and their
    similarity.  No record is reported twice.  This is the loop of
    [_diff_requirements] and of [_diff_antipatterns]. *)
Theorem diff_records_spec {A S} `{EqDecision A} (id_of : A -> str)
    (sim : A -> A -> S) (records1 records2 : list A) :
  NoDup (map id_of records1) ->
  NoDup (map id_of records2) ->
  (forall r, r ∈ added (diff_records id_of sim records1 records2)
             <-> r ∈ records2 /\ id_of r ∉ map id_of records1)
  /\ (forall r, r ∈ removed (diff_records id_of sim records1 records2)
                <-> r ∈ records1 /\ id_of r ∉ map id_of records2)
  /\ (forall m, m ∈ modified (diff_records id_of sim records1 records2)
                <-> m_old m ∈ records1 /\ m_new m ∈ records2
                    /\ id_of (m_old m) = m_id m /\ id_of (m_new m) = m_id m
                    /\ m_old m <> m_new m
                    /\ m_similarity m = sim (m_old m) (m_new m))
  /\ NoDup (added (diff_records id_of sim records1 records2))
  /\ NoDup (removed (diff_records id_of sim records1 records2))
  /\ NoDup (modified (diff_records id_of sim records1 records2)).
Proof.
  intros Hnodup1 Hnodup2. unfold diff_records.
  set (by_id1 := by_id id_of records1). set (by_id2 := by_id id_of records2).
  set (keys := elements (dom by_id1 ∪ dom by_id2)).
  destruct (fold_diff_records sim by_id1 by_id2 keys
              {| added := []; removed := []; modified := [] |}) as (-> & -> & ->).
  cbn [added removed modified app].
  assert (Hkeys : forall k, k ∈ keys <-> is_Some (by_id1 !! k) \/ is_Some (by_id2 !! k)).
  { intros k. unfold keys. by rewrite elem_of_elements, elem_of_union, !elem_of_dom. }
  assert (Hnone : forall records k,
             by_id id_of records !! k = None <-> k ∉ map id_of records).
  { intros records k. rewrite <- by_id_is_Some, eq_None_not_Some. done. }
  split_and!.
  - intros r. rewrite list_elem_of_omap. split.
    + intros (k & _ & Hk). destruct (by_id1 !! k) eqn:E1; [done|].
      apply by_id_lookup in Hk as [Hin <-]; [|done].
      split; [done|]. by apply Hnone.
    + intros [Hin Hout]. exists (id_of r).
      apply Hnone in Hout. fold by_id1 in Hout. rewrite Hout.
      assert (Hr : by_id2 !! id_of r = Some r) by (by apply by_id_lookup).
      split; [|done]. apply Hkeys. right. by rewrite Hr.
  - intros r. rewrite list_elem_of_omap. split.
    + intros (k & _ & Hk). destruct (by_id2 !! k) eqn:E2; [done|].
      apply by_id_lookup in Hk as [Hin <-]; [|done].
      split; [done|]. by apply Hnone.
    + intros [Hin Hout]. exists (id_of r).
      apply Hnone in Hout. fold by_id2 in Hout. rewrite Hout.
      assert (Hr : by_id1 !! id_of r = Some r) by (by apply by_id_lookup).
      split; [|done]. apply Hkeys. left. by rewrite Hr.
  - intros m. rewrite list_elem_of_omap. split.
    + intros (k & _ & Hk).
      destruct (by_id1 !! k) as [r1|] eqn:E1; [|done].
      destruct (by_id2 !! k) as [r2|] eqn:E2; [|done].
      case_bool_decide as Hne; [|done]. injection Hk as <-. simpl.
      apply by_id_lookup in E1 as [? ?]; [|done].
      apply by_id_lookup in E2 as [? ?]; [|done]. done.
    + intros (Hin1 & Hin2 & Hid1 & Hid2 & Hne & Hsim). exists (m_id m).
      assert (H1 : by_id1 !! m_id m = Some (m_old m)) by (by apply by_id_lookup).
      assert (H2 : by_id2 !! m_id m = Some (m_new m)) by (by apply by_id_lookup).
      split; [apply Hkeys; left; by rewrite H1|].
      rewrite H1, H2, bool_decide_eq_true_2 by done. f_equal.
      destruct m. simpl in *. by subst.
  - apply omap_NoDup; [apply NoDup_elements|]. intros x y z Hx Hy.
    destruct (by_id1 !! x), (by_id1 !! y); try done.
    apply by_id_elem in Hx as [_ <-]. by apply by_id_elem in Hy as [_ <-].
  - apply omap_NoDup; [apply NoDup_elements|]. intros x y z Hx Hy.
    destruct (by_id2 !! x), (by_id2 !! y); try done.
    apply by_id_elem in Hx as [_ <-]. by apply by_id_elem in Hy as [_ <-].
  - apply omap_NoDup; [apply NoDup_elements|]. intros x y z Hx Hy.
    destruct (by_id1 !! x), (by_id2 !! x), (by_id1 !! y), (by_id2 !! y); try done.
    repeat case_bool_decide; try done. injection Hx as <-. by injection Hy as <-.
Qed.

Lemma diff_records_spec_witness :
  (forall r, r ∈ added (@_diff_requirements ExampleLibrary.example_library
                          old_requirements new_requirements)
             <-> r ∈ new_requirements /\ r_id r ∉ map r_id old_requirements)
  /\ (forall r, r ∈ removed (@_diff_requirements ExampleLibrary.example_library
                               old_requirements new_requirements)
                <-> r ∈ old_requirements /\ r_id r ∉ map r_id new_requirements)
  /\ (forall m, m ∈ modified (@_diff_requirements ExampleLibrary.example_library
                                old_requirements new_requirements)
                <-> m_old m ∈ old_requirements /\ m_new m ∈ new_requirements
                    /\ r_id (m_old m) = m_id m /\ r_id (m_new m) = m_id m
                    /\ m_old m <> m_new m
                    /\ m_similarity m
                       = @_calculate_similarity ExampleLibrary.example_library
                           (r_requirement (m_old m)) (r_requirement (m_new m)))
  /\ NoDup (added (@_diff_requirements ExampleLibrary.example_library
                     old_requirements new_requirements))
  /\ NoDup (removed (@_diff_requirements ExampleLibrary.example_library
                       old_requirements new_requirements))
  /\ NoDup (modified (@_diff_requirements ExampleLibrary.example_library
                        old_requirements new_requirements)).
Proof.
  apply (diff_records_spec r_id
           (fun r1 r2 => @_calculate_similarity ExampleLibrary.example_library
                           (r_requirement r1) (r_requirement r2))
           old_requirements new_requirements).
  - apply (bool_decide_unpack _). vm_compute. reflexivity.
  - apply (bool_decide_unpack _). vm_compute. reflexivity.
Defined.

(** The diff of the two versions of the example. *)
Example diff_requirements_versions :
  map r_id (added (@_diff_requirements ExampleLibrary.example_library
                     old_requirements new_requirements)) = [lit "REQ003"]
  /\ map r_id (removed (@_diff_requirements ExampleLibrary.example_library
                          old_requirements new_requirements)) = [lit "REQ002"]
  /\ map m_id (modified (@_diff_requirements ExampleLibrary.example_library
                           old_requirements new_requirements)) = [lit "REQ001"].
Proof. split_and!; vm_compute; reflexivity. Qed.

(** ** The diff in the other direction *)

Lemma diff_records_swap {A S S'} `{EqDecision A} (id_of : A -> str)
    (sim : A -> A -> S) (sim' : A -> A -> S') (records1 records2 : list A) :
  added (diff_records id_of sim' records2 records1)
  = removed (diff_records id_of sim records1 records2)
  /\ removed (diff_records id_of sim' records2 records1)
     = added (diff_records id_of sim records1 records2)
  /\ map (fun m => (m_id m, m_old m, m_new m))
         (modified (diff_records id_of sim' records2 records1))
     = map (fun m => (m_id m, m_new m, m_old m))
           (modified (diff_records id_of sim records1 records2)).
Proof.
  unfold diff_records.
  set (by_id1 := by_id id_of records1). set (by_id2 := by_id id_of records2).
  assert (Hkeys : dom by_id2 ∪ dom by_id1 = dom by_id1 ∪ dom by_id2).
  { apply set_eq. intros k. rewrite !elem_of_union. tauto. }
  rewrite Hkeys. set (keys := elements (dom by_id1 ∪ dom by_id2)).
  destruct (fold_diff_records sim by_id1 by_id2 keys
              {| added := []; removed := []; modified := [] |}) as (-> & -> & ->).
  destruct (fold_diff_records sim' by_id2 by_id1 keys
              {| added := []; removed := []; modified := [] |}) as (-> & -> & ->).
  cbn [added removed modified app]. split_and!; [done | done |].
  induction keys as [|k keys IH]; [done|]. cbn [omap list_omap].
  destruct (by_id1 !! k) as [r1|], (by_id2 !! k) as [r2|]; try exact IH.
  destruct (decide (r1 = r2)) as [->|Hne].
  - rewrite !bool_decide_eq_false_2 by (by intros []). exact IH.
  - rewrite !bool_decide_eq_true_2 by done. cbn [map]. f_equal. exact IH.
Qed.

Lemma count_examples_swap (before after : nat) :
  counts_mirrored (count_examples before after) (count_examples after before).
Proof. unfold counts_mirrored, count_examples. simpl. split_and!; [done | done | lia]. Qed.

Section DiffSwap.
Context {lib : Library}.

Lemma generate_summary_swap (data1 data2 : rule_data) :
  match _generate_summary data1 data2, _generate_summary data2 data1 with
  | Some forth, Some back =>
      severity_changed back = severity_changed forth
      /\ category_changed back = category_changed forth
      /\ language_changed back = language_changed forth
      /\ length (breaking_changes back) = length (breaking_changes forth)
  | None, None => True
  | _, _ => False
  end.
Proof.
  unfold _generate_summary.
  destruct (d_metadata data1) as [ | | | | | |m1], (d_metadata data2) as [ | | | | | |m2];
    try done.
  cbn [meta_get mbind option_bind].
  rewrite (value_eqb_sym (default VNone (dict_lookup (lit "severity") m2))),
          (value_eqb_sym (default VNone (dict_lookup (lit "category") m2))),
          (value_eqb_sym (default VNone (dict_lookup (lit "language") m2))).
  cbn [severity_changed category_changed language_changed breaking_changes].
  split_and!; [done | done | done |].
  rewrite !length_app. by repeat case_match.
Qed.

(** X17.  The diff of two rules in the other direction is the mirror image:
    what was added is removed and what was removed is added, among the
    metadata, the requirements and the antipatterns; the same keys and ids
    are modified, with the old and the new value exchanged; the counts of
    the examples change places; the summary reports the same changes.  The
    lists of requirements and of antipatterns are the same up to their
    order, which follows the order of a Python set in each of the two
    diffs.  The one diff raises exactly when the other does. *)
Theorem diff_rules_swap (fs : files) (rule1_path rule2_path : str) :
  match diff_rules fs rule1_path rule2_path, diff_rules fs rule2_path rule1_path with
  | Some forth, Some back => mirrored forth back
  | None, None => True
  | _, _ => False
  end.
Proof.
  unfold diff_rules.
  destruct (new_extractor fs rule1_path) as [extractor1|],
           (new_extractor fs rule2_path) as [extractor2|];
    cbn [mbind option_bind]; try done.
  set (data1 := extract_all extractor1). set (data2 := extract_all extractor2).
  pose proof (generate_summary_swap data1 data2) as Hsum.
  destruct (d_metadata data1) as [ | | | | | |m1] eqn:E1,
           (d_metadata data2) as [ | | | | | |m2] eqn:E2; try done.
  destruct (diff_metadata_lookup m1 m2) as (forth & -> & Hf).
  destruct (diff_metadata_lookup m2 m1) as (back & -> & Hb).
  cbn [mbind option_bind].
  destruct (_generate_summary data1 data2) as [s12|],
           (_generate_summary data2 data1) as [s21|]; cbn [mbind option_bind];
    try done.
  destruct Hsum as (? & ? & ? & ?).
  unfold mirrored.
    cbn [metadata_changes requirement_changes antipattern_changes example_changes
         diff_summary fst snd].
  split_and!; try done.
  - apply map_eq. intros key.
    destruct (Hf key) as (Ha & Hr & Hm), (Hb key) as (Ha' & Hr' & Hm').
    by rewrite Ha', Hr.
  - apply map_eq. intros key.
    destruct (Hf key) as (Ha & Hr & Hm), (Hb key) as (Ha' & Hr' & Hm').
    by rewrite Hr', Ha.
  - apply map_eq. intros key.
    destruct (Hf key) as (Ha & Hr & Hm), (Hb key) as (Ha' & Hr' & Hm').
    rewrite lookup_fmap, Hm', Hm. unfold modified_value.
    destruct (dict_lookup key m1) as [v1|], (dict_lookup key m2) as [v2|];
      try done.
    rewrite (value_eqb_sym v2 v1). by destruct (value_eqb v1 v2).
  - destruct (diff_records_swap r_id
                (fun r1 r2 => _calculate_similarity (r_requirement r1) (r_requirement r2))
                (fun r1 r2 => _calculate_similarity (r_requirement r1) (r_requirement r2))
                (d_requirements data1) (d_requirements data2)) as (Ha & Hr & Hm).
    unfold records_mirrored, _diff_requirements. by rewrite Ha, Hr, Hm.
  - destruct (diff_records_swap a_id (fun _ _ => tt) (fun _ _ => tt)
                (d_antipatterns data1) (d_antipatterns data2)) as (Ha & Hr & Hm).
    unfold records_mirrored, _diff_antipatterns. by rewrite Ha, Hr, Hm.
  - apply count_examples_swap.
  - apply count_examples_swap.
Qed.

End DiffSwap.

(** ** The similarity of two rules, and the comparison of a category *)

Lemma insert_desc_perm (c : comparison) (l : list comparison) :
  insert_desc c l ≡ₚ c :: l.
Proof.
  induction l as [|c' l IH]; simpl; [done|].
  destruct (Qle_bool _ _); [done|]. rewrite IH. apply Permutation_swap.
Qed.

Lemma sort_desc_perm (l : list comparison) : sort_desc l ≡ₚ l.
Proof.
  induction l as [|c l IH]; simpl; [done|]. by rewrite insert_desc_perm, IH.
Qed.

Lemma insert_desc_sorted (c : comparison) (l : list comparison) :
  StronglySorted ranks_before l -> StronglySorted ranks_before (insert_desc c l).
Proof.
  induction 1 as [|c' l Hs IH Hall]; simpl.
  - repeat constructor.
  - destruct (Qle_bool (similarity c') (similarity c)) eqn:E.
    + apply Qle_bool_iff in E. constructor; [by constructor|].
      constructor; [done|]. eapply Forall_impl; [exact Hall|].
      intros x Hx. unfold ranks_before in *. by eapply Qle_trans.
    + constructor; [done|]. apply insert_desc_Forall; [|done].
      unfold ranks_before. apply Qlt_le_weak, Qnot_le_lt.
      intros H%Qle_bool_iff. congruence.
Qed.

Lemma sort_desc_sorted (l : list comparison) : StronglySorted ranks_before (sort_desc l).
Proof.
  induction l as [|c l IH]; simpl; [constructor | by apply insert_desc_sorted].
Qed.

Section SimilarityMore.
Context {lib : Library}.

Lemma compare_pairs_length (fs : files) (rules : list (str * rule_info)) :
  2 * length (compare_pairs fs rules) = length rules * (length rules - 1).
Proof.
  induction rules as [|r1 rest IH]; simpl; [done|].
  rewrite length_app, length_map, Nat.sub_0_r.
  destruct rest as [|r2 rest]; [done|]. simpl in *. lia.
Qed.

(** X18.  The similarity does not depend on the order of the two rules. *)
Theorem rule_similarity_symmetric (fs : files) (rule1_path rule2_path : str) :
  _calculate_rule_similarity fs rule1_path rule2_path
  = _calculate_rule_similarity fs rule2_path rule1_path.
Proof.
  unfold _calculate_rule_similarity, rule_similarity_body.
  destruct (new_extractor fs rule1_path) as [ext1|],
           (new_extractor fs rule2_path) as [ext2|]; cbn [mbind option_bind]; try done.
  assert (Hi : requirement_words ext2 ∩ requirement_words ext1
               = requirement_words ext1 ∩ requirement_words ext2).
  { apply set_eq. intros w. rewrite !elem_of_intersection. tauto. }
  assert (Hu : requirement_words ext2 ∪ requirement_words ext1
               = requirement_words ext1 ∪ requirement_words ext2).
  { apply set_eq. intros w. rewrite !elem_of_union. tauto. }
  rewrite Hi, Hu.
  by rewrite (andb_comm (bool_decide (requirement_words ext2 = ∅))).
Qed.

(** X19.  The similarity is 1 exactly when both files can be read and the
    requirements of the two rules have the same words, and at least one
    word: the number of requirements, their ids, the order of the words
    and their case play no part. *)
Theorem rule_similarity_one (fs : files) (rule1_path rule2_path : str) :
  (_calculate_rule_similarity fs rule1_path rule2_path == 1)%Q
  <-> exists ext1 ext2,
        new_extractor fs rule1_path = Some ext1
        /\ new_extractor fs rule2_path = Some ext2
        /\ requirement_words ext1 = requirement_words ext2
        /\ requirement_words ext1 <> ∅.
Proof.
  unfold _calculate_rule_similarity, rule_similarity_body.
  destruct (new_extractor fs rule1_path) as [ext1|]; cbn [mbind option_bind].
  2: { split; [done|]. by intros (? & ? & ? & _). }
  destruct (new_extractor fs rule2_path) as [ext2|]; cbn [mbind option_bind].
  2: { split; [done|]. by intros (? & ? & _ & ? & _). }
  set (set1 := requirement_words ext1). set (set2 := requirement_words ext2).
  assert (Hratio : forall a b, 0 < b ->
            ((Z.of_nat a # Pos.of_nat b) == 1)%Q <-> a = b).
  { intros a b Hb. unfold Qeq. simpl.
    assert (Hpos : Zpos (Pos.of_nat b) = Z.of_nat b).
    { rewrite <- positive_nat_Z, Nat2Pos.id by lia. done. }
    rewrite Hpos. lia. }
  split.
  - intros Hone. exists ext1, ext2. split_and!; [done | done | |]; fold set1 set2.
    + destruct (_ && _); [done|].
      destruct (0 <? size (set1 ∪ set2)) eqn:E; [|done].
      apply Nat.ltb_lt in E. apply Hratio in Hone; [|done].
      assert (Heq : set1 ∩ set2 = set1 ∪ set2).
      { apply set_subseteq_size_eq; [|lia].
        intros w. rewrite elem_of_intersection, elem_of_union. tauto. }
      apply set_eq. intros w. split; intros Hw.
      * assert (Hu : w ∈ set1 ∪ set2) by (apply elem_of_union; by left).
        rewrite <- Heq in Hu. by apply elem_of_intersection in Hu as [_ ?].
      * assert (Hu : w ∈ set1 ∪ set2) by (apply elem_of_union; by right).
        rewrite <- Heq in Hu. by apply elem_of_intersection in Hu as [? _].
    + intros Hempty. rewrite Hempty in Hone.
      rewrite bool_decide_eq_true_2 in Hone by done. cbn [andb] in Hone.
      case_bool_decide as H2; [done|].
      assert (Hi : (∅ : gset str) ∩ set2 = ∅).
      { apply set_eq. intros w. rewrite elem_of_intersection, elem_of_empty. tauto. }
      rewrite Hi, size_empty in Hone.
      by destruct (0 <? size (∅ ∪ set2)).
  - intros (? & ? & [= <-] & [= <-] & Heq & Hne). fold set1 set2 in Heq, Hne.
    rewrite (bool_decide_eq_false_2 (set1 = ∅)) by done. cbn [andb].
    rewrite <- Heq.
    assert (Hi : set1 ∩ set1 = set1).
    { apply set_eq. intros w. rewrite elem_of_intersection. tauto. }
    assert (Hu : set1 ∪ set1 = set1).
    { apply set_eq. intros w. rewrite elem_of_union. tauto. }
    rewrite Hi, Hu.
    assert (Hsize : 0 < size set1).
    { destruct (size set1) eqn:E; [|lia]. destruct Hne.
      apply leibniz_equiv. by apply size_empty_iff. }
    rewrite (proj2 (Nat.ltb_lt _ _) Hsize). by apply Hratio.
Qed.

(** X20.  The result of [compare_category] holds one comparison for every pair
    of rules of the category (and of the language, when one is given),
    n (n - 1) / 2 for n rules, with the most similar pairs first. *)
Theorem compare_category_sorted (index : rules_index) (fs : files)
    (category_arg : str) (language_arg : option str) :
  compare_category index fs category_arg language_arg
  ≡ₚ compare_pairs fs (rules_of_category index category_arg language_arg)
  /\ StronglySorted ranks_before
       (compare_category index fs category_arg language_arg)
  /\ 2 * length (compare_category index fs category_arg language_arg)
     = length (rules_of_category index category_arg language_arg)
       * (length (rules_of_category index category_arg language_arg) - 1).
Proof.
  unfold compare_category. fold (rules_of_category index category_arg language_arg).
  split_and!.
  - apply sort_desc_perm.
  - apply sort_desc_sorted.
  - rewrite (Permutation_length (sort_desc_perm _)). apply compare_pairs_length.
Qed.

End SimilarityMore.

(** ** Numbered lists of records *)

Lemma finditer_skip {A} (m : str -> option (A * str)) (k : nat) (s : str) :
  finditer m k s = finditer m 0 (drop k s).
Proof.
  revert k. induction s as [|c s IH]; intros k; [by destruct k|].
  destruct k as [|k]; [done|]. simpl. apply IH.
Qed.

(** The search passes over a place without a match. *)
Lemma finditer_pass {A} (m : str -> option (A * str)) (c : ascii) (s : str) :
  m (c :: s) = None -> finditer m 0 (c :: s) = finditer m 0 s.
Proof. intros H. simpl. by rewrite H. Qed.

(** The search goes on behind a match. *)
Lemma finditer_match {A} (m : str -> option (A * str)) (x rest : str) (a : A) :
  x <> [] -> m (x ++ rest) = Some (a, rest) ->
  finditer m 0 (x ++ rest) = a :: finditer m 0 rest.
Proof.
  intros Hx Hm. destruct x as [|c x]; [done|].
  change ((c :: x) ++ rest) with (c :: (x ++ rest)) in *.
  cbn [finditer]. rewrite Hm. f_equal. rewrite finditer_skip. f_equal.
  replace (length (c :: x ++ rest) - length rest - 1) with (length x)
    by (simpl; rewrite length_app; lia).
  by rewrite drop_app_length.
Qed.

Lemma match_record_star (l1 l2 : str) (c : ascii) (s : str) :
  c <> "*"%char -> match_record l1 l2 (c :: s) = None.
Proof.
  intros Hc. unfold match_record, record_header.
  destruct (starts_with (lit "**[") (c :: s)) eqn:E; [|done].
  apply starts_with_spec in E as [r E]. by injection E as -> _.
Qed.

Lemma finditer_pass_all (l1 l2 pre s : str) :
  Forall (fun c => c <> "*"%char) pre ->
  finditer (match_record l1 l2) 0 (pre ++ s) = finditer (match_record l1 l2) 0 s.
Proof.
  induction 1 as [|c pre Hc _ IH]; [done|].
  change ((c :: pre) ++ s) with (c :: (pre ++ s)).
  rewrite finditer_pass by (by apply match_record_star). apply IH.
Qed.

Lemma span_all (keep : ascii -> bool) (w : str) (c : ascii) (r : str) :
  forallb keep w = true -> keep c = false ->
  span keep (w ++ c :: r) = (w, c :: r).
Proof.
  intros Hw Hc. induction w as [|x w IH]; simpl.
  - by rewrite Hc.
  - simpl in Hw. apply andb_true_iff in Hw as [Hx Hw]. by rewrite Hx, (IH Hw).
Qed.

Lemma lazy_until_line (stop : str -> bool) (text tail : str) :
  (forall c r, c <> nl -> stop (c :: r) = false) ->
  stop tail = true -> nl ∉ text ->
  lazy_until stop (text ++ tail) = (text, tail).
Proof.
  intros Hstop Htail. induction text as [|c text IH]; intros Hnl.
  - simpl. destruct tail; simpl; by rewrite Htail.
  - change ((c :: text) ++ tail) with (c :: (text ++ tail)). cbn [lazy_until].
    rewrite Hstop by (intros ->; apply Hnl; left).
    rewrite IH; [done|]. intros H. apply Hnl. by right.
Qed.

Lemma next_item_tail (tail : str) : entry_tail tail -> next_item tail = true.
Proof.
  intros [->|(n & r & ->)]; [done|]. unfold next_item.
  rewrite Ascii.eqb_refl. cbn [andb].
  rewrite (span_all is_digit (decimal n) "." r (decimal_digits n) eq_refl).
  pose proof (decimal_nonempty n). by destruct (decimal n).
Qed.

Lemma starts_with_cons (a b : ascii) (p s : str) :
  starts_with (a :: p) (b :: s) = Ascii.eqb a b && starts_with p s.
Proof. done. Qed.

Lemma label_not_tail (label tail : str) :
  entry_tail tail -> starts_with (nl :: " "%char :: label) tail = false.
Proof.
  intros [->|(n & r & ->)]; [done|].
  pose proof (decimal_nonempty n) as Hne. pose proof (decimal_digits n) as Hdig.
  destruct (decimal n) as [|d ds]; [done|]. simpl in Hdig.
  apply andb_true_iff in Hdig as [Hd _].
  change ((d :: ds) ++ "."%char :: r) with (d :: ds ++ "."%char :: r).
  rewrite !starts_with_cons.
  destruct (Ascii.eqb_spec " "%char d) as [<-|]; [done|].
  by rewrite andb_false_r.
Qed.

(** The match of the record pattern at an entry of one line. *)
Lemma match_record_line (l1 l2 id text tail : str) :
  id <> [] -> forallb is_word id = true -> nl ∉ text -> entry_tail tail ->
  match_record (nl :: " "%char :: l1) (nl :: " "%char :: l2)
    ((lit "**[" ++ id ++ lit "]** " ++ text) ++ tail)
  = Some ((id, text, None, None), tail).
Proof.
  intros Hne Hword Hnl Htail. unfold match_record, record_header.
  rewrite <- !app_assoc, starts_with_app.
  change (drop 3 (lit "**[" ++ ?t)) with t.
  change (lit "]** " ++ text ++ tail) with ("]"%char :: lit "** " ++ text ++ tail).
  rewrite (span_all is_word id "]" _ Hword eq_refl).
  destruct id as [|c id]; [done|].
  change ("]"%char :: lit "** " ++ text ++ tail) with (lit "]** " ++ text ++ tail).
  rewrite starts_with_app. change (drop 4 (lit "]** " ++ ?t)) with t.
  rewrite lazy_until_line; [|intros x r Hx; rewrite !starts_with_cons;
                              unfold next_item;
                              destruct (Ascii.eqb_spec nl x),
                                       (Ascii.eqb_spec x nl); by subst
                            |by rewrite (next_item_tail _ Htail), orb_true_r
                            |done].
  by rewrite !label_not_tail.
Qed.

Lemma record_lines_cons (n : nat) (item : str * str) (rest : list (str * str)) :
  exists tail,
    record_lines n (item :: rest)
    = (decimal n ++ lit ". ")
      ++ (lit "**[" ++ item.1 ++ lit "]** " ++ item.2) ++ tail
    /\ entry_tail tail
    /\ (rest = [] -> tail = [])
    /\ (rest <> [] -> tail = nl :: record_lines (S n) rest).
Proof.
  exists (match rest with [] => [] | _ :: _ => nl :: record_lines (S n) rest end).
  split_and!.
  - cbn [record_lines]. unfold record_line. by rewrite <- !app_assoc.
  - destruct rest as [|item' rest]; [by left|]. right.
    exists (S n). eexists. cbn [record_lines]. unfold record_line.
    rewrite <- !app_assoc. reflexivity.
  - by intros ->.
  - by destruct rest.
Qed.

Lemma finditer_record_lines (l1 l2 : str) (n : nat) (items : list (str * str)) :
  Forall plain_item items ->
  finditer (match_record (nl :: " "%char :: l1) (nl :: " "%char :: l2)) 0
           (record_lines n items)
  = map (fun item => (item.1, item.2, None, None)) items.
Proof.
  intros Hall. revert n. induction Hall as [|item rest Hitem _ IH]; intros n; [done|].
  destruct (record_lines_cons n item rest) as (tail & -> & Htail & Hnil & Hcons).
  destruct Hitem as (Hne & Hword & Hnl).
  rewrite finditer_pass_all.
  2: { apply Forall_app. split; [|by repeat constructor].
       apply Forall_forall. intros c Hc%list_elem_of_In ->.
       pose proof (decimal_digits n) as Hdig. rewrite forallb_forall in Hdig.
       by apply Hdig in Hc. }
  rewrite (finditer_match _ _ _ (item.1, item.2, None, None)).
  - cbn [map]. f_equal. destruct rest as [|item' rest].
    + by rewrite Hnil.
    + rewrite Hcons by done. rewrite finditer_pass by (by apply match_record_star).
      apply IH.
  - by destruct (item.1).
  - by apply match_record_line.
Qed.

Lemma numbered_records_found (n : nat) (items : list (str * str)) :
  Forall plain_item items ->
  requirement_matches (record_lines n items)
  = map (fun item => {| r_id := item.1; r_requirement := strip item.2;
                        r_rationale := None; r_impact := None |}) items
  /\ antipattern_matches (record_lines n items)
     = map (fun item => {| a_id := item.1; a_antipattern := strip item.2;
                           a_why := None; a_instead := None |}) items.
Proof.
  intros Hall. unfold requirement_matches, antipattern_matches.
  change rationale_label with (nl :: " "%char :: lit "  - Rationale: ").
  change impact_label with (nl :: " "%char :: lit "  - Impact: ").
  change why_label with (nl :: " "%char :: lit "  - Why: ").
  change instead_label with (nl :: " "%char :: lit "  - Instead: ").
  rewrite !finditer_record_lines by done. by rewrite !map_map.
Qed.

(** X4.  A numbered list of entries [n. **[ID]** text], one on a line, with
    ids of word characters, is read back entry by entry: every entry gives
    one record with its id and its text, stripped, in the order of the
    list, without rationale and impact (without reason and
    alternative, for an antipattern).  A tag inside a text does not start
    a record. *)
Theorem numbered_records_extracted (n : nat) (items : list (str * str)) :
  Forall plain_item items ->
  requirement_matches (record_lines n items)
  = map (fun item => {| r_id := item.1; r_requirement := strip item.2;
                        r_rationale := None; r_impact := None |}) items
  /\ antipattern_matches (record_lines n items)
     = map (fun item => {| a_id := item.1; a_antipattern := strip item.2;
                           a_why := None; a_instead := None |}) items.
Proof. apply numbered_records_found. Qed.

Lemma not_elem_check (c : ascii) (s : str) :
  existsb (Ascii.eqb c) s = false -> c ∉ s.
Proof.
  intros Hf Hin%list_elem_of_In.
  assert (existsb (Ascii.eqb c) s = true); [|congruence].
  apply existsb_exists. exists c. split; [done | apply Ascii.eqb_refl].
Qed.

Lemma requirement_items_plain : Forall plain_item requirement_items.
Proof.
  unfold requirement_items.
  constructor; [|constructor; [|constructor; [|constructor]]];
    (split_and!; [done | reflexivity | apply not_elem_check; reflexivity]).
Qed.

Lemma numbered_records_extracted_witness :
  requirement_matches (record_lines 1 requirement_items)
  = map (fun item => {| r_id := item.1; r_requirement := strip item.2;
                        r_rationale := None; r_impact := None |}) requirement_items
  /\ antipattern_matches (record_lines 1 requirement_items)
     = map (fun item => {| a_id := item.1; a_antipattern := strip item.2;
                           a_why := None; a_instead := None |}) requirement_items.
Proof.
  apply numbered_records_extracted. exact requirement_items_plain.
Defined.

(** The list of the example and the records read from it. *)
Example requirement_items_lines :
  record_lines 1 requirement_items
  = lit "1. **[REQ001]** Name the unit under test."
    ++ [nl] ++ lit "2. **[REQ002]** Name the expected behaviour. "
    ++ [nl] ++ lit "3. **[REQ003]** Keep **[one]** assertion per test."
  /\ map r_requirement (requirement_matches (record_lines 1 requirement_items))
     = map lit ["Name the unit under test."; "Name the expected behaviour.";
                "Keep **[one]** assertion per test."]%string.
Proof. split; vm_compute; reflexivity. Qed.

(** ** A numbered list between the markers of its section *)

Lemma find_first (p s pre r : str) :
  s = pre ++ p ++ r ->
  (forall x r', s = x ++ p ++ r' -> length pre <= length x) ->
  find p s = Some (length pre).
Proof.
  intros Hs Hmin. destruct (find_occurs p s) as [i Hi]; [by exists pre, r|].
  rewrite Hi. f_equal.
  destruct (find_Some _ _ _ Hi) as (a & b & Ha & Hlen & Hmin').
  specialize (Hmin _ _ Ha). specialize (Hmin' _ _ Hs). lia.
Qed.

(** A marker that begins with its only [<] is first found where the text
    before it ends, when it does not occur in that text. *)
Lemma marker_first (a' pre rest x r' : str) :
  Forall (fun c => c <> "<"%char) a' ->
  ~ occurs ("<"%char :: a') pre ->
  pre ++ ("<"%char :: a') ++ rest = x ++ ("<"%char :: a') ++ r' ->
  length pre <= length x.
Proof.
  intros Ha Hno Heq. destruct (decide (length pre <= length x)) as [|Hlt]; [done|].
  exfalso. apply app_eq_inv in Heq as [(k & Hpre & Hk)|(k & -> & _)].
  2: { rewrite length_app in Hlt. lia. }
  apply app_eq_inv in Hk as [(k' & Hk & Hk')|(k' & -> & _)].
  2: { apply Hno. exists x, k'. by rewrite Hpre. }
  destruct k as [|c k]; [rewrite Hpre, app_nil_r in Hlt; lia|].
  injection Hk as <- Hk.
  destruct k' as [|d k'].
  - apply Hno. exists x, []. by rewrite Hpre, Hk, !app_nil_r.
  - injection Hk' as <- _. rewrite Hk in Ha.
    apply Forall_app in Ha as [_ Ha]. by apply Forall_cons in Ha as [? _].
Qed.

Lemma find_eq (p s : str) :
  find p s = if starts_with p s then Some 0
             else match s with
                  | [] => None
                  | _ :: s' => S <$> find p s'
                  end.
Proof. by destruct s. Qed.

Lemma find_behind (c : ascii) (b' body post : str) :
  Forall (fun x => x <> c) body ->
  find (c :: b') (body ++ (c :: b') ++ post) = Some (length body).
Proof.
  induction 1 as [|x body Hx _ IH]; rewrite find_eq.
  - by rewrite app_nil_l, starts_with_app.
  - change ((x :: body) ++ (c :: b') ++ post) with (x :: (body ++ (c :: b') ++ post)).
    rewrite starts_with_cons. destruct (Ascii.eqb_spec c x) as [->|_]; [done|].
    cbn [andb]. by rewrite IH.
Qed.

Lemma search_between_at (a b pre body post : str) :
  plain a -> plain b ->
  find a (pre ++ a ++ body ++ b ++ post) = Some (length pre) ->
  find b (body ++ b ++ post) = Some (length body) ->
  search_between a b (pre ++ a ++ body ++ b ++ post) = Some body.
Proof.
  intros Hpa Hpb Ha Hb. unfold search_between.
  rewrite search_plain, Ha by done. cbn [mbind option_bind].
  rewrite search_plain by done.
  replace (drop (length pre + length a) (pre ++ a ++ body ++ b ++ post))
    with (body ++ b ++ post).
  2: { rewrite (app_assoc pre a), <- length_app. by rewrite drop_app_length. }
  rewrite Hb. cbn [mbind option_bind]. by rewrite take_app_length.
Qed.

Lemma digit_not_space (c : ascii) : is_digit c = true -> is_space c = false.
Proof. by destruct c as [[] [] [] [] [] [] [] []]. Qed.

Lemma word_not_lt (c : ascii) : is_word c = true -> c <> "<"%char.
Proof. by intros H ->. Qed.

Lemma strip_lines (s : str) :
  s <> [] -> no_outer_space s -> strip (nl :: s ++ [nl]) = s.
Proof.
  intros Hne [Hhead Hlast]. unfold strip, rstrip.
  change (lstrip (nl :: s ++ [nl])) with (lstrip (s ++ [nl])).
  rewrite (lstrip_fixed (s ++ [nl])).
  2: { destruct s as [|c s]; [done|]. intros c' r [= <- _]. by eapply Hhead. }
  rewrite rev_app_distr. change (lstrip (rev [nl] ++ rev s)) with (lstrip (rev s)).
  rewrite lstrip_fixed; [apply rev_involutive|].
  intros c r Heq. apply (Hlast (rev r) c).
  apply (f_equal (@rev ascii)) in Heq. by rewrite rev_involutive in Heq.
Qed.

Lemma record_lines_chars (n : nat) (items : list (str * str)) :
  Forall clean_item items ->
  Forall (fun c => c <> "<"%char) (record_lines n items).
Proof.
  intros Hall. revert n. induction Hall as [|item rest Hitem _ IH]; intros n.
  - constructor.
  - destruct (record_lines_cons n item rest) as (tail & -> & _ & Hnil & Hcons).
    destruct Hitem as ((_ & Hword & _) & _ & _ & Hlt).
    rewrite !Forall_app. split_and!.
    + apply Forall_forall. intros c Hc%list_elem_of_In ->.
      pose proof (decimal_digits n) as Hdig. rewrite forallb_forall in Hdig.
      by apply Hdig in Hc.
    + by repeat constructor.
    + by repeat constructor.
    + apply Forall_forall. intros c Hc%list_elem_of_In.
      rewrite forallb_forall in Hword. by apply word_not_lt, Hword.
    + by repeat constructor.
    + apply Forall_forall. by intros c Hc ->.
    + destruct rest as [|item' rest]; [rewrite Hnil by done; constructor|].
      rewrite Hcons by done. constructor; [done | apply IH].
Qed.

Lemma record_lines_last (n : nat) (items : list (str * str)) :
  items <> [] -> Forall clean_item items ->
  exists x text, record_lines n items = x ++ text
                 /\ text <> [] /\ no_outer_space text.
Proof.
  intros Hne Hall. revert n.
  induction Hall as [|item rest Hitem Hrest IH]; intros n; [done|].
  destruct (record_lines_cons n item rest) as (tail & -> & _ & Hnil & Hcons).
  destruct rest as [|item' rest].
  - rewrite Hnil by done. destruct Hitem as (_ & Hne' & Hclean & _).
    exists ((decimal n ++ lit ". ") ++ lit "**[" ++ item.1 ++ lit "]** "), item.2.
    by rewrite !app_nil_r, <- !app_assoc.
  - rewrite Hcons by done.
    destruct (IH ltac:(done) (S n)) as (x & text & -> & ? & ?).
    eexists _, text. split; [|done].
    rewrite !app_assoc. rewrite app_comm_cons, !app_assoc. reflexivity.
Qed.

Lemma record_lines_stripped (n : nat) (items : list (str * str)) :
  items <> [] -> Forall clean_item items ->
  record_lines n items <> [] /\ no_outer_space (record_lines n items).
Proof.
  intros Hne Hall.
  destruct (record_lines_last n items Hne Hall) as (x & text & Heq & Htext & _ & Hlast).
  assert (Hhead : exists d r, record_lines n items = d :: r /\ is_digit d = true).
  { destruct items as [|item rest]; [done|].
    destruct (record_lines_cons n item rest) as (tail & -> & _).
    pose proof (decimal_nonempty n). pose proof (decimal_digits n) as Hdig.
    destruct (decimal n) as [|d ds]; [done|]. simpl in Hdig.
    apply andb_true_iff in Hdig as [Hd _]. by eexists d, _. }
  destruct Hhead as (d & r & Hd & Hdig). split; [|split].
  - by rewrite Hd.
  - intros c r'. rewrite Hd. intros [= <- _]. by apply digit_not_space.
  - intros r' c Hc. rewrite Heq in Hc.
    destruct (exists_last Htext) as (t & c' & ->).
    rewrite app_assoc in Hc. apply app_inj_tail in Hc as [_ <-].
    by eapply Hlast.
Qed.

(** The section of such a document is the list. *)
Lemma extract_section_marked_list (name pre post : str) (n : nat)
    (items : list (str * str)) :
  literal_name name ->
  Forall (fun c => c <> "<"%char) name ->
  ~ occurs (marker_start name) pre ->
  items <> [] -> Forall clean_item items ->
  extract_section (marked_list name pre n items post) name
  = Some (record_lines n items).
Proof.
  intros Hliteral Hname Hpre Hne Hall. unfold extract_section, marked_list.
  set (body := [nl] ++ record_lines n items ++ [nl]).
  replace (pre ++ marker_start name ++ [nl] ++ record_lines n items ++ [nl]
           ++ marker_end name ++ post)
    with (pre ++ marker_start name ++ body ++ marker_end name ++ post)
    by (unfold body; by rewrite <- !app_assoc).
  rewrite search_between_at;
    [| by apply marker_start_plain | by apply marker_end_plain | |].
  - f_equal. destruct (record_lines_stripped n items Hne Hall) as [? ?].
    by apply strip_lines.
  - eapply find_first; [reflexivity|]. intros x r'.
    apply (marker_first (lit "!-- EXTRACT:" ++ name ++ lit ":start -->")); [|done].
    rewrite !Forall_app. split_and!; [by repeat constructor | done |
                                      by repeat constructor].
  - apply (find_behind "<" (lit "!-- EXTRACT:" ++ name ++ lit ":end -->")).
    unfold body. rewrite !Forall_app. split_and!; [by repeat constructor | |
                                                   by repeat constructor].
    by apply record_lines_chars.
Qed.

(** X3.  From a rule file with a numbered list between the markers of the
    requirements, and no extraction marker before, [extract_requirements]
    reads the entries of the list, one record for an entry, in their order
    and with their ids and texts; and so does [extract_antipatterns] for a
    list between the markers of the antipatterns.  The entries have ids of
    word characters and texts of one line without [<] and without white
    space at their ends. *)
Theorem marked_records_extracted (yaml : str -> option value) (ratio : str -> str -> Q)
    (meta : value) (pre post : str) (n : nat) (items : list (str * str)) :
  items <> [] ->
  Forall clean_item items ->
  ~ occurs (lit "<!-- EXTRACT:") pre ->
  @extract_requirements (regex_library yaml ratio)
     {| content := marked_list (lit "requirements") pre n items post;
        metadata := meta |}
  = map (fun item => {| r_id := item.1; r_requirement := item.2;
                        r_rationale := None; r_impact := None |}) items
  /\ @extract_antipatterns (regex_library yaml ratio)
       {| content := marked_list (lit "antipatterns") pre n items post;
          metadata := meta |}
     = map (fun item => {| a_id := item.1; a_antipattern := item.2;
                           a_why := None; a_instead := None |}) items.
Proof.
  intros Hne Hall Hpre.
  assert (Hplain : Forall plain_item items).
  { eapply Forall_impl; [exact Hall|]. by intros item [? _]. }
  destruct (numbered_records_found n items Hplain) as [Hreq Hant].
  destruct (record_lines_stripped n items Hne Hall) as [Hlines _].
  assert (Htexts : forall A (f : str -> str -> A),
             map (fun item => f item.1 (strip item.2)) items
             = map (fun item => f item.1 item.2) items).
  { intros A f. apply map_ext_Forall. eapply Forall_impl; [exact Hall|].
    intros item (_ & _ & Hclean & _). simpl. by rewrite (strip_fixed _ Hclean). }
  assert (Hstart : forall name, ~ occurs (marker_start name) pre).
  { intros name (x & y & ->). apply Hpre. exists x, (name ++ lit ":start -->" ++ y).
    unfold marker_start. by rewrite <- !app_assoc. }
  split.
  - unfold extract_requirements. cbn [content].
    rewrite extract_section_marked_list
      by (done || reflexivity || by repeat constructor).
    destruct (record_lines n items) as [|c s] eqn:E; [done|]. cbn [truthy].
    change (requirement_records (c :: s)) with (requirement_matches (c :: s)).
    rewrite Hreq. apply (Htexts _ (fun id text => {| r_id := id; r_requirement := text;
                                                   r_rationale := None;
                                                   r_impact := None |})).
  - unfold extract_antipatterns. cbn [content].
    rewrite extract_section_marked_list
      by (done || reflexivity || by repeat constructor).
    destruct (record_lines n items) as [|c s] eqn:E; [done|]. cbn [truthy].
    change (antipattern_records (c :: s)) with (antipattern_matches (c :: s)).
    rewrite Hant. apply (Htexts _ (fun id text => {| a_id := id; a_antipattern := text;
                                                   a_why := None;
                                                   a_instead := None |})).
Qed.

Lemma clean_items_clean : Forall clean_item clean_items.
Proof.
  unfold clean_items.
  constructor; [|constructor; [|constructor]];
    (unfold clean_item, plain_item; cbn [fst snd];
     split_and!; [done | reflexivity | apply not_elem_check; reflexivity | done
                 | | apply not_elem_check; reflexivity]).
  - change (no_outer_space (strip (lit "Name the unit under test."))).
    apply strip_no_outer_space.
  - change (no_outer_space (strip (lit "Name the expected behaviour."))).
    apply strip_no_outer_space.
Qed.

Lemma marked_records_extracted_witness :
  @extract_requirements (regex_library (fun _ => None) (fun _ _ => 0%Q))
     {| content := marked_list (lit "requirements") (unlines ["## MUST_FOLLOW"])
                     1 clean_items (nl :: unlines ["## MUST_NOT_DO"]);
        metadata := VDict [] |}
  = map (fun item => {| r_id := item.1; r_requirement := item.2;
                        r_rationale := None; r_impact := None |}) clean_items
  /\ @extract_antipatterns (regex_library (fun _ => None) (fun _ _ => 0%Q))
       {| content := marked_list (lit "antipatterns") (unlines ["## MUST_FOLLOW"])
                       1 clean_items (nl :: unlines ["## MUST_NOT_DO"]);
          metadata := VDict [] |}
     = map (fun item => {| a_id := item.1; a_antipattern := item.2;
                           a_why := None; a_instead := None |}) clean_items.
Proof.
  apply marked_records_extracted.
  - done.
  - exact clean_items_clean.
  - intros H%contains_occurs. discriminate H.
Defined.

(** The rule file of the example. *)
Example marked_rule_content :
  content marked_rule
  = unlines ["## MUST_FOLLOW";
             "<!-- EXTRACT:requirements:start -->";
             "1. **[REQ001]** Name the unit under test.";
             "2. **[REQ002]** Name the expected behaviour.";
             "<!-- EXTRACT:requirements:end -->";
             "## MUST_NOT_DO"].
Proof. vm_compute. reflexivity. Qed.

(** ** Example blocks *)

Lemma lazy_until_char (stop : str -> bool) (c : ascii) (text tail : str) :
  (forall x r, x <> c -> stop (x :: r) = false) ->
  stop tail = true -> c ∉ text ->
  lazy_until stop (text ++ tail) = (text, tail).
Proof.
  intros Hstop Htail. induction text as [|x text IH]; intros Hc.
  - simpl. destruct tail; simpl; by rewrite Htail.
  - change ((x :: text) ++ tail) with (x :: (text ++ tail)). cbn [lazy_until].
    rewrite Hstop by (intros ->; apply Hc; left).
    rewrite IH; [done|]. intros H. apply Hc. by right.
Qed.

Lemma nonempty_case {A B} (l : list A) (x y : B) :
  l <> [] -> match l with [] => x | _ :: _ => y end = y.
Proof. by destruct l. Qed.

Lemma fence_header_at (language r : str) :
  language <> [] -> forallb is_word language = true ->
  fence_header ((nl :: lit "```") ++ language ++ [nl] ++ r) = Some (language, r).
Proof.
  intros Hne Hword. unfold fence_header. rewrite starts_with_app.
  change (drop 4 ((nl :: lit "```") ++ ?t)) with t.
  change (language ++ [nl] ++ r) with (language ++ nl :: r).
  rewrite (span_all is_word language nl r Hword eq_refl).
  destruct language; [done|]. by rewrite Ascii.eqb_refl.
Qed.

Lemma is_fence_char (x : ascii) (r : str) : x <> nl -> is_fence (x :: r) = false.
Proof.
  intros Hx. unfold is_fence, fence_header. rewrite starts_with_cons.
  by destruct (Ascii.eqb_spec nl x).
Qed.

Lemma match_example_block (example_type : str) (b : example_block) (tail : str) :
  plain_block b -> block_tail tail ->
  match_example example_type (block_text example_type b ++ tail)
  = Some (block_example example_type b, tail).
Proof.
  intros (Hnum & Hdig & Htitle & Hlang & Hword & Hcode & Hexpl) Htail.
  unfold match_example, block_text. cbv zeta.
  set (heading := lit "### " ++ upper example_type ++ lit "_EXAMPLE_").
  rewrite <- !app_assoc, starts_with_app, drop_app_length.
  change (lit ": " ++ ?t) with (":"%char :: lit " " ++ t).
  rewrite (span_all is_digit (b_number b) ":" _ Hdig eq_refl).
  rewrite nonempty_case by done.
  change (":"%char :: lit " " ++ ?t) with (lit ": " ++ t).
  rewrite starts_with_app. change (drop 2 (lit ": " ++ ?t)) with t.
  set (code_on := b_code b ++ why_line example_type ++ b_explanation b ++ tail).
  change (nl :: lit "```" ++ b_language b ++ [nl] ++ code_on)
    with ((nl :: lit "```") ++ b_language b ++ [nl] ++ code_on).
  rewrite (lazy_until_char is_fence nl).
  2: { intros x r. apply is_fence_char. }
  2: { unfold is_fence. by rewrite fence_header_at. }
  2: done.
  rewrite fence_header_at by done.
  assert (Hfind : find (why_line example_type) code_on = Some (length (b_code b))).
  { unfold code_on.
    apply (find_behind "`" (lit "``" ++ [nl] ++ lit "**Why this is "
                            ++ example_type ++ lit "**: ")).
    apply Forall_forall. by intros x Hx ->. }
  rewrite Hfind.
  replace (drop (length (b_code b) + length (why_line example_type)) code_on)
    with (b_explanation b ++ tail).
  2: { unfold code_on. rewrite (app_assoc (b_code b)), <- length_app.
       by rewrite drop_app_length. }
  rewrite (lazy_until_char _ "#").
  2: { intros x r Hx. change (starts_with ("#"%char :: lit "##") (x :: r) = false).
       rewrite starts_with_cons. by destruct (Ascii.eqb_spec "#" x). }
  2: { destruct Htail as [->|[r ->]]; [done|]. destruct (lit "###" ++ r) eqn:E; [done|].
       rewrite <- E. apply starts_with_app. }
  2: done.
  unfold block_example, code_on. by rewrite take_app_length, <- app_assoc.
Qed.

Lemma blocks_text_tail (example_type : str) (blocks : list example_block) :
  block_tail (blocks_text example_type blocks).
Proof.
  destruct blocks as [|b blocks]; [by left|]. right.
  unfold blocks_text. cbn [map concat]. unfold block_text.
  eexists. rewrite <- !app_assoc.
  change (lit "### " ++ ?t) with (lit "###" ++ " "%char :: t). reflexivity.
Qed.

(** X7.  Example blocks written one after the other are read back one by one:
    [extract_examples] answers with one example for a block, in the order
    of the blocks, with the id made of the type and the number, the title,
    the language, and the code and the explanation stripped. *)
Theorem example_blocks_extracted (example_type : str) (blocks : list example_block) :
  literal_name example_type ->
  Forall plain_block blocks ->
  example_matches example_type (blocks_text example_type blocks)
  = map (block_example example_type) blocks.
Proof.
  intros _ Hall. unfold example_matches.
  induction Hall as [|b blocks Hb _ IH]; [done|].
  change (blocks_text example_type (b :: blocks))
    with (block_text example_type b ++ blocks_text example_type blocks).
  rewrite (finditer_match _ _ _ (block_example example_type b)).
  - cbn [map]. by rewrite IH.
  - intros H%(f_equal length). unfold block_text in H.
    rewrite !length_app in H. change (length (lit "### ")) with 4 in H.
    change (length (@nil ascii)) with 0 in H. lia.
  - apply match_example_block; [done | apply blocks_text_tail].
Qed.

Lemma good_blocks_plain : Forall plain_block good_blocks.
Proof.
  unfold good_blocks.
  constructor; [|constructor; [|constructor]];
    (unfold plain_block; cbn [b_number b_title b_language b_code b_explanation];
     split_and!; try done; try reflexivity; apply not_elem_check; reflexivity).
Qed.

Lemma example_blocks_extracted_witness :
  example_matches (lit "good") (blocks_text (lit "good") good_blocks)
  = map (block_example (lit "good")) good_blocks.
Proof.
  apply example_blocks_extracted; [reflexivity | exact good_blocks_plain].
Defined.

(** The document of the two blocks and the ids and the explanations read
    from it. *)
Example good_blocks_document :
  blocks_text (lit "good") good_blocks
  = unlines ["### GOOD_EXAMPLE_001: Descriptive name";
             "```typescript";
             "it('rejects an empty cart', () => {});";
             "```";
             "**Why this is good**: The name states the behaviour.";
             "";
             "### GOOD_EXAMPLE_002: Named unit";
             "```typescript";
             "describe('Cart', () => {});";
             "```";
             "**Why this is good**: The unit under test is named."]
  /\ map e_id (example_matches (lit "good") (blocks_text (lit "good") good_blocks))
     = map lit ["GOOD_EXAMPLE_001"; "GOOD_EXAMPLE_002"]%string
  /\ map e_explanation
       (example_matches (lit "good") (blocks_text (lit "good") good_blocks))
     = map lit ["The name states the behaviour."; "The unit under test is named."]%string.
Proof. split_and!; vm_compute; reflexivity. Qed.

(** ** The check of the content structure *)

Lemma match_numbered_Some (before tag after s group : str) (n : nat) :
  match_numbered before tag after s = Some (group, n) ->
  exists digits r, s = (before ++ tag) ++ digits ++ after ++ r
                   /\ digits <> [] /\ forallb is_digit digits = true.
Proof.
  unfold match_numbered.
  destruct (starts_with (before ++ tag) s) eqn:E; [|done].
  apply starts_with_spec in E as [t ->]. rewrite drop_app_length.
  destruct (span_digits t) as [digits rest] eqn:Hspan.
  assert (Hd : t = digits ++ rest /\ forallb is_digit digits = true).
  { clear -Hspan. revert digits rest Hspan.
    induction t as [|c t IH]; intros digits rest; simpl.
    - by intros [= <- <-].
    - destruct (is_digit c) eqn:Ec; [|by intros [= <- <-]].
      destruct (span_digits t) as [d r]. intros [= <- <-].
      destruct (IH _ _ eq_refl) as [-> Hd]. simpl. by rewrite Ec. }
  destruct Hd as [-> Hdig]. destruct digits as [|d digits]; [done|].
  destruct (starts_with after rest) eqn:Ea; [|done].
  apply starts_with_spec in Ea as [r ->]. intros _. by exists (d :: digits), r.
Qed.

Lemma search_numbered_eq (before tag after s : str) :
  search_numbered before tag after s
  = match match_numbered before tag after s with
    | Some _ => true
    | None =>
        match s with
        | [] => false
        | _ :: s' => search_numbered before tag after s'
        end
    end.
Proof. by destruct s. Qed.

Lemma search_numbered_spec (prefix content : str) :
  search_numbered (lit "**[") prefix (lit "]**") content = true
  <-> tagged_id prefix content.
Proof.
  split.
  - assert (Hhere : forall s group n,
               match_numbered (lit "**[") prefix (lit "]**") s = Some (group, n) ->
               tagged_id prefix s).
    { intros s group n (digits & r & Hs & ? & ?)%match_numbered_Some.
      by exists [], digits, r. }
    induction content as [|c content IH]; rewrite search_numbered_eq.
    + destruct (match_numbered _ _ _ _) as [[group n]|] eqn:E; [|done].
      intros _. by eapply Hhere.
    + destruct (match_numbered _ _ _ _) as [[group n]|] eqn:E.
      * intros _. by eapply Hhere.
      * intros (a & digits & b & -> & ? & ?)%IH. by exists (c :: a), digits, b.
  - intros (a & digits & b & -> & Hne & Hdig).
    assert (Hm : is_Some (match_numbered (lit "**[") prefix (lit "]**")
                            ((lit "**[" ++ prefix) ++ digits ++ lit "]**" ++ b))).
    { unfold match_numbered. rewrite starts_with_app, drop_app_length.
      rewrite span_digits_app by (done || apply starts_with_app).
      destruct digits; [done|]. by rewrite starts_with_app. }
    induction a as [|c a IH]; rewrite search_numbered_eq.
    + destruct Hm as [x Hx]. by rewrite app_nil_l, Hx.
    + change ((c :: a) ++ ?x) with (c :: (a ++ x)). clear Hm.
      destruct (match_numbered _ _ _ _); [done | exact IH].
Qed.

Lemma check_id_format_spec (heading prefix warning content : str)
    (self : RuleValidator) :
  errors (check_id_format heading prefix warning content self) = errors self
  /\ ((format_warning_due heading prefix content
       /\ warnings (check_id_format heading prefix warning content self)
          = warnings self ++ [warning])
      \/ (~ format_warning_due heading prefix content
          /\ warnings (check_id_format heading prefix warning content self)
             = warnings self)).
Proof.
  unfold check_id_format, format_warning_due.
  destruct (contains (lit "## " ++ heading) content) eqn:E2.
  2: { split; [done|]. right. split; [|done].
       intros [H%contains_occurs _]. congruence. }
  destruct (contains (lit "### " ++ heading) content) eqn:E3.
  { split; [done|]. right. split; [|done].
    intros (_ & H & _). by apply H, contains_occurs. }
  cbn [negb andb].
  destruct (search_numbered _ _ _ content) eqn:Es; cbn [negb].
  - split; [done|]. right. split; [|done].
    intros (_ & _ & H). by apply H, search_numbered_spec.
  - split; [done|]. left. split; [|done]. split_and!.
    + by apply contains_occurs.
    + intros H%contains_occurs. congruence.
    + intros H%search_numbered_spec. congruence.
Qed.

Lemma fold_missing_sections (content : str) (sections : list str)
    (self : RuleValidator) :
  let result :=
    fold_left
      (fun self section =>
         if negb (contains (lit "## " ++ section) content)
         then error (lit "Missing required section: " ++ section) self
         else self)
      sections self in
  errors result
  = errors self
    ++ map (fun section => lit "Missing required section: " ++ section)
           (List.filter (fun section => negb (contains (lit "## " ++ section) content))
                        sections)
  /\ warnings result = warnings self.
Proof.
  revert self. induction sections as [|section sections IH]; intros self.
  - simpl. by rewrite app_nil_r.
  - cbn zeta in *. cbn [fold_left].
    destruct (IH (if negb (contains (lit "## " ++ section) content)
                  then error (lit "Missing required section: " ++ section) self
                  else self)) as [-> ->].
    destruct (contains (lit "## " ++ section) content) eqn:E; cbn [negb].
    + cbn [List.filter]. by rewrite E.
    + cbn [List.filter]. rewrite E. simpl. by rewrite <- app_assoc.
Qed.

(** X24.  The check of the structure reports one error for every required
    section whose name does not follow [## ] anywhere in the document, in
    the order of the schema; a heading of a deeper level, and a longer name
    that begins with the name of the section, pass for the section.  It
    warns about the ids of a section exactly when the document has the
    text [## MUST_FOLLOW] (or [## MUST_NOT_DO]), does not have it behind a
    third [#], and tags no id of the family: a document that writes the
    heading at level three is never warned. *)
Theorem content_structure_checks (required_sections : list str) (content : str)
    (self : RuleValidator) :
  errors (_validate_content_structure required_sections content self)
  = errors self
    ++ map (fun section => lit "Missing required section: " ++ section)
           (List.filter (fun section => negb (contains (lit "## " ++ section) content))
                        required_sections)
  /\ exists req_warnings ant_warnings,
       warnings (_validate_content_structure required_sections content self)
       = warnings self ++ req_warnings ++ ant_warnings
       /\ ((format_warning_due (lit "MUST_FOLLOW") (lit "REQ") content
            /\ req_warnings = [lit "MUST_FOLLOW section should use REQ### format"])
           \/ (~ format_warning_due (lit "MUST_FOLLOW") (lit "REQ") content
               /\ req_warnings = []))
       /\ ((format_warning_due (lit "MUST_NOT_DO") (lit "ANT") content
            /\ ant_warnings = [lit "MUST_NOT_DO section should use ANT### format"])
           \/ (~ format_warning_due (lit "MUST_NOT_DO") (lit "ANT") content
               /\ ant_warnings = [])).
Proof.
  unfold _validate_content_structure. cbv zeta.
  destruct (fold_missing_sections content required_sections self) as [He1 Hw1].
  cbv zeta in He1, Hw1.
  match goal with
  | |- context [check_id_format _ _ _ content (check_id_format _ _ _ content ?s)] =>
      set (s1 := s) in *
  end.
  set (s2 := check_id_format (lit "MUST_FOLLOW") _ _ content s1).
  destruct (check_id_format_spec (lit "MUST_FOLLOW") (lit "REQ")
              (lit "MUST_FOLLOW section should use REQ### format") content s1)
    as [He2 Hw2]. fold s2 in He2, Hw2.
  destruct (check_id_format_spec (lit "MUST_NOT_DO") (lit "ANT")
              (lit "MUST_NOT_DO section should use ANT### format") content s2)
    as [He3 Hw3].
  split; [by rewrite He3, He2, He1|].
  destruct Hw2 as [[Hd2 Hw2]|[Hd2 Hw2]], Hw3 as [[Hd3 Hw3]|[Hd3 Hw3]];
    eexists _, _; (split; [|split; [by (left + right)|by (left + right)]]);
    rewrite Hw3, Hw2, Hw1, <- ?app_assoc, ?app_nil_r; reflexivity.
Qed.

(** ** The quick start *)

Section QuickStartFacts.
Context {lib : Library}.

(** X26.  [check_test_naming] answers with an error exactly when the rule file
    of the language is not there.  Otherwise the code is compliant exactly
    when it does not contain the letters [should] or the rule has no
    antipattern with the id [ANT001]; whatever else the antipatterns say
    plays no part.  There is one violation for every antipattern with
    that id, with the text and the alternative of the antipattern. *)
Theorem check_test_naming_spec (fs : files) (code language : str) :
  match check_test_naming fs code language with
  | Some (NotFound _) => fs !! naming_rule language = None
  | Some (Checked compliant violations) =>
      exists extractor,
        new_extractor fs (naming_rule language) = Some extractor
        /\ (compliant = true
            <-> ~ occurs (lit "should") code
                \/ lit "ANT001" ∉ map a_id (extract_antipatterns extractor))
        /\ (occurs (lit "should") code ->
            violations
            = map (fun a => {| violation_id := lit "ANT001";
                               message := a_antipattern a;
                               suggestion := a_instead a |})
                  (List.filter (fun a => bool_decide (a_id a = lit "ANT001"))
                               (extract_antipatterns extractor)))
  | None => is_Some (fs !! naming_rule language)
            /\ new_extractor fs (naming_rule language) = None
  end.
Proof.
  unfold check_test_naming.
  destruct (fs !! naming_rule language) as [text|] eqn:Hfile; [|done].
  destruct (new_extractor fs (naming_rule language)) as [extractor|] eqn:Hext;
    cbn [mbind option_bind]; [|by split].
  exists extractor. split; [done|].
  set (antipatterns := extract_antipatterns extractor).
  destruct (contains (lit "should") code) eqn:Hshould.
  - assert (Homap : omap (fun pattern =>
                            if bool_decide (a_id pattern = lit "ANT001") && true
                            then Some {| violation_id := a_id pattern;
                                         message := a_antipattern pattern;
                                         suggestion := a_instead pattern |}
                            else None) antipatterns
                    = map (fun a => {| violation_id := lit "ANT001";
                                       message := a_antipattern a;
                                       suggestion := a_instead a |})
                          (List.filter (fun a => bool_decide (a_id a = lit "ANT001"))
                                       antipatterns)).
    { induction antipatterns as [|a l IH]; [done|]. cbn [omap list_omap List.filter].
      case_bool_decide as Ha; cbn [andb map]; [|exact IH].
      rewrite Ha at 1. f_equal. exact IH. }
    rewrite Homap. split; [|done]. rewrite length_map, Nat.eqb_eq. split.
    + intros Hlen. right. intros (a & Ha & Hin)%list_elem_of_fmap.
      apply length_zero_iff_nil in Hlen.
      assert (Hf : In a (List.filter (fun a => bool_decide (a_id a = lit "ANT001"))
                                     antipatterns)).
      { apply filter_In. split; [by apply list_elem_of_In|].
        by apply bool_decide_eq_true. }
      by rewrite Hlen in Hf.
    + intros [Hno|Hno]; [destruct Hno; by apply contains_occurs|].
      destruct (List.filter _ antipatterns) as [|a l] eqn:E; [done|].
      destruct Hno. apply list_elem_of_fmap. exists a.
      assert (Hf : In a (List.filter (fun a => bool_decide (a_id a = lit "ANT001"))
                                     antipatterns)) by (rewrite E; by left).
      apply filter_In in Hf as [Hin Ha]. apply bool_decide_eq_true in Ha.
      split; [done | by apply list_elem_of_In].
  - assert (Homap : omap (fun pattern =>
                            if bool_decide (a_id pattern = lit "ANT001") && false
                            then Some {| violation_id := a_id pattern;
                                         message := a_antipattern pattern;
                                         suggestion := a_instead pattern |}
                            else None) antipatterns = []).
    { induction antipatterns as [|a l IH]; [done|]. cbn [omap list_omap].
      by rewrite andb_false_r. }
    rewrite Homap. split.
    + split; [|done]. intros _. left. intros H%contains_occurs. congruence.
    + intros H%contains_occurs. congruence.
Qed.

End QuickStartFacts.
